(** * The voice interaction engine of ChatView

    A shallow embedding of the turn-taking engine of
    [frontend/src/views/ChatView.tsx] (with the parts of
    [components/Sidebar.tsx], [store/useStore.ts] and [api/client.ts] it
    talks to): the single-flight text-to-speech player, the microphone
    capture session with its energy-based end-pointing, and the
    orchestration around them.

    The component is event driven.  Every callback of the source is a
    function on an explicit [State]; the browser is modelled by the
    objects the component creates (audio elements, abort controllers,
    media streams, recorders, timers, animation frames, pending network
    calls) and by the events it delivers.  One [step] is one browser task:
    the handler of the event followed by the promise reactions it has
    queued. *)

From Stdlib Require Import ZArith QArith Bool List String Lia.
From stdpp Require Import base list.
Import ListNotations.

Local Open Scope string_scope.
Local Open Scope nat_scope.

(** ** Data model *)

(** [JarvisPhase] of [types/index.ts]: the conversation state. *)
Inductive JarvisPhase := idle | listening | processing | speaking.

Inductive ChatMode := chat | story | learning | game.

Inductive ViewType := view_chat | view_settings | view_register.

Inductive Role := user | assistant.

Record Message := { role : Role; content : string }.

Global Instance JarvisPhase_eq_dec : EqDecision JarvisPhase.
Proof. solve_decision. Defined.

Global Instance ChatMode_eq_dec : EqDecision ChatMode.
Proof. solve_decision. Defined.

Global Instance ViewType_eq_dec : EqDecision ViewType.
Proof. solve_decision. Defined.

(** The three constants of ChatView. *)
Definition SILENCE_THRESHOLD : Q := 15 # 1000.
Definition SILENCE_DURATION : Z := 1500.
Definition MAX_RECORD_TIME : Z := 20000.

(** What a caller of [speakResponse] does once the promise it awaits has
    settled.  Each constructor is the rest of one [async] function after
    its [await speakResponse(...)]. *)
Inductive SpeakCont :=
| after_transcribe_apology   (* processAudio, after the "couldn't hear" apology *)
| after_reply                (* processAudio, after the assistant's reply *)
| after_error_apology        (* processAudio, catch block *)
| after_mic_error            (* startRecording, catch block *)
| after_switch_active        (* handleModeSwitch, conversation active *)
| after_switch_idle          (* handleModeSwitch, no conversation *)
| after_greeting             (* startConversation, first greeting *)
| after_text_reply.          (* handleTextSubmit *)

(** *** Objects of the text-to-speech player

    A call of [speakResponse] that passes the [ttsEnabled] guard creates an
    [AbortController], and, when its fetch succeeds and is still current, a
    blob URL, an [Audio] element and a promise.  All of them are identified
    by the index of the call in [calls]; the refs hold such indices, so
    that [===] on the objects is equality of indices. *)

Record Audio := {
  a_playing : bool;       (* the element is producing sound *)
  a_onended : bool;       (* onended is cleanupAndResolve (not null) *)
  a_onerror : bool;       (* onerror is cleanupAndResolve (not null) *)
  a_playPending : bool    (* the promise of play() has not settled *)
}.

Inductive CallStage :=
| fetching        (* awaiting api.getTtsAudio *)
| playing         (* awaiting the playback promise *)
| resolved        (* playback promise resolved, speakResponse not yet resumed *)
| returned.       (* speakResponse has returned and its caller was resumed *)

Global Instance CallStage_eq_dec : EqDecision CallStage.
Proof. solve_decision. Defined.

Record TtsCall := {
  c_seq : Z;                (* const seq = ++ttsSeqRef.current *)
  c_text : string;
  c_cont : SpeakCont;
  c_aborted : bool;         (* abortController.signal.aborted *)
  c_stage : CallStage;
  c_audio : option Audio;   (* new Audio(audioUrl), once created *)
  c_urlLive : bool          (* blob URL created and not yet revoked *)
}.

Record Tts := {
  ttsAudioRef : option nat;
  ttsUrlRef : option nat;
  ttsAbortRef : option nat;
  ttsSeqRef : Z;
  ttsResolveRef : option nat;
  calls : list TtsCall
}.

(** *** Objects of a capture session

    One successful [getUserMedia] creates a stream, an audio context with
    its analyser, and a recorder; the four refs hold the index of the
    session in [sessions]. *)

Inductive RecorderState :=
| rec_recording
| rec_stopping     (* stop() was called: state is 'inactive', the stop event is queued *)
| rec_inactive.    (* the stop event has been dispatched *)

Global Instance RecorderState_eq_dec : EqDecision RecorderState.
Proof. solve_decision. Defined.

Record Session := {
  stream_live : bool;       (* the tracks of the stream have not been stopped *)
  ctx_closed : bool;        (* audioContext.state === 'closed' *)
  rec_state : RecorderState;
  started_at : Z            (* time of recorder.start(100) *)
}.

Record Refs := {
  hasGreetedRef : bool;
  shouldContinueRef : bool;
  mediaRecorderRef : option nat;
  audioChunksRef : list Z;          (* sizes of the chunks *)
  streamRef : option nat;
  audioContextRef : option nat;
  analyserRef : option nat;
  silenceStartRef : option Z;
  speechDetectedRef : bool;
  rafIdRef : option nat;
  isRecordingRef : bool
}.

(** The store ([useStore]) and the React state of the component. *)
Record Ui := {
  jarvisPhase : JarvisPhase;
  isListening : bool;
  conversationActive : bool;
  audioLevel : Q;
  isLoading : bool;
  currentMode : ChatMode;
  currentView : ViewType;
  currentLanguage : string;
  messages : list Message;
  mounted : bool                    (* onModeSwitch is registered *)
}.

Inductive TimerAction :=
| restart_if_continuing             (* processAudio: the 300 ms restart *)
| restart_capture                   (* the 500 ms restarts *)
| max_record_time (sess : nat).     (* startRecording: the 20 s limit; [sess]
                                       only records which session set it *)

Inductive ChatOrigin := from_voice | from_text.

Record ChatReq := {
  q_origin : ChatOrigin;
  q_text : string;
  q_mode : ChatMode;
  q_lang : string
}.

(** Promise reactions queued by the running handler. *)
Inductive Micro :=
| resume_call (c : nat)             (* the playback promise of call [c] resolved *)
| resume_cont (k : SpeakCont).      (* speakResponse returned at its guard *)

Record Env := {
  clock : Z;                        (* Date.now() *)
  sessions : list Session;
  rafPending : list nat;            (* requested animation frames *)
  rafNext : nat;
  timers : list (Z * TimerAction);  (* setTimeout: due time and callback *)
  micPending : nat;                 (* startRecording calls awaiting getUserMedia *)
  transcribing : list Z;            (* blobs awaiting api.transcribeAudio *)
  chatPending : list ChatReq;       (* api.chat calls in flight *)
  microtasks : list Micro
}.

Record State := { ui : Ui; refs : Refs; tts : Tts; env : Env }.

(** *** Field updates *)

Definition with_ui (f : Ui -> Ui) (s : State) : State :=
  {| ui := f (ui s); refs := refs s; tts := tts s; env := env s |}.
Definition with_refs (f : Refs -> Refs) (s : State) : State :=
  {| ui := ui s; refs := f (refs s); tts := tts s; env := env s |}.
Definition with_tts (f : Tts -> Tts) (s : State) : State :=
  {| ui := ui s; refs := refs s; tts := f (tts s); env := env s |}.
Definition with_env (f : Env -> Env) (s : State) : State :=
  {| ui := ui s; refs := refs s; tts := tts s; env := f (env s) |}.

Definition set_jarvisPhase v (u : Ui) :=
  Build_Ui v (isListening u) (conversationActive u) (audioLevel u) (isLoading u)
    (currentMode u) (currentView u) (currentLanguage u) (messages u) (mounted u).
Definition set_isListening v (u : Ui) :=
  Build_Ui (jarvisPhase u) v (conversationActive u) (audioLevel u) (isLoading u)
    (currentMode u) (currentView u) (currentLanguage u) (messages u) (mounted u).
Definition set_conversationActive v (u : Ui) :=
  Build_Ui (jarvisPhase u) (isListening u) v (audioLevel u) (isLoading u)
    (currentMode u) (currentView u) (currentLanguage u) (messages u) (mounted u).
Definition set_audioLevel v (u : Ui) :=
  Build_Ui (jarvisPhase u) (isListening u) (conversationActive u) v (isLoading u)
    (currentMode u) (currentView u) (currentLanguage u) (messages u) (mounted u).
Definition set_isLoading v (u : Ui) :=
  Build_Ui (jarvisPhase u) (isListening u) (conversationActive u) (audioLevel u) v
    (currentMode u) (currentView u) (currentLanguage u) (messages u) (mounted u).
Definition set_currentMode v (u : Ui) :=
  Build_Ui (jarvisPhase u) (isListening u) (conversationActive u) (audioLevel u)
    (isLoading u) v (currentView u) (currentLanguage u) (messages u) (mounted u).
Definition set_currentView v (u : Ui) :=
  Build_Ui (jarvisPhase u) (isListening u) (conversationActive u) (audioLevel u)
    (isLoading u) (currentMode u) v (currentLanguage u) (messages u) (mounted u).
Definition set_currentLanguage v (u : Ui) :=
  Build_Ui (jarvisPhase u) (isListening u) (conversationActive u) (audioLevel u)
    (isLoading u) (currentMode u) (currentView u) v (messages u) (mounted u).
Definition set_messages v (u : Ui) :=
  Build_Ui (jarvisPhase u) (isListening u) (conversationActive u) (audioLevel u)
    (isLoading u) (currentMode u) (currentView u) (currentLanguage u) v (mounted u).
Definition set_mounted v (u : Ui) :=
  Build_Ui (jarvisPhase u) (isListening u) (conversationActive u) (audioLevel u)
    (isLoading u) (currentMode u) (currentView u) (currentLanguage u) (messages u) v.

Definition set_hasGreetedRef v (r : Refs) :=
  Build_Refs v (shouldContinueRef r) (mediaRecorderRef r) (audioChunksRef r)
    (streamRef r) (audioContextRef r) (analyserRef r) (silenceStartRef r)
    (speechDetectedRef r) (rafIdRef r) (isRecordingRef r).
Definition set_shouldContinueRef v (r : Refs) :=
  Build_Refs (hasGreetedRef r) v (mediaRecorderRef r) (audioChunksRef r)
    (streamRef r) (audioContextRef r) (analyserRef r) (silenceStartRef r)
    (speechDetectedRef r) (rafIdRef r) (isRecordingRef r).
Definition set_mediaRecorderRef v (r : Refs) :=
  Build_Refs (hasGreetedRef r) (shouldContinueRef r) v (audioChunksRef r)
    (streamRef r) (audioContextRef r) (analyserRef r) (silenceStartRef r)
    (speechDetectedRef r) (rafIdRef r) (isRecordingRef r).
Definition set_audioChunksRef v (r : Refs) :=
  Build_Refs (hasGreetedRef r) (shouldContinueRef r) (mediaRecorderRef r) v
    (streamRef r) (audioContextRef r) (analyserRef r) (silenceStartRef r)
    (speechDetectedRef r) (rafIdRef r) (isRecordingRef r).
Definition set_streamRef v (r : Refs) :=
  Build_Refs (hasGreetedRef r) (shouldContinueRef r) (mediaRecorderRef r)
    (audioChunksRef r) v (audioContextRef r) (analyserRef r) (silenceStartRef r)
    (speechDetectedRef r) (rafIdRef r) (isRecordingRef r).
Definition set_audioContextRef v (r : Refs) :=
  Build_Refs (hasGreetedRef r) (shouldContinueRef r) (mediaRecorderRef r)
    (audioChunksRef r) (streamRef r) v (analyserRef r) (silenceStartRef r)
    (speechDetectedRef r) (rafIdRef r) (isRecordingRef r).
Definition set_analyserRef v (r : Refs) :=
  Build_Refs (hasGreetedRef r) (shouldContinueRef r) (mediaRecorderRef r)
    (audioChunksRef r) (streamRef r) (audioContextRef r) v (silenceStartRef r)
    (speechDetectedRef r) (rafIdRef r) (isRecordingRef r).
Definition set_silenceStartRef v (r : Refs) :=
  Build_Refs (hasGreetedRef r) (shouldContinueRef r) (mediaRecorderRef r)
    (audioChunksRef r) (streamRef r) (audioContextRef r) (analyserRef r) v
    (speechDetectedRef r) (rafIdRef r) (isRecordingRef r).
Definition set_speechDetectedRef v (r : Refs) :=
  Build_Refs (hasGreetedRef r) (shouldContinueRef r) (mediaRecorderRef r)
    (audioChunksRef r) (streamRef r) (audioContextRef r) (analyserRef r)
    (silenceStartRef r) v (rafIdRef r) (isRecordingRef r).
Definition set_rafIdRef v (r : Refs) :=
  Build_Refs (hasGreetedRef r) (shouldContinueRef r) (mediaRecorderRef r)
    (audioChunksRef r) (streamRef r) (audioContextRef r) (analyserRef r)
    (silenceStartRef r) (speechDetectedRef r) v (isRecordingRef r).
Definition set_isRecordingRef v (r : Refs) :=
  Build_Refs (hasGreetedRef r) (shouldContinueRef r) (mediaRecorderRef r)
    (audioChunksRef r) (streamRef r) (audioContextRef r) (analyserRef r)
    (silenceStartRef r) (speechDetectedRef r) (rafIdRef r) v.

Definition set_ttsAudioRef v (t : Tts) :=
  Build_Tts v (ttsUrlRef t) (ttsAbortRef t) (ttsSeqRef t) (ttsResolveRef t) (calls t).
Definition set_ttsUrlRef v (t : Tts) :=
  Build_Tts (ttsAudioRef t) v (ttsAbortRef t) (ttsSeqRef t) (ttsResolveRef t) (calls t).
Definition set_ttsAbortRef v (t : Tts) :=
  Build_Tts (ttsAudioRef t) (ttsUrlRef t) v (ttsSeqRef t) (ttsResolveRef t) (calls t).
Definition set_ttsSeqRef v (t : Tts) :=
  Build_Tts (ttsAudioRef t) (ttsUrlRef t) (ttsAbortRef t) v (ttsResolveRef t) (calls t).
Definition set_ttsResolveRef v (t : Tts) :=
  Build_Tts (ttsAudioRef t) (ttsUrlRef t) (ttsAbortRef t) (ttsSeqRef t) v (calls t).
Definition set_calls v (t : Tts) :=
  Build_Tts (ttsAudioRef t) (ttsUrlRef t) (ttsAbortRef t) (ttsSeqRef t)
    (ttsResolveRef t) v.

Definition set_clock v (e : Env) :=
  Build_Env v (sessions e) (rafPending e) (rafNext e) (timers e) (micPending e)
    (transcribing e) (chatPending e) (microtasks e).
Definition set_sessions v (e : Env) :=
  Build_Env (clock e) v (rafPending e) (rafNext e) (timers e) (micPending e)
    (transcribing e) (chatPending e) (microtasks e).
Definition set_rafPending v (e : Env) :=
  Build_Env (clock e) (sessions e) v (rafNext e) (timers e) (micPending e)
    (transcribing e) (chatPending e) (microtasks e).
Definition set_rafNext v (e : Env) :=
  Build_Env (clock e) (sessions e) (rafPending e) v (timers e) (micPending e)
    (transcribing e) (chatPending e) (microtasks e).
Definition set_timers v (e : Env) :=
  Build_Env (clock e) (sessions e) (rafPending e) (rafNext e) v (micPending e)
    (transcribing e) (chatPending e) (microtasks e).
Definition set_micPending v (e : Env) :=
  Build_Env (clock e) (sessions e) (rafPending e) (rafNext e) (timers e) v
    (transcribing e) (chatPending e) (microtasks e).
Definition set_transcribing v (e : Env) :=
  Build_Env (clock e) (sessions e) (rafPending e) (rafNext e) (timers e)
    (micPending e) v (chatPending e) (microtasks e).
Definition set_chatPending v (e : Env) :=
  Build_Env (clock e) (sessions e) (rafPending e) (rafNext e) (timers e)
    (micPending e) (transcribing e) v (microtasks e).
Definition set_microtasks v (e : Env) :=
  Build_Env (clock e) (sessions e) (rafPending e) (rafNext e) (timers e)
    (micPending e) (transcribing e) (chatPending e) v.

Definition set_c_aborted v (c : TtsCall) :=
  Build_TtsCall (c_seq c) (c_text c) (c_cont c) v (c_stage c) (c_audio c) (c_urlLive c).
Definition set_c_stage v (c : TtsCall) :=
  Build_TtsCall (c_seq c) (c_text c) (c_cont c) (c_aborted c) v (c_audio c) (c_urlLive c).
Definition set_c_audio v (c : TtsCall) :=
  Build_TtsCall (c_seq c) (c_text c) (c_cont c) (c_aborted c) (c_stage c) v (c_urlLive c).
Definition set_c_urlLive v (c : TtsCall) :=
  Build_TtsCall (c_seq c) (c_text c) (c_cont c) (c_aborted c) (c_stage c) (c_audio c) v.

Definition set_stream_live v (x : Session) :=
  Build_Session v (ctx_closed x) (rec_state x) (started_at x).
Definition set_ctx_closed v (x : Session) :=
  Build_Session (stream_live x) v (rec_state x) (started_at x).
Definition set_rec_state v (x : Session) :=
  Build_Session (stream_live x) (ctx_closed x) v (started_at x).

(** Store actions. *)
Definition setJarvisPhase p := with_ui (set_jarvisPhase p).
Definition setIsListening b := with_ui (set_isListening b).
Definition setConversationActive b := with_ui (set_conversationActive b).
Definition setAudioLevel q := with_ui (set_audioLevel q).
Definition setIsLoading b := with_ui (set_isLoading b).
Definition setCurrentMode m := with_ui (set_currentMode m).
Definition setCurrentView v := with_ui (set_currentView v).
Definition setCurrentLanguage l := with_ui (set_currentLanguage l).
Definition addMessage (m : Message) :=
  with_ui (fun u => set_messages (messages u ++ [m]) u).
Definition clearMessages := with_ui (set_messages []).

(** Update of one call, of one session. *)
Definition upd_call (c : nat) (f : TtsCall -> TtsCall) : State -> State :=
  with_tts (fun t => set_calls (alter f c (calls t)) t).
Definition upd_session (i : nat) (f : Session -> Session) : State -> State :=
  with_env (fun e => set_sessions (alter f i (sessions e)) e).
Definition queueMicrotask (m : Micro) : State -> State :=
  with_env (fun e => set_microtasks (microtasks e ++ [m]) e).

Notation "s |> f" := (f s) (at level 45, left associativity, only parsing).

(** JavaScript truthiness of a numeric handle or timestamp held in a ref:
    [null] and [0] are falsy. *)
Definition truthy_nat (o : option nat) : option nat :=
  match o with
  | Some (S n) => Some (S n)
  | _ => None
  end.

Definition truthy_time (o : option Z) : option Z :=
  match o with
  | Some t => if (t =? 0)%Z then None else Some t
  | None => None
  end.

(** ** Browser primitives *)

Definition setTimeout (a : TimerAction) (delay : Z) (s : State) : State :=
  s |> with_env (fun e => set_timers (timers e ++ [((clock e + delay)%Z, a)]) e).

(** [requestAnimationFrame(monitorAudio)] stored into [rafIdRef]. *)
Definition requestMonitorFrame (s : State) : State :=
  let id := rafNext (env s) in
  s |> with_env (fun e => set_rafNext (S id) (set_rafPending (rafPending e ++ [id]) e))
    |> with_refs (set_rafIdRef (Some id)).

Definition cancelAnimationFrame (id : nat) : State -> State :=
  with_env (fun e => set_rafPending (filter (fun j => j <> id) (rafPending e)) e).

Definition recorder_is_recording (r : nat) (s : State) : bool :=
  match sessions (env s) !! r with
  | Some x => bool_decide (rec_state x = rec_recording)
  | None => false
  end.

(** [recorder.stop()]: the state becomes 'inactive' at once and a stop
    event is queued. *)
Definition recorder_stop (r : nat) : State -> State :=
  upd_session r (set_rec_state rec_stopping).

(** [stream.getTracks().forEach(t => t.stop())].  A recorder whose stream
    has no live track left stops by itself (MediaStream Recording: when all
    tracks have ended the recorder is inactivated and fires stop). *)
Definition stop_tracks (i : nat) : State -> State :=
  upd_session i (fun x =>
    set_stream_live false
      (if bool_decide (rec_state x = rec_recording)
       then set_rec_state rec_stopping x else x)).

Definition close_context (i : nat) : State -> State :=
  upd_session i (set_ctx_closed true).

(** ** The text-to-speech player *)

Definition new_call (seq : Z) (text : string) (k : SpeakCont) : TtsCall :=
  {| c_seq := seq; c_text := text; c_cont := k; c_aborted := false;
     c_stage := fetching; c_audio := None; c_urlLive := false |}.

(** [onended = null; onerror = null; pause(); currentTime = 0]. *)
Definition silence_audio (a : Audio) : Audio :=
  {| a_playing := false; a_onended := false; a_onerror := false;
     a_playPending := a_playPending a |}.

(** [audio.onended = audio.onerror = cleanupAndResolve; audio.play()]. *)
Definition started_audio : Audio :=
  {| a_playing := true; a_onended := true; a_onerror := true;
     a_playPending := true |}.

(** Calling the [resolve] of call [c]'s playback promise.  A promise
    settles once: later calls of [resolve] do nothing. *)
Definition resolve_promise (c : nat) (s : State) : State :=
  match calls (tts s) !! c with
  | Some x =>
      if decide (c_stage x = playing)
      then s |> upd_call c (set_c_stage resolved) |> queueMicrotask (resume_call c)
      else s
  | None => s
  end.

(** The four blocks of [stopTtsNow], in source order. *)

(* Abort any in-flight TTS request *)
Definition abort_inflight_request (s : State) : State :=
  match ttsAbortRef (tts s) with
  | Some c => s |> upd_call c (set_c_aborted true)
                |> with_tts (set_ttsAbortRef None)
  | None => s
  end.

(* Stop any currently playing audio immediately *)
Definition stop_current_audio (s : State) : State :=
  match ttsAudioRef (tts s) with
  | Some c => s |> upd_call c (fun x => set_c_audio (silence_audio <$> c_audio x) x)
                |> with_tts (set_ttsAudioRef None)
  | None => s
  end.

(* Release blob URL *)
Definition release_blob_url (s : State) : State :=
  match ttsUrlRef (tts s) with
  | Some c => s |> upd_call c (set_c_urlLive false)
                |> with_tts (set_ttsUrlRef None)
  | None => s
  end.

(* Resolve any pending speak() promise so callers don't hang *)
Definition resolve_pending_speak (s : State) : State :=
  match ttsResolveRef (tts s) with
  | Some c => s |> resolve_promise c |> with_tts (set_ttsResolveRef None)
  | None => s
  end.

Definition stopTtsNow (s : State) : State :=
  s |> abort_inflight_request
    |> stop_current_audio
    |> release_blob_url
    |> resolve_pending_speak.

Definition cleanupAndResolve (c : nat) (s : State) : State :=
  let s := if decide (ttsResolveRef (tts s) = Some c)
           then s |> with_tts (set_ttsResolveRef None) else s in
  let s := if decide (ttsAudioRef (tts s) = Some c)
           then s |> with_tts (set_ttsAudioRef None) else s in
  let s := if decide (ttsUrlRef (tts s) = Some c)
           then s |> upd_call c (set_c_urlLive false)
                  |> with_tts (set_ttsUrlRef None)
           else s in
  resolve_promise c s.

(** The [finally] block of [speakResponse]. *)
Definition finally_call (c : nat) (s : State) : State :=
  if decide (ttsAbortRef (tts s) = Some c)
  then s |> with_tts (set_ttsAbortRef None) else s.

Section ChatView.

(** [ttsEnabled] as captured by the callbacks of this instance of the
    component (it is changed from the settings view only, which unmounts
    ChatView), and [status.robotName]. *)
Variable ttsEnabled : bool.
Variable robotName : string.

(** [speakResponse(text)] up to its first [await]; [k] is what its caller
    does afterwards. *)
Definition speakResponse (text : string) (k : SpeakCont) (s : State) : State :=
  if negb ttsEnabled then s |> queueMicrotask (resume_cont k)
  else
    (* Ensure we never overlap audio *)
    let s := stopTtsNow s in
    let seq := (ttsSeqRef (tts s) + 1)%Z in
    let s := s |> with_tts (set_ttsSeqRef seq) in
    let c := length (calls (tts s)) in
    s |> with_tts (fun t => set_calls (calls t ++ [new_call seq text k]) t)
      |> with_tts (set_ttsAbortRef (Some c)).

(** ** Capture *)

(** [sum / dataArray.length / 255] over the analyser's byte frequency
    data. *)
Definition getAudioLevel (data : list Z) : Q :=
  inject_Z (fold_right Z.add 0%Z data) / inject_Z (Z.of_nat (length data)) / 255.

Definition isSpeaking (level : Q) : bool := negb (Qle_bool level SILENCE_THRESHOLD).

Definition stopRecording (s : State) : State :=
  let s := s |> with_refs (set_isRecordingRef false) in
  let s := match truthy_nat (rafIdRef (refs s)) with
           | Some id => s |> cancelAnimationFrame id |> with_refs (set_rafIdRef None)
           | None => s
           end in
  match mediaRecorderRef (refs s) with
  | Some r => if recorder_is_recording r s then recorder_stop r s else s
  | None => s
  end.

(** [processAudio(audioBlob)] up to its first [await]; the blob is
    represented by its size. *)
Definition processAudio (blob : Z) (s : State) : State :=
  if (blob =? 0)%Z || negb (speechDetectedRef (refs s)) then
    if shouldContinueRef (refs s)
    then s |> setTimeout restart_if_continuing 300
    else s |> setJarvisPhase idle |> setIsListening false
  else
    s |> setJarvisPhase processing
      |> with_env (fun e => set_transcribing (transcribing e ++ [blob]) e).

Definition APOLOGY_NOT_HEARD : string := "I couldn't hear that. Please try again.".
Definition APOLOGY_ERROR : string := "Sorry, something went wrong!".
Definition APOLOGY_MIC : string := "I can't access your microphone.".

Inductive TranscribeResult :=
| transcribed (text : string) (success : bool)
| transcribe_threw.

Inductive ChatResult :=
| chat_ok (response : string) (language : option string)
| chat_threw.

Definition is_empty (t : string) : bool :=
  match t with EmptyString => true | _ => false end.

(** The [catch] block of [processAudio]. *)
Definition processAudio_catch (s : State) : State :=
  s |> setJarvisPhase speaking |> speakResponse APOLOGY_ERROR after_error_apology.

(** [processAudio] resumed with the outcome of [api.transcribeAudio]. *)
Definition processAudio_transcribed (res : TranscribeResult) (s : State) : State :=
  match res with
  | transcribed text success =>
      if negb success || is_empty text then
        s |> setJarvisPhase speaking
          |> speakResponse APOLOGY_NOT_HEARD after_transcribe_apology
      else
        let s := s |> addMessage {| role := user; content := text |} in
        s |> with_env (fun e =>
               set_chatPending
                 (chatPending e ++
                  [{| q_origin := from_voice; q_text := text;
                      q_mode := currentMode (ui s);
                      q_lang := currentLanguage (ui s) |}]) e)
  | transcribe_threw => processAudio_catch s
  end.

(** [if (response.language) setCurrentLanguage(response.language)], as
    ChatView has it.  The version of [store/useStore.ts] at hand declares
    neither [currentLanguage] nor [setCurrentLanguage]; the properties of
    the replies are stated for replies that name no language. *)
Definition update_language (language : option string) (s : State) : State :=
  match language with
  | Some l => if is_empty l then s else s |> setCurrentLanguage l
  | None => s
  end.

(** [processAudio] resumed with the outcome of [api.chat]. *)
Definition processAudio_replied (res : ChatResult) (s : State) : State :=
  match res with
  | chat_ok response language =>
      s |> update_language language
        |> setJarvisPhase speaking
        |> addMessage {| role := assistant; content := response |}
        |> speakResponse response after_reply
  | chat_threw => processAudio_catch s
  end.

(** [monitorAudio], one animation frame; [data] is what the analyser
    returns and the clock is [Date.now()]. *)
Definition monitorAudio (data : list Z) (s : State) : State :=
  match analyserRef (refs s) with
  | None => s
  | Some _ =>
    if negb (isRecordingRef (refs s)) then s
    else
      let level := getAudioLevel data in
      let s := s |> setAudioLevel level in
      let now := clock (env s) in
      if isSpeaking level then
        s |> with_refs (set_silenceStartRef None)
          |> with_refs (set_speechDetectedRef true)
          |> requestMonitorFrame
      else if speechDetectedRef (refs s) then
        match truthy_time (silenceStartRef (refs s)) with
        | None =>
            s |> with_refs (set_silenceStartRef (Some now)) |> requestMonitorFrame
        | Some t0 =>
            if (SILENCE_DURATION <? now - t0)%Z then stopRecording s
            else requestMonitorFrame s
        end
      else requestMonitorFrame s
  end.

(** [startRecording] up to [await getUserMedia]. *)
Definition startRecording (s : State) : State :=
  s |> with_refs (set_speechDetectedRef false)
    |> with_refs (set_silenceStartRef None)
    |> with_refs (set_audioChunksRef [])
    |> with_refs (set_isRecordingRef true)
    |> with_env (fun e => set_micPending (S (micPending e)) e).

Definition new_session (now : Z) : Session :=
  {| stream_live := true; ctx_closed := false; rec_state := rec_recording;
     started_at := now |}.

(** [startRecording] resumed with a stream. *)
Definition startRecording_granted (s : State) : State :=
  let i := length (sessions (env s)) in
  s |> with_env (fun e => set_sessions (sessions e ++ [new_session (clock e)]) e)
    |> with_refs (set_streamRef (Some i))
    |> with_refs (set_audioContextRef (Some i))
    |> with_refs (set_analyserRef (Some i))
    |> with_refs (set_mediaRecorderRef (Some i))
    |> requestMonitorFrame
    |> setTimeout (max_record_time i) MAX_RECORD_TIME.

(** [startRecording] resumed with a rejection: its [catch] block. *)
Definition startRecording_denied (s : State) : State :=
  s |> setJarvisPhase speaking |> speakResponse APOLOGY_MIC after_mic_error.

(** [recorder.ondataavailable]. *)
Definition ondataavailable (size : Z) (s : State) : State :=
  if (0 <? size)%Z
  then s |> with_refs (fun r => set_audioChunksRef (audioChunksRef r ++ [size]) r)
  else s.

(** [recorder.onstop]. *)
Definition onstop (s : State) : State :=
  let s := match streamRef (refs s) with
           | Some i => s |> stop_tracks i |> with_refs (set_streamRef None)
           | None => s
           end in
  let s := match audioContextRef (refs s) with
           | Some i => close_context i s
           | None => s
           end in
  processAudio (fold_right Z.add 0%Z (audioChunksRef (refs s))) s.

(** The callbacks given to [setTimeout]. *)
Definition run_timer (a : TimerAction) (s : State) : State :=
  match a with
  | restart_if_continuing =>
      if shouldContinueRef (refs s) then startRecording s else s
  | restart_capture => startRecording s
  | max_record_time _ =>
      if isRecordingRef (refs s) then stopRecording s else s
  end.

(** What the caller of [speakResponse] does after its [await]. *)
Definition run_cont (k : SpeakCont) (s : State) : State :=
  match k with
  | after_transcribe_apology | after_reply =>
      if shouldContinueRef (refs s) then
        s |> setJarvisPhase listening |> setIsListening true
          |> setTimeout restart_capture 500
      else s |> setJarvisPhase idle |> setIsListening false
  | after_error_apology =>
      if shouldContinueRef (refs s) then
        s |> setJarvisPhase listening |> setTimeout restart_capture 500
      else s |> setJarvisPhase idle
  | after_mic_error =>
      s |> setConversationActive false
        |> with_refs (set_shouldContinueRef false)
        |> setJarvisPhase idle
  | after_switch_active =>
      if shouldContinueRef (refs s) then
        s |> setJarvisPhase listening |> setIsListening true
          |> setTimeout restart_capture 500
      else s |> setJarvisPhase idle
  | after_switch_idle => s |> setJarvisPhase idle
  | after_greeting =>
      s |> setJarvisPhase listening |> setIsListening true |> startRecording
  | after_text_reply => s |> setJarvisPhase idle |> setIsLoading false
  end.

(** [speakResponse] returns: its [finally] block runs, its promise
    resolves and the caller goes on. *)
Definition return_call (c : nat) (s : State) : State :=
  let s := s |> finally_call c |> upd_call c (set_c_stage returned) in
  match calls (tts s) !! c with
  | Some x => run_cont (c_cont x) s
  | None => s
  end.

Inductive FetchResult := fetch_ok | fetch_abort_error | fetch_failed.

(** [speakResponse] resumed with the outcome of [api.getTtsAudio]. *)
Definition speakResponse_fetched (c : nat) (res : FetchResult) (s : State) : State :=
  match calls (tts s) !! c with
  | None => s
  | Some x =>
    match res with
    | fetch_ok =>
        (* If a newer TTS request started, ignore this one. *)
        if decide (c_seq x <> ttsSeqRef (tts s)) then return_call c s
        else
          s |> upd_call c (set_c_urlLive true)
            |> with_tts (set_ttsUrlRef (Some c))
            |> with_tts (set_ttsAudioRef (Some c))
            |> upd_call c (set_c_stage playing)
            |> with_tts (set_ttsResolveRef (Some c))
            |> upd_call c (set_c_audio (Some started_audio))
    | fetch_abort_error | fetch_failed => return_call c s
    end
  end.

Definition run_micro (m : Micro) (s : State) : State :=
  match m with
  | resume_call c => return_call c s
  | resume_cont k => run_cont k s
  end.

(** The promise reactions queued by a handler run, in order, when the
    handler has returned. *)
Definition run_microtasks (s : State) : State :=
  fold_left (fun s m => run_micro m s) (microtasks (env s))
    (s |> with_env (set_microtasks [])).

(** ** Orchestration *)

(** [conversationActive || jarvisPhase !== 'idle']. *)
Definition conversation_engaged (s : State) : bool :=
  conversationActive (ui s) || negb (bool_decide (jarvisPhase (ui s) = idle)).

(** The block shared by [handleModeSwitch] and [stopConversation]:
    cancel the animation frame, stop the recorder, stop the stream. *)
Definition cancel_monitor (s : State) : State :=
  match truthy_nat (rafIdRef (refs s)) with
  | Some id => s |> cancelAnimationFrame id |> with_refs (set_rafIdRef None)
  | None => s
  end.

Definition stop_recorder_if_recording (s : State) : State :=
  match mediaRecorderRef (refs s) with
  | Some r => if recorder_is_recording r s then recorder_stop r s else s
  | None => s
  end.

Definition release_stream (s : State) : State :=
  match streamRef (refs s) with
  | Some i => s |> stop_tracks i |> with_refs (set_streamRef None)
  | None => s
  end.

Definition handleModeSwitch (mode : ChatMode) (greeting : string) (s : State) : State :=
  (* Stop any currently speaking voice immediately so we never overlap. *)
  let s := stopTtsNow s in
  if conversation_engaged s then
    s |> with_refs (set_isRecordingRef false)
      |> cancel_monitor
      |> stop_recorder_if_recording
      |> release_stream
      |> setJarvisPhase speaking
      |> speakResponse greeting after_switch_active
  else
    s |> setJarvisPhase speaking
      |> speakResponse greeting after_switch_idle.

Definition first_greeting : string :=
  "Hello! I'm " ++ (if is_empty robotName then "VV" else robotName)
    ++ "! What would you like to talk about?".

Definition startConversation (s : State) : State :=
  let s := s |> with_refs (set_shouldContinueRef true)
             |> setConversationActive true in
  if negb (hasGreetedRef (refs s)) then
    s |> with_refs (set_hasGreetedRef true)
      |> setJarvisPhase speaking
      |> addMessage {| role := assistant; content := first_greeting |}
      |> speakResponse first_greeting after_greeting
  else
    s |> setJarvisPhase listening |> setIsListening true |> startRecording.

Definition stopConversation (s : State) : State :=
  s |> with_refs (set_shouldContinueRef false)
    |> setConversationActive false
    |> with_refs (set_isRecordingRef false)
    |> stopTtsNow
    |> cancel_monitor
    |> stop_recorder_if_recording
    |> release_stream
    |> setJarvisPhase idle
    |> setIsListening false
    |> setAudioLevel 0.

Definition handleMicClick (s : State) : State :=
  if conversation_engaged s then stopConversation s else startConversation s.

(** [handleTextSubmit]; [msg] is [textInput.trim()]. *)
Definition handleTextSubmit (msg : string) (s : State) : State :=
  if is_empty msg || isLoading (ui s)
     || negb (bool_decide (jarvisPhase (ui s) = idle))
  then s
  else
    let s := s |> setIsLoading true |> setJarvisPhase processing
               |> addMessage {| role := user; content := msg |} in
    s |> with_env (fun e =>
           set_chatPending
             (chatPending e ++
              [{| q_origin := from_text; q_text := msg;
                  q_mode := currentMode (ui s);
                  q_lang := currentLanguage (ui s) |}]) e).

Definition handleTextSubmit_replied (res : ChatResult) (s : State) : State :=
  match res with
  | chat_ok response language =>
      s |> update_language language
        |> setJarvisPhase speaking
        |> addMessage {| role := assistant; content := response |}
        |> speakResponse response after_text_reply
  | chat_threw =>
      s |> addMessage {| role := assistant;
                         content := "Sorry, I had trouble responding." |}
        |> setJarvisPhase idle
        |> setIsLoading false
  end.

(** *** Sidebar *)

Inductive NavId := nav_mode (m : ChatMode) | nav_settings.

Definition MODE_GREETINGS (m : ChatMode) : string :=
  match m with
  | chat => "Chat mode! What do you want to talk about?"
  | story => "Story mode activated! Should I tell you a fairy tale, or would you like to create one together?"
  | learning => "Learning mode! What would you like to learn about today?"
  | game => "Game mode! Let's play a fun game together!"
  end.

(** The effect cleanups of ChatView, run when the view is replaced. *)
Definition unmount (s : State) : State :=
  let s := s |> with_ui (set_mounted false)
             |> with_refs (set_shouldContinueRef false)
             |> with_refs (set_isRecordingRef false) in
  let s := match truthy_nat (rafIdRef (refs s)) with
           | Some id => cancelAnimationFrame id s
           | None => s
           end in
  let s := match streamRef (refs s) with
           | Some i => stop_tracks i s
           | None => s
           end in
  match audioContextRef (refs s) with
  | Some i => close_context i s
  | None => s
  end.

Definition handleNavClick (id : NavId) (s : State) : State :=
  match id with
  | nav_settings => s |> setCurrentView view_settings |> unmount
  | nav_mode m =>
      if negb (bool_decide (m = currentMode (ui s)))
         || negb (bool_decide (currentView (ui s) = view_chat))
      then
        let greeting := MODE_GREETINGS m in
        let s := s |> setCurrentMode m |> setCurrentView view_chat
                   |> clearMessages
                   |> addMessage {| role := assistant; content := greeting |} in
        if mounted (ui s) then handleModeSwitch m greeting s else s
      else s
  end.

(** ** Events *)

Inductive Event :=
| MicClick
| NavClick (id : NavId)
| TextSubmit (msg : string)
| Frame (id : nat) (data : list Z)          (* an animation frame callback *)
| TimerFire (k : nat)                       (* the k-th pending timer *)
| RecorderData (r : nat) (size : Z)         (* dataavailable of recorder r *)
| RecorderStop (r : nat)                    (* stop event of recorder r *)
| MicGranted                                (* getUserMedia resolved *)
| MicDenied                                 (* getUserMedia rejected *)
| TranscribeDone (k : nat) (res : TranscribeResult)
| ChatDone (k : nat) (res : ChatResult)
| TtsFetched (c : nat) (res : FetchResult)
| AudioEnded (c : nat)
| AudioError (c : nat)
| PlayStarted (c : nat)                     (* the promise of play() fulfilled *)
| PlayRejected (c : nat).                   (* the promise of play() rejected *)

Definition audio_of (c : nat) (s : State) : option Audio :=
  x ← calls (tts s) !! c; c_audio x.

Definition upd_audio (c : nat) (f : Audio -> Audio) : State -> State :=
  upd_call c (fun x => set_c_audio (f <$> c_audio x) x).

Definition set_a_playing v (a : Audio) :=
  Build_Audio v (a_onended a) (a_onerror a) (a_playPending a).
Definition set_a_playPending v (a : Audio) :=
  Build_Audio (a_playing a) (a_onended a) (a_onerror a) v.

(** The handler of an event; [None] when the event cannot occur in [s]. *)
Definition handle (ev : Event) (s : State) : option State :=
  match ev with
  | MicClick => if mounted (ui s) then Some (handleMicClick s) else None
  | NavClick id => if mounted (ui s) then Some (handleNavClick id s) else None
  | TextSubmit msg => if mounted (ui s) then Some (handleTextSubmit msg s) else None
  | Frame id data =>
      if bool_decide (id ∈ rafPending (env s))
      then Some (s |> cancelAnimationFrame id |> monitorAudio data)
      else None
  | TimerFire k =>
      match timers (env s) !! k with
      | Some (due, a) =>
          if (due <=? clock (env s))%Z
          then Some (s |> with_env (fun e => set_timers (delete k (timers e)) e)
                       |> run_timer a)
          else None
      | None => None
      end
  | RecorderData r size =>
      match sessions (env s) !! r with
      | Some x =>
          match rec_state x with
          | rec_inactive => None
          | _ => Some (ondataavailable size s)
          end
      | None => None
      end
  | RecorderStop r =>
      match sessions (env s) !! r with
      | Some x =>
          match rec_state x with
          | rec_stopping =>
              Some (s |> upd_session r (set_rec_state rec_inactive) |> onstop)
          | _ => None
          end
      | None => None
      end
  | MicGranted =>
      match micPending (env s) with
      | S n => Some (s |> with_env (set_micPending n) |> startRecording_granted)
      | O => None
      end
  | MicDenied =>
      match micPending (env s) with
      | S n => Some (s |> with_env (set_micPending n) |> startRecording_denied)
      | O => None
      end
  | TranscribeDone k res =>
      match transcribing (env s) !! k with
      | Some _ =>
          Some (s |> with_env (fun e => set_transcribing (delete k (transcribing e)) e)
                  |> processAudio_transcribed res)
      | None => None
      end
  | ChatDone k res =>
      match chatPending (env s) !! k with
      | Some q =>
          let s := s |> with_env (fun e => set_chatPending (delete k (chatPending e)) e) in
          Some (match q_origin q with
                | from_voice => processAudio_replied res s
                | from_text => handleTextSubmit_replied res s
                end)
      | None => None
      end
  | TtsFetched c res =>
      match calls (tts s) !! c with
      | Some x =>
          if decide (c_stage x = fetching)
          then Some (speakResponse_fetched c res s) else None
      | None => None
      end
  | AudioEnded c =>
      match audio_of c s with
      | Some a =>
          if a_playing a then
            let s := upd_audio c (set_a_playing false) s in
            Some (if a_onended a then cleanupAndResolve c s else s)
          else None
      | None => None
      end
  | AudioError c =>
      match audio_of c s with
      | Some a =>
          let s := upd_audio c (set_a_playing false) s in
          Some (if a_onerror a then cleanupAndResolve c s else s)
      | None => None
      end
  | PlayStarted c =>
      match audio_of c s with
      | Some a =>
          if a_playPending a && a_playing a
          then Some (upd_audio c (set_a_playPending false) s) else None
      | None => None
      end
  | PlayRejected c =>
      match audio_of c s with
      | Some a =>
          if a_playPending a then
            Some (s |> upd_audio c (fun a => set_a_playing false (set_a_playPending false a))
                    |> cleanupAndResolve c)
          else None
      | None => None
      end
  end.

(** One browser task at time [t]: the handler, then the queued promise
    reactions. *)
Definition step (t : Z) (ev : Event) (s : State) : option State :=
  if (clock (env s) <=? t)%Z
  then run_microtasks <$> handle ev (s |> with_env (set_clock t))
  else None.

Fixpoint run (tr : list (Z * Event)) (s : State) : option State :=
  match tr with
  | [] => Some s
  | (t, ev) :: tr' =>
      match step t ev s with
      | Some s' => run tr' s'
      | None => None
      end
  end.

(** The component as mounted at time [t0]. *)
Definition init (t0 : Z) (language : string) : State :=
  {| ui := {| jarvisPhase := idle; isListening := false;
              conversationActive := false; audioLevel := 0;
              isLoading := false; currentMode := chat;
              currentView := view_chat; currentLanguage := language;
              messages := []; mounted := true |};
     refs := {| hasGreetedRef := false; shouldContinueRef := false;
                mediaRecorderRef := None; audioChunksRef := [];
                streamRef := None; audioContextRef := None;
                analyserRef := None; silenceStartRef := None;
                speechDetectedRef := false; rafIdRef := None;
                isRecordingRef := false |};
     tts := {| ttsAudioRef := None; ttsUrlRef := None; ttsAbortRef := None;
               ttsSeqRef := 0; ttsResolveRef := None; calls := [] |};
     env := {| clock := t0; sessions := []; rafPending := []; rafNext := 1;
               timers := []; micPending := 0; transcribing := [];
               chatPending := []; microtasks := [] |} |}.

Inductive reachable : State -> Prop :=
| reachable_init t0 language : reachable (init t0 language)
| reachable_step s t ev s' :
    reachable s -> step t ev s = Some s' -> reachable s'.

End ChatView.

Local Open Scope list_scope.

(** * Specification

    Definitions used to state the properties of the engine. *)

(** What [stopTtsNow] does to call [c], read off the refs [t] it starts
    from. *)
Definition retire (t : Tts) (c : nat) (x : TtsCall) : TtsCall :=
  {| c_seq := c_seq x; c_text := c_text x; c_cont := c_cont x;
     c_aborted := if decide (ttsAbortRef t = Some c) then true else c_aborted x;
     c_stage := if decide (ttsResolveRef t = Some c)
                then (if decide (c_stage x = playing) then resolved else c_stage x)
                else c_stage x;
     c_audio := if decide (ttsAudioRef t = Some c)
                then silence_audio <$> c_audio x else c_audio x;
     c_urlLive := if decide (ttsUrlRef t = Some c) then false else c_urlLive x |}.


(** [resolve] on a call: only a pending promise changes. *)
Definition settle (x : TtsCall) : TtsCall :=
  if decide (c_stage x = playing) then set_c_stage resolved x else x.


(** [f] touches neither the player nor the queue of promise reactions. *)
Definition player_frame (f : State -> State) : Prop :=
  forall s, tts (f s) = tts s /\ microtasks (env (f s)) = microtasks (env s).


(** The invariant of the player.  [floor] is a lower bound on the number
    of calls made so far. *)
Record PlayerInv (ttsEnabled : bool) (floor : nat) (s : State) : Prop := {
  pinv_seq : forall c x, calls (tts s) !! c = Some x -> c_seq x = Z.of_nat (S c);
  pinv_seq_ref : ttsSeqRef (tts s) = Z.of_nat (length (calls (tts s)));
  pinv_refs_audio : ttsAudioRef (tts s) = ttsResolveRef (tts s);
  pinv_refs_url : ttsUrlRef (tts s) = ttsResolveRef (tts s);
  pinv_resolve_last : forall c,
    ttsResolveRef (tts s) = Some c -> S c = length (calls (tts s));
  pinv_abort_last : forall c,
    ttsAbortRef (tts s) = Some c -> S c = length (calls (tts s));
  pinv_stage_playing : forall c x, calls (tts s) !! c = Some x ->
    (c_stage x = playing <-> ttsResolveRef (tts s) = Some c);
  pinv_audible : forall c x a, calls (tts s) !! c = Some x ->
    c_audio x = Some a -> a_playing a = true -> c_stage x = playing;
  pinv_url : forall c x, calls (tts s) !! c = Some x ->
    c_urlLive x = true -> c_stage x = playing;
  pinv_fetching : forall c x, calls (tts s) !! c = Some x ->
    c_stage x = fetching -> c_aborted x = false -> ttsAbortRef (tts s) = Some c;
  pinv_fetching_audio : forall c x, calls (tts s) !! c = Some x ->
    c_stage x = fetching -> c_audio x = None;
  pinv_micro : forall c, resume_call c ∈ microtasks (env s) ->
    exists x, calls (tts s) !! c = Some x /\ c_stage x <> playing /\ c_stage x <> fetching;
  pinv_disabled : ttsEnabled = false -> calls (tts s) = [];
  pinv_floor : floor <= length (calls (tts s))
}.

(** Runs of the component. *)
Inductive steps (ttsEnabled : bool) (robotName : string) : State -> State -> Prop :=
| steps_refl s : steps ttsEnabled robotName s s
| steps_step s s1 t ev s2 :
    steps ttsEnabled robotName s s1 ->
    step ttsEnabled robotName t ev s1 = Some s2 ->
    steps ttsEnabled robotName s s2.


(** The audio element of call [c] is producing sound. *)
Definition audible (c : nat) (s : State) : Prop :=
  exists x a, calls (tts s) !! c = Some x /\ c_audio x = Some a /\ a_playing a = true.

(** The chain of [monitorAudio] callbacks of one capture session: each
    tick is the time of the frame and what the analyser returns then. *)
Fixpoint monitor_run (ticks : list (Z * list Z)) (s : State) : State :=
  match ticks with
  | [] => s
  | (t, data) :: rest =>
      monitor_run rest (monitorAudio data (with_env (set_clock t) s))
  end.

(** The monitor is running on a session in which speech was detected and
    silence began at [t0]. *)
Definition trailing_silence (t0 : Z) (s : State) : Prop :=
  analyserRef (refs s) <> None /\ isRecordingRef (refs s) = true /\
  speechDetectedRef (refs s) = true /\ silenceStartRef (refs s) = Some t0.

(** The recorder held by [mediaRecorderRef], if it was recording in [s],
    has been stopped in [s']. *)
Definition current_recorder_stopped (s s' : State) : Prop :=
  forall r x, mediaRecorderRef (refs s) = Some r ->
    sessions (env s) !! r = Some x -> rec_state x = rec_recording ->
    exists x', sessions (env s') !! r = Some x' /\ rec_state x' = rec_stopping.

(** A tick at or below the threshold, at most the silence duration after
    [t0]. *)
Definition quiet_within (t0 : Z) (tick : Z * list Z) : Prop :=
  (getAudioLevel tick.2 <= SILENCE_THRESHOLD)%Q /\ (tick.1 - t0 <= SILENCE_DURATION)%Z.


(** [f] changes nothing but the player and the queue of promise
    reactions. *)
Definition player_only (f : State -> State) : Prop :=
  forall s, ui (f s) = ui s /\ refs (f s) = refs s /\
    set_microtasks [] (env (f s)) = set_microtasks [] (env s).

(** [s'] has the timers of [s], in order, and possibly more after them. *)
Definition timers_kept (s s' : State) : Prop :=
  exists l, timers (env s') = timers (env s) ++ l.

(** ** Example runs

    Concrete runs of the component, used to exhibit reachable states.
    [loud] and [quiet] are analyser readings above and below the
    threshold. *)

Definition loud : list Z := [255; 255]%Z.
Definition quiet : list Z := [0; 0]%Z.

(** The greeting is being played. *)
Definition run_greeting : list (Z * Event) :=
  [ (1000, MicClick); (1100, TtsFetched 0 fetch_ok) ]%Z.

(** The user is heard: greeting (its fetch fails), capture, speech. *)
Definition run_speech : list (Z * Event) :=
  [ (1000, MicClick); (1100, TtsFetched 0 fetch_failed); (1200, MicGranted);
    (1300, Frame 1 loud); (1400, RecorderData 0 4000) ]%Z.

(** A first turn in continuous mode up to the end of capture: speech,
    then silence, end-pointing, the recorder's stop event. *)
Definition run_heard : list (Z * Event) :=
  run_speech ++
  [ (1500, Frame 2 quiet); (3100, Frame 3 quiet); (3110, RecorderStop 0) ]%Z.

(** The turn is answered and capture restarts by itself. *)
Definition run_replied : list (Z * Event) :=
  run_heard ++
  [ (4000, TranscribeDone 0 (transcribed "hi" true));
    (5000, ChatDone 0 (chat_ok "hello" None));
    (5500, TtsFetched 1 fetch_ok); (7000, AudioEnded 1);
    (7500, TimerFire 1); (7600, MicGranted) ]%Z.

Definition state_after (tr : list (Z * Event)) : State :=
  match run true "VV" tr (init 1000 "en") with
  | Some s => s
  | None => init 1000 "en"
  end.

(** The stream held by [streamRef] in [s] has no live track in [s']: the
    microphone is released. *)
Definition stream_released (s s' : State) : Prop :=
  forall i x, streamRef (refs s) = Some i -> sessions (env s) !! i = Some x ->
    exists x', sessions (env s') !! i = Some x' /\ stream_live x' = false.


Definition keeps_timers (f : State -> State) : Prop :=
  forall s, timers_kept s (f s).

(** Listening in continuous mode, nothing said yet. *)
Definition run_listening : list (Z * Event) :=
  [ (1000, MicClick); (1100, TtsFetched 0 fetch_failed); (1200, MicGranted) ]%Z.

(** One change of mode while listening in continuous mode: the stop
    handler of the interrupted recorder restarts capture after 300 ms,
    and the mode switch restarts it again 500 ms after its greeting. *)
Definition run_mode_switch : list (Z * Event) :=
  run_listening ++
  [ (2000, NavClick (nav_mode story)); (2010, RecorderStop 0);
    (2310, TimerFire 1); (2400, MicGranted);
    (2500, TtsFetched 1 fetch_ok); (5000, AudioEnded 1);
    (5500, TimerFire 2); (5600, MicGranted) ]%Z.

(** A stop requested while the microphone is being acquired. *)
Definition run_stop_while_acquiring : list (Z * Event) :=
  [ (1000, MicClick); (1100, TtsFetched 0 fetch_failed); (1150, MicClick);
    (1300, MicGranted); (1316, Frame 1 quiet); (21300, TimerFire 0);
    (30000, RecorderData 0 100) ]%Z.

(** * Further specification

    Definitions for the properties of the code around the engine. *)

(** Every byte of the analyser's data is in [0, 255]. *)
Definition byte_data (data : list Z) : Prop :=
  Forall (fun b => (0 <= b <= 255)%Z) data.

(** The audio element of a call has its handlers for as long as it
    sounds. *)
Definition audio_ok (x : TtsCall) : Prop :=
  forall a, c_audio x = Some a -> a_playing a = true ->
    a_onended a = true /\ a_onerror a = true.

(** A second invariant of the player: sounding elements have their
    handlers, and a promise that was resolved has its reaction queued. *)
Record PlaybackInv (s : State) : Prop := {
  binv_handlers : forall c x, calls (tts s) !! c = Some x -> audio_ok x;
  binv_resolved : forall c x, calls (tts s) !! c = Some x ->
    c_stage x = resolved -> resume_call c ∈ microtasks (env s)
}.

(** The invariant on the calls while the promise reactions [q] of a task
    are still to run. *)
Definition playback_pending (q : list Micro) (s : State) : Prop :=
  (forall c x, calls (tts s) !! c = Some x -> audio_ok x)
  /\ (forall c x, calls (tts s) !! c = Some x -> c_stage x = resolved -> resume_call c ∈ q).


(** The audio context held by [audioContextRef] in [s] is closed in
    [s']. *)
Definition context_closed (s s' : State) : Prop :=
  forall i x, audioContextRef (refs s) = Some i -> sessions (env s) !! i = Some x ->
    exists x', sessions (env s') !! i = Some x' /\ ctx_closed x' = true.

(** The flags that steer the conversation: the greeting was made, the
    continuous-mode flag, the conversation is shown as active, the view
    is mounted. *)
Record Control := {
  k_greeted : bool;
  k_continue : bool;
  k_active : bool;
  k_mounted : bool
}.

Definition control (s : State) : Control :=
  {| k_greeted := hasGreetedRef (refs s);
     k_continue := shouldContinueRef (refs s);
     k_active := conversationActive (ui s);
     k_mounted := mounted (ui s) |}.

(** The three ways in which the code changes these flags: a conversation
    is started (only while the view is mounted), a conversation is ended
    (by a stop or a refused microphone), the view is left. *)
Inductive control_step : Control -> Control -> Prop :=
| control_start g c a :
    control_step (Build_Control g c a true) (Build_Control true true true true)
| control_end g c a m :
    control_step (Build_Control g c a m) (Build_Control g false false m)
| control_leave g c a m :
    control_step (Build_Control g c a m) (Build_Control g false a false).

(** A state in which the flags agree: while the view is mounted the
    continuous-mode flag is the displayed activity, and afterwards it is
    cleared. *)
Definition control_ok (k : Control) : Prop :=
  if k_mounted k then k_continue k = k_active k else k_continue k = false.

Definition keeps_control (f : State -> State) : Prop :=
  forall s, control (f s) = control s.

Inductive control_steps : Control -> Control -> Prop :=
| control_steps_refl k : control_steps k k
| control_steps_step k1 k2 k3 :
    control_steps k1 k2 -> control_step k2 k3 -> control_steps k1 k3.


(** The [dataavailable] events of one recording, in order. *)
Definition record_chunks (sizes : list Z) (s : State) : State :=
  fold_left (fun s size => ondataavailable size s) sizes s.

(** *** The level meter of [components/JarvisStatus.tsx] *)

(** [Math.min(audioLevel * 20, 1)]. *)
Definition scaledLevel (level : Q) : Q :=
  if Qle_bool (level * 20) 1 then level * 20 else 1.

(** The height of a bar of the wave; [variation] is
    [Math.sin(...) * 0.3 + 0.7]. *)
Definition barHeight (level variation : Q) : Q :=
  5 + (14 - 5) * scaledLevel level * variation.

(** [scaledLevel > 0.1]: the bars move with the level. *)
Definition wave_follows_level (level : Q) : bool :=
  negb (Qle_bool (scaledLevel level) (1 # 10)).

(** ** Further example runs *)

(** A first turn answered and spoken: the restart of capture is pending. *)
Definition run_answered : list (Z * Event) :=
  run_heard ++
  [ (4000, TranscribeDone 0 (transcribed "hi" true));
    (5000, ChatDone 0 (chat_ok "hello" None));
    (5500, TtsFetched 1 fetch_ok); (7000, AudioEnded 1) ]%Z.

(** The conversation was just started: the greeting is being fetched. *)
Definition run_started : list (Z * Event) := [ (1000, MicClick) ]%Z.

(** The same with text-to-speech switched off. *)
Definition state_after_off (tr : list (Z * Event)) : State :=
  match run false "VV" tr (init 1000 "en") with
  | Some s => s
  | None => init 1000 "en"
  end.

(** ** Tasks that interrupt speech *)



(** A reply is being played in continuous mode. *)
Definition run_reply_playing : list (Z * Event) :=
  run_heard ++
  [ (4000, TranscribeDone 0 (transcribed "hi" true));
    (5000, ChatDone 0 (chat_ok "hello" None));
    (5500, TtsFetched 1 fetch_ok) ]%Z.





(** * The registration wizard

    [views/RegisterView.tsx]: a form in four steps.  The state of the
    component and what its handlers do to it; [handle] tells which
    handler the page offers in which state, as its JSX does. *)

Module RegisterView.

(** A JavaScript string: its UTF-16 code units. *)
Definition jsstring := list Z.

Definition code_units (s : string) : jsstring :=
  map (fun c => Z.of_N (Ascii.N_of_ascii c)) (list_ascii_of_string s).

(** The code units removed by [String.prototype.trim]: WhiteSpace and
    LineTerminator of ECMAScript. *)
Definition is_white_space (c : Z) : bool :=
  ((9 <=? c) && (c <=? 13) || (c =? 32) || (c =? 160) || (c =? 5760)
   || (8192 <=? c) && (c <=? 8202) || (c =? 8232) || (c =? 8233)
   || (c =? 8239) || (c =? 8287) || (c =? 12288) || (c =? 65279))%Z.

Fixpoint trimStart (s : jsstring) : jsstring :=
  match s with
  | c :: s' => if is_white_space c then trimStart s' else s
  | [] => []
  end.

Definition trimEnd (s : jsstring) : jsstring := rev (trimStart (rev s)).

Definition trim (s : jsstring) : jsstring := trimEnd (trimStart s).

(** [!s] on a string. *)
Definition falsy (s : jsstring) : bool :=
  match s with [] => true | _ => false end.

(** [s.includes('@')]. *)
Definition includes_at (s : jsstring) : bool := existsb (Z.eqb 64) s.

Definition INTERESTS : list string :=
  ["animals"; "space"; "dinosaurs"; "music"; "art"; "sports"; "nature";
   "stories"; "science"; "cooking"; "building"; "puzzles"].

(** The options of the two [select] elements. *)
Definition AGES : list Z := [2; 3; 4; 5; 6; 7; 8; 9; 10; 11; 12]%Z.
Definition REPORT_TIMES : list string := ["08:00"; "12:00"; "18:00"; "20:00"].

Record ParentProfile := {
  parentName : jsstring;
  parentEmail : jsstring;
  childName : jsstring;
  childAge : Z;
  childInterests : list string;
  dailyReportEnabled : bool;
  reportTime : string
}.

Record Wizard := {
  currentStep : Z;
  isSubmitting : bool;
  submitSuccess : bool;
  error : option string;
  formData : ParentProfile;
  registering : list ParentProfile;   (* api.registerParent calls in flight *)
  parentRegistered : bool;            (* status.parentRegistered of the store *)
  redirects : nat;                    (* pending 3 s timers *)
  view : ViewType                     (* currentView of the store *)
}.

Definition set_currentStep v (w : Wizard) :=
  Build_Wizard v (isSubmitting w) (submitSuccess w) (error w) (formData w)
    (registering w) (parentRegistered w) (redirects w) (view w).
Definition set_isSubmitting v (w : Wizard) :=
  Build_Wizard (currentStep w) v (submitSuccess w) (error w) (formData w)
    (registering w) (parentRegistered w) (redirects w) (view w).
Definition set_submitSuccess v (w : Wizard) :=
  Build_Wizard (currentStep w) (isSubmitting w) v (error w) (formData w)
    (registering w) (parentRegistered w) (redirects w) (view w).
Definition set_error v (w : Wizard) :=
  Build_Wizard (currentStep w) (isSubmitting w) (submitSuccess w) v (formData w)
    (registering w) (parentRegistered w) (redirects w) (view w).
Definition set_formData v (w : Wizard) :=
  Build_Wizard (currentStep w) (isSubmitting w) (submitSuccess w) (error w) v
    (registering w) (parentRegistered w) (redirects w) (view w).
Definition set_registering v (w : Wizard) :=
  Build_Wizard (currentStep w) (isSubmitting w) (submitSuccess w) (error w) (formData w)
    v (parentRegistered w) (redirects w) (view w).
Definition set_parentRegistered v (w : Wizard) :=
  Build_Wizard (currentStep w) (isSubmitting w) (submitSuccess w) (error w) (formData w)
    (registering w) v (redirects w) (view w).
Definition set_redirects v (w : Wizard) :=
  Build_Wizard (currentStep w) (isSubmitting w) (submitSuccess w) (error w) (formData w)
    (registering w) (parentRegistered w) v (view w).
Definition set_view v (w : Wizard) :=
  Build_Wizard (currentStep w) (isSubmitting w) (submitSuccess w) (error w) (formData w)
    (registering w) (parentRegistered w) (redirects w) v.

Definition set_parentName v (p : ParentProfile) :=
  Build_ParentProfile v (parentEmail p) (childName p) (childAge p) (childInterests p)
    (dailyReportEnabled p) (reportTime p).
Definition set_parentEmail v (p : ParentProfile) :=
  Build_ParentProfile (parentName p) v (childName p) (childAge p) (childInterests p)
    (dailyReportEnabled p) (reportTime p).
Definition set_childName v (p : ParentProfile) :=
  Build_ParentProfile (parentName p) (parentEmail p) v (childAge p) (childInterests p)
    (dailyReportEnabled p) (reportTime p).
Definition set_childAge v (p : ParentProfile) :=
  Build_ParentProfile (parentName p) (parentEmail p) (childName p) v (childInterests p)
    (dailyReportEnabled p) (reportTime p).
Definition set_childInterests v (p : ParentProfile) :=
  Build_ParentProfile (parentName p) (parentEmail p) (childName p) (childAge p) v
    (dailyReportEnabled p) (reportTime p).
Definition set_dailyReportEnabled v (p : ParentProfile) :=
  Build_ParentProfile (parentName p) (parentEmail p) (childName p) (childAge p)
    (childInterests p) v (reportTime p).
Definition set_reportTime v (p : ParentProfile) :=
  Build_ParentProfile (parentName p) (parentEmail p) (childName p) (childAge p)
    (childInterests p) (dailyReportEnabled p) v.

(** [updateField(field, value)]: [f] sets the field. *)
Definition updateField (f : ParentProfile -> ParentProfile) (w : Wizard) : Wizard :=
  set_error None (set_formData (f (formData w)) w).

Definition toggleInterest (interest : string) (w : Wizard) : Wizard :=
  let prev := formData w in
  set_formData
    (set_childInterests
       (if existsb (String.eqb interest) (childInterests prev)
        then List.filter (fun i => negb (String.eqb i interest)) (childInterests prev)
        else childInterests prev ++ [interest])
       prev) w.

(** [validateStep(step)]: what it returns, and the message it gives to
    [setError] if any. *)
Definition validateStep (step : Z) (fd : ParentProfile) : bool * option string :=
  if (step =? 1)%Z then
    if falsy (trim (parentName fd)) then (false, Some "Please enter your name")
    else if falsy (trim (parentEmail fd)) || negb (includes_at (parentEmail fd))
    then (false, Some "Please enter a valid email address")
    else (true, None)
  else if (step =? 2)%Z then
    if falsy (trim (childName fd)) then (false, Some "Please enter your child's name")
    else if (childAge fd <? 2)%Z || (12 <? childAge fd)%Z
    then (false, Some "Age should be between 2 and 12")
    else (true, None)
  else (true, None).

Definition run_validateStep (step : Z) (w : Wizard) : bool * Wizard :=
  match validateStep step (formData w) with
  | (ok, Some msg) => (ok, set_error (Some msg) w)
  | (ok, None) => (ok, w)
  end.

Definition nextStep (w : Wizard) : Wizard :=
  let (ok, w) := run_validateStep (currentStep w) w in
  if ok then set_currentStep (Z.min (currentStep w + 1) 4) w else w.

Definition prevStep (w : Wizard) : Wizard :=
  set_error None (set_currentStep (Z.max (currentStep w - 1) 1) w).

(** [handleSubmit] up to [await api.registerParent(formData)]. *)
Definition handleSubmit (w : Wizard) : Wizard :=
  let (ok, w) := run_validateStep 4 w in
  if negb ok then w
  else
    set_registering (registering w ++ [formData w])
      (set_error None (set_isSubmitting true w)).

(** [handleSubmit] resumed with the answer of the service. *)
Definition handleSubmit_resolved (w : Wizard) : Wizard :=
  set_isSubmitting false
    (set_redirects (S (redirects w))
       (set_parentRegistered true (set_submitSuccess true w))).

(** Its [catch] block; [message] is [err.message] when [err] is an
    [Error]. *)
Definition handleSubmit_rejected (message : option string) (w : Wizard) : Wizard :=
  set_isSubmitting false
    (set_error
       (Some (match message with
              | Some m => m
              | None => "Registration failed. Please try again."
              end)) w).

Inductive Event :=
| EditParentName (v : jsstring)
| EditParentEmail (v : jsstring)
| EditChildName (v : jsstring)
| SelectAge (age : Z)
| ToggleInterest (interest : string)
| ToggleReports
| SelectReportTime (v : string)
| Back
| Continue
| Submit
| Skip
| RegisterResolved (k : nat)
| RegisterRejected (k : nat) (message : option string)
| RedirectFire.

(** The page shows the form while the view is the registration view and
    the registration has not succeeded. *)
Definition form_shown (w : Wizard) : bool :=
  bool_decide (view w = view_register) && negb (submitSuccess w).

Definition mem_Z (x : Z) (l : list Z) : bool := existsb (Z.eqb x) l.
Definition mem_string (x : string) (l : list string) : bool := existsb (String.eqb x) l.

Definition guard (b : bool) (w : Wizard) : option Wizard :=
  if b then Some w else None.

Definition handle (ev : Event) (w : Wizard) : option Wizard :=
  match ev with
  | EditParentName v =>
      guard (form_shown w && (currentStep w =? 1)%Z) (updateField (set_parentName v) w)
  | EditParentEmail v =>
      guard (form_shown w && (currentStep w =? 1)%Z) (updateField (set_parentEmail v) w)
  | EditChildName v =>
      guard (form_shown w && (currentStep w =? 2)%Z) (updateField (set_childName v) w)
  | SelectAge age =>
      guard (form_shown w && (currentStep w =? 2)%Z && mem_Z age AGES)
        (updateField (set_childAge age) w)
  | ToggleInterest interest =>
      guard (form_shown w && (currentStep w =? 3)%Z && mem_string interest INTERESTS)
        (toggleInterest interest w)
  | ToggleReports =>
      guard (form_shown w && (currentStep w =? 4)%Z)
        (updateField
           (set_dailyReportEnabled (negb (dailyReportEnabled (formData w)))) w)
  | SelectReportTime v =>
      guard (form_shown w && (currentStep w =? 4)%Z
             && dailyReportEnabled (formData w) && mem_string v REPORT_TIMES)
        (updateField (set_reportTime v) w)
  | Back => guard (form_shown w && (1 <? currentStep w)%Z) (prevStep w)
  | Continue => guard (form_shown w && (currentStep w <? 4)%Z) (nextStep w)
  | Submit =>
      guard (form_shown w && negb (currentStep w <? 4)%Z && negb (isSubmitting w))
        (handleSubmit w)
  | Skip => guard (form_shown w) (set_view view_chat w)
  | RegisterResolved k =>
      match registering w !! k with
      | Some _ =>
          Some (handleSubmit_resolved (set_registering (delete k (registering w)) w))
      | None => None
      end
  | RegisterRejected k message =>
      match registering w !! k with
      | Some _ =>
          Some (handleSubmit_rejected message
                  (set_registering (delete k (registering w)) w))
      | None => None
      end
  | RedirectFire =>
      match redirects w with
      | S n => Some (set_view view_chat (set_redirects n w))
      | O => None
      end
  end.

Fixpoint run (tr : list Event) (w : Wizard) : option Wizard :=
  match tr with
  | [] => Some w
  | ev :: tr' =>
      match handle ev w with
      | Some w' => run tr' w'
      | None => None
      end
  end.

(** The component as mounted. *)
Definition init : Wizard :=
  {| currentStep := 1; isSubmitting := false; submitSuccess := false;
     error := None;
     formData := {| parentName := []; parentEmail := []; childName := [];
                    childAge := 4; childInterests := [];
                    dailyReportEnabled := true; reportTime := "18:00" |};
     registering := []; parentRegistered := false; redirects := 0;
     view := view_register |}.

Inductive reachable : Wizard -> Prop :=
| reachable_init : reachable init
| reachable_step w ev w' : reachable w -> handle ev w = Some w' -> reachable w'.

(** ** Specification *)

(** A string with a character that [trim] keeps. *)
Definition not_blank (s : jsstring) : Prop :=
  exists c, c ∈ s /\ is_white_space c = false.

Definition parent_valid (fd : ParentProfile) : Prop :=
  not_blank (parentName fd) /\ 64%Z ∈ parentEmail fd.

Definition child_valid (fd : ParentProfile) : Prop :=
  not_blank (childName fd) /\ (2 <= childAge fd <= 12)%Z.

(** The invariant of the wizard. *)
Record WizardInv (w : Wizard) : Prop := {
  winv_step : (1 <= currentStep w <= 4)%Z;
  winv_age : (2 <= childAge (formData w) <= 12)%Z;
  winv_parent : (2 <= currentStep w)%Z -> parent_valid (formData w);
  winv_child : (3 <= currentStep w)%Z -> child_valid (formData w);
  winv_interests : NoDup (childInterests (formData w));
  winv_known : forall i, i ∈ childInterests (formData w) -> i ∈ INTERESTS;
  winv_time : reportTime (formData w) ∈ REPORT_TIMES;
  winv_sent : forall fd, fd ∈ registering w -> parent_valid fd /\ child_valid fd;
  winv_flight : (registering w = [] /\ isSubmitting w = false)
                \/ ((exists fd, registering w = [fd]) /\ isSubmitting w = true
                    /\ submitSuccess w = false)
}.

(** An example: the four steps filled in and submitted. *)
Definition run_filled : list Event :=
  [ EditParentName (code_units "Ann"); EditParentEmail (code_units "ann@example.org");
    Continue; EditChildName (code_units "Bo"); SelectAge 6; Continue;
    ToggleInterest "space"; ToggleInterest "music"; Continue ].

Definition wizard_after (tr : list Event) : Wizard :=
  match run tr init with
  | Some w => w
  | None => init
  end.

End RegisterView.

(** * Verification *)

(** ** The effect of [stopTtsNow] on every call *)

Lemma upd_call_lookup c f s i :
  calls (tts (upd_call c f s)) !! i =
  if decide (c = i) then f <$> calls (tts s) !! i else calls (tts s) !! i.
Proof.
  unfold upd_call. simpl. rewrite list_lookup_alter.
  case_decide; subst; reflexivity.
Qed.

Lemma TtsCall_eta (x : TtsCall) :
  x = Build_TtsCall (c_seq x) (c_text x) (c_cont x) (c_aborted x) (c_stage x)
        (c_audio x) (c_urlLive x).
Proof. destruct x; reflexivity. Qed.

Lemma resolve_promise_refs c s :
  ttsAudioRef (tts (resolve_promise c s)) = ttsAudioRef (tts s) /\
  ttsUrlRef (tts (resolve_promise c s)) = ttsUrlRef (tts s) /\
  ttsAbortRef (tts (resolve_promise c s)) = ttsAbortRef (tts s) /\
  ttsSeqRef (tts (resolve_promise c s)) = ttsSeqRef (tts s) /\
  ttsResolveRef (tts (resolve_promise c s)) = ttsResolveRef (tts s).
Proof.
  unfold resolve_promise.
  destruct (calls (tts s) !! c); [case_decide|]; done.
Qed.

Lemma stopTtsNow_refs s :
  ttsAudioRef (tts (stopTtsNow s)) = None /\
  ttsUrlRef (tts (stopTtsNow s)) = None /\
  ttsAbortRef (tts (stopTtsNow s)) = None /\
  ttsResolveRef (tts (stopTtsNow s)) = None /\
  ttsSeqRef (tts (stopTtsNow s)) = ttsSeqRef (tts s).
Proof.
  unfold stopTtsNow.
  set (s1 := abort_inflight_request s).
  assert (H1 : ttsAbortRef (tts s1) = None /\ ttsSeqRef (tts s1) = ttsSeqRef (tts s)).
  { unfold s1, abort_inflight_request.
    by destruct (ttsAbortRef (tts s)) eqn:E. }
  set (s2 := stop_current_audio s1).
  assert (H2 : ttsAudioRef (tts s2) = None /\ ttsAbortRef (tts s2) = ttsAbortRef (tts s1)
               /\ ttsSeqRef (tts s2) = ttsSeqRef (tts s1)).
  { unfold s2, stop_current_audio. by destruct (ttsAudioRef (tts s1)) eqn:E. }
  set (s3 := release_blob_url s2).
  assert (H3 : ttsUrlRef (tts s3) = None /\ ttsAudioRef (tts s3) = ttsAudioRef (tts s2)
               /\ ttsAbortRef (tts s3) = ttsAbortRef (tts s2)
               /\ ttsSeqRef (tts s3) = ttsSeqRef (tts s2)).
  { unfold s3, release_blob_url. by destruct (ttsUrlRef (tts s2)) eqn:E. }
  assert (H4 : ttsResolveRef (tts (resolve_pending_speak s3)) = None
               /\ ttsUrlRef (tts (resolve_pending_speak s3)) = ttsUrlRef (tts s3)
               /\ ttsAudioRef (tts (resolve_pending_speak s3)) = ttsAudioRef (tts s3)
               /\ ttsAbortRef (tts (resolve_pending_speak s3)) = ttsAbortRef (tts s3)
               /\ ttsSeqRef (tts (resolve_pending_speak s3)) = ttsSeqRef (tts s3)).
  { unfold resolve_pending_speak. destruct (ttsResolveRef (tts s3)) as [c|] eqn:E; [|done].
    destruct (resolve_promise_refs c s3) as (?&?&?&?&?). done. }
  destruct H1 as [? ?], H2 as (?&?&?), H3 as (?&?&?&?), H4 as (?&?&?&?&?).
  repeat split; congruence.
Qed.

Lemma abort_inflight_request_lookup s i :
  calls (tts (abort_inflight_request s)) !! i =
  (if decide (ttsAbortRef (tts s) = Some i) then set_c_aborted true else id)
    <$> calls (tts s) !! i.
Proof.
  unfold abort_inflight_request. destruct (ttsAbortRef (tts s)) as [c|].
  - cbn [with_tts tts set_ttsAbortRef calls]. rewrite upd_call_lookup.
    destruct (decide (c = i)) as [->|Hne].
    + by rewrite decide_True.
    + rewrite decide_False by congruence. by destruct (_ !! i).
  - rewrite decide_False by done. by destruct (_ !! i).
Qed.

Lemma abort_inflight_request_refs s :
  ttsAudioRef (tts (abort_inflight_request s)) = ttsAudioRef (tts s) /\
  ttsUrlRef (tts (abort_inflight_request s)) = ttsUrlRef (tts s) /\
  ttsResolveRef (tts (abort_inflight_request s)) = ttsResolveRef (tts s).
Proof. unfold abort_inflight_request. by destruct (ttsAbortRef (tts s)). Qed.

Lemma stop_current_audio_lookup s i :
  calls (tts (stop_current_audio s)) !! i =
  (if decide (ttsAudioRef (tts s) = Some i)
   then (fun x => set_c_audio (silence_audio <$> c_audio x) x) else id)
    <$> calls (tts s) !! i.
Proof.
  unfold stop_current_audio. destruct (ttsAudioRef (tts s)) as [c|].
  - cbn [with_tts tts set_ttsAudioRef calls]. rewrite upd_call_lookup.
    destruct (decide (c = i)) as [->|Hne].
    + by rewrite decide_True.
    + rewrite decide_False by congruence. by destruct (_ !! i).
  - rewrite decide_False by done. by destruct (_ !! i).
Qed.

Lemma stop_current_audio_refs s :
  ttsUrlRef (tts (stop_current_audio s)) = ttsUrlRef (tts s) /\
  ttsResolveRef (tts (stop_current_audio s)) = ttsResolveRef (tts s).
Proof. unfold stop_current_audio. by destruct (ttsAudioRef (tts s)). Qed.

Lemma release_blob_url_lookup s i :
  calls (tts (release_blob_url s)) !! i =
  (if decide (ttsUrlRef (tts s) = Some i) then set_c_urlLive false else id)
    <$> calls (tts s) !! i.
Proof.
  unfold release_blob_url. destruct (ttsUrlRef (tts s)) as [c|].
  - cbn [with_tts tts set_ttsUrlRef calls]. rewrite upd_call_lookup.
    destruct (decide (c = i)) as [->|Hne].
    + by rewrite decide_True.
    + rewrite decide_False by congruence. by destruct (_ !! i).
  - rewrite decide_False by done. by destruct (_ !! i).
Qed.

Lemma release_blob_url_refs s :
  ttsResolveRef (tts (release_blob_url s)) = ttsResolveRef (tts s).
Proof. unfold release_blob_url. by destruct (ttsUrlRef (tts s)). Qed.

Lemma resolve_promise_lookup c s i :
  calls (tts (resolve_promise c s)) !! i =
  (if decide (c = i) then settle else id) <$> calls (tts s) !! i.
Proof.
  unfold resolve_promise, settle.
  destruct (calls (tts s) !! c) as [x|] eqn:Hc.
  - destruct (decide (c_stage x = playing)) as [Hp|Hp].
    + cbn [queueMicrotask with_env tts]. rewrite upd_call_lookup.
      destruct (decide (c = i)) as [->|]; [|by destruct (_ !! i)].
      rewrite Hc. cbn. by rewrite decide_True.
    + destruct (decide (c = i)) as [->|]; [|by destruct (_ !! i)].
      rewrite Hc. cbn. by rewrite decide_False.
  - destruct (decide (c = i)) as [->|]; [|by destruct (_ !! i)].
    by rewrite Hc.
Qed.

Lemma resolve_pending_speak_lookup s i :
  calls (tts (resolve_pending_speak s)) !! i =
  (if decide (ttsResolveRef (tts s) = Some i) then settle else id)
    <$> calls (tts s) !! i.
Proof.
  unfold resolve_pending_speak. destruct (ttsResolveRef (tts s)) as [c|].
  - cbn [with_tts tts set_ttsResolveRef calls]. rewrite resolve_promise_lookup.
    destruct (decide (c = i)) as [->|Hne].
    + by rewrite decide_True.
    + by rewrite decide_False by congruence.
  - rewrite decide_False by done. by destruct (_ !! i).
Qed.

Lemma stopTtsNow_lookup s c :
  calls (tts (stopTtsNow s)) !! c = retire (tts s) c <$> calls (tts s) !! c.
Proof.
  unfold stopTtsNow.
  rewrite resolve_pending_speak_lookup, release_blob_url_lookup,
    stop_current_audio_lookup, abort_inflight_request_lookup.
  rewrite release_blob_url_refs.
  destruct (stop_current_audio_refs (abort_inflight_request s)) as [-> ->].
  destruct (abort_inflight_request_refs s) as (-> & -> & ->).
  destruct (calls (tts s) !! c) as [x|]; [|done].
  cbn [fmap option_fmap option_map]. f_equal. unfold retire, settle.
  destruct x as [sq tx k ab st au ul].
  destruct (decide (ttsAbortRef (tts s) = Some c));
  destruct (decide (ttsAudioRef (tts s) = Some c));
  destruct (decide (ttsUrlRef (tts s) = Some c));
  destruct (decide (ttsResolveRef (tts s) = Some c)); cbn;
  try destruct (decide (st = playing)); reflexivity.
Qed.

Lemma stopTtsNow_length s :
  length (calls (tts (stopTtsNow s))) = length (calls (tts s)).
Proof.
  destruct (Nat.lt_trichotomy (length (calls (tts (stopTtsNow s))))
              (length (calls (tts s)))) as [Hlt|[Heq|Hlt]]; [|done|].
  - apply lookup_lt_is_Some_2 in Hlt. destruct Hlt as [x Hx].
    pose proof (stopTtsNow_lookup s (length (calls (tts (stopTtsNow s))))) as H.
    rewrite Hx in H. by rewrite lookup_ge_None_2 in H by lia.
  - apply lookup_lt_is_Some_2 in Hlt. rewrite stopTtsNow_lookup in Hlt.
    rewrite lookup_ge_None_2 in Hlt by lia. by destruct Hlt.
Qed.

(** ** Functions that leave the player alone *)

Lemma player_frame_compose f g :
  player_frame f -> player_frame g -> player_frame (fun s => g (f s)).
Proof.
  intros Hf Hg s. destruct (Hf s) as [<- <-]. apply Hg.
Qed.

Ltac break_match :=
  match goal with
  | |- context [match ?x with _ => _ end] => destruct x eqn:?
  end.

Ltac frame_tac :=
  intros; repeat (cbn; try break_match); try (split; reflexivity); try reflexivity.

Lemma stopRecording_frame : player_frame stopRecording.
Proof. intros s. unfold stopRecording, recorder_is_recording. frame_tac. Qed.

Lemma processAudio_frame blob : player_frame (processAudio blob).
Proof. intros s. unfold processAudio. frame_tac. Qed.

Lemma monitorAudio_frame data : player_frame (monitorAudio data).
Proof.
  intros s. unfold monitorAudio.
  destruct (analyserRef (refs s)); [|done].
  destruct (isRecordingRef (refs s)); cbn [negb]; [|done].
  destruct (isSpeaking _); [done|].
  cbn. destruct (speechDetectedRef (refs s)); [|done].
  destruct (truthy_time _); [|done].
  destruct (_ <? _)%Z; [|done].
  by destruct (stopRecording_frame (setAudioLevel (getAudioLevel data) s)) as [-> ->].
Qed.

Lemma startRecording_frame : player_frame startRecording.
Proof. done. Qed.

Lemma startRecording_granted_frame : player_frame startRecording_granted.
Proof. done. Qed.

Lemma ondataavailable_frame size : player_frame (ondataavailable size).
Proof. intros s. unfold ondataavailable. by destruct (0 <? size)%Z. Qed.

Lemma onstop_frame : player_frame onstop.
Proof.
  intros s. unfold onstop.
  match goal with |- context [processAudio ?b ?s'] =>
    destruct (processAudio_frame b s') as [-> ->] end.
  destruct (streamRef (refs s)); cbn; destruct (audioContextRef (refs s)); done.
Qed.

Lemma run_timer_frame a : player_frame (run_timer a).
Proof.
  intros s. destruct a; cbn.
  - by destruct (shouldContinueRef (refs s)).
  - done.
  - destruct (isRecordingRef (refs s)); [apply stopRecording_frame|done].
Qed.

Lemma run_cont_frame k : player_frame (run_cont k).
Proof.
  intros s. destruct k; cbn; try destruct (shouldContinueRef (refs s)); done.
Qed.

Lemma cancel_monitor_frame : player_frame cancel_monitor.
Proof. intros s. unfold cancel_monitor. by destruct (truthy_nat _). Qed.

Lemma stop_recorder_if_recording_frame : player_frame stop_recorder_if_recording.
Proof.
  intros s. unfold stop_recorder_if_recording.
  destruct (mediaRecorderRef _); [|done]. by destruct (recorder_is_recording _ _).
Qed.

Lemma release_stream_frame : player_frame release_stream.
Proof. intros s. unfold release_stream. by destruct (streamRef _). Qed.

Lemma unmount_frame : player_frame unmount.
Proof.
  intros s. unfold unmount. cbn.
  destruct (truthy_nat _); cbn; destruct (streamRef _); cbn;
    destruct (audioContextRef _); done.
Qed.

Lemma update_language_frame l : player_frame (update_language l).
Proof. intros s. destruct l as [l|]; [|done]. cbn. by destruct (is_empty l). Qed.

Lemma handleTextSubmit_frame msg : player_frame (handleTextSubmit msg).
Proof. intros s. unfold handleTextSubmit. by destruct (_ || _). Qed.

(** ** The invariant of the player is kept *)

Section Player.
Variable ttsEnabled : bool.
Variable floor : nat.
Local Abbreviation player_inv := (PlayerInv ttsEnabled floor).
Local Abbreviation inv_abort_last := (@pinv_abort_last ttsEnabled floor).
Local Abbreviation inv_audible := (@pinv_audible ttsEnabled floor).
Local Abbreviation inv_disabled := (@pinv_disabled ttsEnabled floor).
Local Abbreviation inv_fetching := (@pinv_fetching ttsEnabled floor).
Local Abbreviation inv_fetching_audio := (@pinv_fetching_audio ttsEnabled floor).
Local Abbreviation inv_floor := (@pinv_floor ttsEnabled floor).
Local Abbreviation inv_micro := (@pinv_micro ttsEnabled floor).
Local Abbreviation inv_refs_audio := (@pinv_refs_audio ttsEnabled floor).
Local Abbreviation inv_refs_url := (@pinv_refs_url ttsEnabled floor).
Local Abbreviation inv_resolve_last := (@pinv_resolve_last ttsEnabled floor).
Local Abbreviation inv_seq := (@pinv_seq ttsEnabled floor).
Local Abbreviation inv_seq_ref := (@pinv_seq_ref ttsEnabled floor).
Local Abbreviation inv_stage_playing := (@pinv_stage_playing ttsEnabled floor).
Local Abbreviation inv_url := (@pinv_url ttsEnabled floor).

Lemma player_inv_frame f s :
  player_frame f -> player_inv s -> player_inv (f s).
Proof.
  intros Hf [].  destruct (Hf s) as [Ht Hm].
  constructor; rewrite ?Ht, ?Hm; assumption.
Qed.

Lemma resolve_promise_micro c s :
  microtasks (env (resolve_promise c s)) =
  microtasks (env s) ++
    match calls (tts s) !! c with
    | Some x => if decide (c_stage x = playing) then [resume_call c] else []
    | None => []
    end.
Proof.
  unfold resolve_promise. destruct (calls (tts s) !! c) as [x|].
  - destruct (decide (c_stage x = playing)); cbn; [done|by rewrite app_nil_r].
  - by rewrite app_nil_r.
Qed.

Lemma stopTtsNow_micro s :
  microtasks (env (stopTtsNow s)) =
  microtasks (env s) ++
    match ttsResolveRef (tts s) with
    | Some c =>
        match calls (tts s) !! c with
        | Some x => if decide (c_stage x = playing) then [resume_call c] else []
        | None => []
        end
    | None => []
    end.
Proof.
  unfold stopTtsNow.
  set (s3 := release_blob_url (stop_current_audio (abort_inflight_request s))).
  assert (Hr : ttsResolveRef (tts s3) = ttsResolveRef (tts s)).
  { unfold s3. rewrite release_blob_url_refs.
    destruct (stop_current_audio_refs (abort_inflight_request s)) as [_ ->].
    by destruct (abort_inflight_request_refs s) as (_ & _ & ->). }
  assert (Hm : microtasks (env s3) = microtasks (env s)).
  { unfold s3, release_blob_url, stop_current_audio, abort_inflight_request.
    repeat (cbn; try break_match); reflexivity. }
  assert (Hst : forall c, c_stage <$> calls (tts s3) !! c = c_stage <$> calls (tts s) !! c).
  { intros c. unfold s3.
    rewrite release_blob_url_lookup, stop_current_audio_lookup,
      abort_inflight_request_lookup.
    destruct (calls (tts s) !! c) as [x|]; [|done]. cbn.
    repeat case_decide; reflexivity. }
  unfold resolve_pending_speak. rewrite Hr.
  destruct (ttsResolveRef (tts s)) as [c|]; [|by rewrite Hm, app_nil_r].
  cbn [with_tts env]. rewrite resolve_promise_micro, Hm. f_equal.
  specialize (Hst c).
  destruct (calls (tts s3) !! c) as [x3|], (calls (tts s) !! c) as [x|];
    cbn in Hst; simplify_eq; try done.
  by rewrite Hst.
Qed.

Lemma retire_stage_not_playing t c x :
  (c_stage x = playing -> ttsResolveRef t = Some c) ->
  c_stage (retire t c x) <> playing.
Proof.
  intros H. unfold retire. cbn.
  destruct (decide (ttsResolveRef t = Some c)).
  - destruct (decide (c_stage x = playing)); [done|done].
  - intros Hp. apply n, H, Hp.
Qed.

Lemma retire_stage_fetching t c x :
  c_stage (retire t c x) = fetching -> c_stage x = fetching.
Proof.
  unfold retire. cbn. repeat case_decide; congruence.
Qed.

Lemma stopTtsNow_inv s : player_inv s -> player_inv (stopTtsNow s).
Proof.
  intros I.
  destruct (stopTtsNow_refs s) as (Ha & Hu & Hb & Hr & Hs).
  assert (Hlook : forall c x', calls (tts (stopTtsNow s)) !! c = Some x' ->
            exists x, calls (tts s) !! c = Some x /\ x' = retire (tts s) c x).
  { intros c x'. rewrite stopTtsNow_lookup.
    destruct (calls (tts s) !! c) as [x|]; [|done].
    intros [= <-]. eauto. }
  constructor; rewrite ?Ha, ?Hu, ?Hb, ?Hr, ?Hs, ?stopTtsNow_length; try done.
  - intros c x' (x & Hx & ->)%Hlook. cbn. by eapply inv_seq.
  - by apply inv_seq_ref.
  - intros c x' (x & Hx & ->)%Hlook. split; [|done].
    intros Hp. exfalso. revert Hp. apply retire_stage_not_playing.
    by apply (inv_stage_playing s I c x).
  - intros c x' a (x & Hx & ->)%Hlook. cbn. intros Hau Hpl. exfalso.
    destruct (decide (ttsAudioRef (tts s) = Some c)) as [Heq|Hne].
    + destruct (c_audio x) as [a0|]; cbn in Hau; [|done].
      injection Hau as <-. done.
    + apply Hne. rewrite (inv_refs_audio s I).
      apply (inv_stage_playing s I c x Hx). by eapply inv_audible.
  - intros c x' (x & Hx & ->)%Hlook. cbn. intros Hul. exfalso.
    destruct (decide (ttsUrlRef (tts s) = Some c)) as [Heq|Hne]; [done|].
    apply Hne. rewrite (inv_refs_url s I).
    apply (inv_stage_playing s I c x Hx). by eapply inv_url.
  - intros c x' (x & Hx & ->)%Hlook Hf%retire_stage_fetching. cbn. intros Hab.
    exfalso. destruct (decide (ttsAbortRef (tts s) = Some c)) as [Heq|Hne]; [done|].
    apply Hne. by eapply inv_fetching.
  - intros c x' (x & Hx & ->)%Hlook Hf%retire_stage_fetching. cbn.
    rewrite (inv_fetching_audio s I c x Hx Hf). by case_decide.
  - intros c. rewrite stopTtsNow_micro, elem_of_app. intros [Hin|Hin].
    + destruct (inv_micro s I c Hin) as (x & Hx & Hp & Hf).
      exists (retire (tts s) c x). rewrite stopTtsNow_lookup, Hx. split; [done|].
      split.
      * apply retire_stage_not_playing. done.
      * intros ?%retire_stage_fetching. done.
    + destruct (ttsResolveRef (tts s)) as [c'|] eqn:Hres; [|by apply elem_of_nil in Hin].
      destruct (calls (tts s) !! c') as [x|] eqn:Hx; [|by apply elem_of_nil in Hin].
      destruct (decide (c_stage x = playing)) as [Hp|]; [|by apply elem_of_nil in Hin].
      apply list_elem_of_singleton in Hin. injection Hin as ->.
      exists (retire (tts s) c' x). rewrite stopTtsNow_lookup, Hx. split; [done|].
      unfold retire. cbn. rewrite Hres, Hp.
      rewrite !decide_True by done. done.
  - intros Hd. apply nil_length_inv. rewrite stopTtsNow_length.
    by rewrite (inv_disabled s I Hd).
  - by apply inv_floor.
Qed.

Lemma lookup_snoc_inv {A} (l : list A) (y : A) i x :
  (l ++ [y]) !! i = Some x ->
  (i < length l /\ l !! i = Some x) \/ (i = length l /\ x = y).
Proof.
  intros H. apply lookup_snoc_Some in H. destruct H as [[? ?]|[? ?]]; eauto.
Qed.

Lemma lookup_alter_Some {A} (f : A -> A) c (l : list A) i x :
  l !! i = Some x ->
  alter f c l !! i = Some (if decide (c = i) then f x else x).
Proof.
  intros Hx. destruct (decide (c = i)) as [->|Hne].
  - by rewrite list_lookup_alter_eq, Hx.
  - by rewrite list_lookup_alter_ne.
Qed.

Lemma lookup_alter_inv {A} (f : A -> A) c (l : list A) i y :
  alter f c l !! i = Some y ->
  exists x, l !! i = Some x /\ y = if decide (c = i) then f x else x.
Proof.
  intros Hy. destruct (l !! i) as [x|] eqn:Hx.
  - rewrite (lookup_alter_Some f c l i x Hx) in Hy. injection Hy as <-. eauto.
  - apply lookup_ge_None in Hx.
    rewrite lookup_ge_None_2 in Hy; [done|]. by rewrite length_alter.
Qed.

Lemma speakResponse_inv text k s :
  player_inv s -> player_inv (speakResponse ttsEnabled text k s).
Proof.
  intros I. unfold speakResponse. destruct (negb ttsEnabled) eqn:Hen.
  2:{ pose proof (stopTtsNow_inv s I) as I1.
    destruct (stopTtsNow_refs s) as (Ha & Hu & Hb & Hr & Hs).
    set (s1 := stopTtsNow s) in *.
    constructor; cbn; rewrite ?Ha, ?Hu, ?Hr; try done.
    + intros c x [[Hlt Hx]|[-> ->]]%lookup_snoc_inv; [by eapply inv_seq|].
      cbn. rewrite (inv_seq_ref s1 I1). lia.
    + rewrite length_app, (inv_seq_ref s1 I1). cbn. lia.
    + intros c [= <-]. rewrite length_app. cbn. lia.
    + intros c x [[Hlt Hx]|[-> ->]]%lookup_snoc_inv; [|done].
      rewrite <- Hr. by apply (inv_stage_playing s1 I1).
    + intros c x a [[Hlt Hx]|[-> ->]]%lookup_snoc_inv; [by eapply inv_audible|done].
    + intros c x [[Hlt Hx]|[-> ->]]%lookup_snoc_inv; [by eapply inv_url|done].
    + intros c x [[Hlt Hx]|[-> ->]]%lookup_snoc_inv; [|done].
      intros Hf Hab. pose proof (inv_fetching s1 I1 c x Hx Hf Hab) as H.
      rewrite Hb in H. done.
    + intros c x [[Hlt Hx]|[-> ->]]%lookup_snoc_inv; [by eapply inv_fetching_audio|done].
    + intros c Hin. destruct (inv_micro s1 I1 c Hin) as (x & Hx & ? & ?).
      exists x. split; [|done]. by apply lookup_app_l_Some.
    + intros Hd. rewrite Hd in Hen. done.
    + rewrite length_app. pose proof (inv_floor s1 I1). lia. }
  destruct I. constructor; try done.
    intros c. cbn. rewrite elem_of_app, list_elem_of_singleton.
    intros [Hin|[=]]. by apply pinv_micro0.
Qed.

(** The calls of the player after [speakResponse], text-to-speech being
    enabled. *)
Lemma speakResponse_calls text k s :
  ttsEnabled = true ->
  calls (tts (speakResponse ttsEnabled text k s)) =
  calls (tts (stopTtsNow s)) ++ [new_call (ttsSeqRef (tts s) + 1) text k].
Proof.
  intros ->. unfold speakResponse. cbn.
  by destruct (stopTtsNow_refs s) as (_ & _ & _ & _ & ->).
Qed.

Lemma upd_call_length c f s :
  length (calls (tts (upd_call c f s))) = length (calls (tts s)).
Proof. unfold upd_call. cbn. apply length_alter. Qed.

Lemma resolve_promise_length c s :
  length (calls (tts (resolve_promise c s))) = length (calls (tts s)).
Proof.
  unfold resolve_promise. destruct (_ !! c); [|done].
  case_decide; [|done]. cbn. apply length_alter.
Qed.

(** [cleanupAndResolve] of a call that is not the current one does
    nothing; of the current one, it clears the refs, revokes the URL and
    resolves the promise. *)
Lemma cleanupAndResolve_other c s :
  player_inv s -> ttsResolveRef (tts s) <> Some c ->
  cleanupAndResolve c s = s.
Proof.
  intros I Hne. unfold cleanupAndResolve. cbv zeta.
  destruct (decide (ttsResolveRef (tts s) = Some c)) as [|_]; [done|].
  rewrite (inv_refs_audio s I).
  destruct (decide (ttsResolveRef (tts s) = Some c)) as [|_]; [done|].
  rewrite (inv_refs_url s I).
  destruct (decide (ttsResolveRef (tts s) = Some c)) as [|_]; [done|].
  unfold resolve_promise. destruct (calls (tts s) !! c) as [x|] eqn:Hx; [|done].
  rewrite decide_False; [done|].
  intros Hp. by apply Hne, (inv_stage_playing s I c x).
Qed.

Lemma cleanupAndResolve_current c s :
  player_inv s -> ttsResolveRef (tts s) = Some c ->
  cleanupAndResolve c s =
  s |> with_tts (set_ttsResolveRef None)
    |> with_tts (set_ttsAudioRef None)
    |> upd_call c (set_c_urlLive false)
    |> with_tts (set_ttsUrlRef None)
    |> upd_call c (set_c_stage resolved)
    |> queueMicrotask (resume_call c).
Proof.
  intros I Hr. unfold cleanupAndResolve. cbv zeta.
  destruct (decide (ttsResolveRef (tts s) = Some c)) as [_|]; [|done].
  cbn [with_tts tts ttsAudioRef set_ttsResolveRef].
  rewrite (inv_refs_audio s I).
  destruct (decide (ttsResolveRef (tts s) = Some c)) as [_|]; [|done].
  cbn [with_tts tts ttsUrlRef set_ttsAudioRef set_ttsResolveRef].
  rewrite (inv_refs_url s I).
  destruct (decide (ttsResolveRef (tts s) = Some c)) as [_|]; [|done].
  unfold resolve_promise.
  pose proof (inv_resolve_last s I c Hr) as Hlen.
  destruct (calls (tts s) !! c) as [x|] eqn:Hx.
  2:{ apply lookup_ge_None in Hx. lia. }
  cbn. rewrite list_lookup_alter_eq, Hx. cbn.
  rewrite decide_True; [done|]. by apply (inv_stage_playing s I c x).
Qed.

Lemma cleanupAndResolve_inv c s :
  player_inv s ->
  (forall x a, calls (tts s) !! c = Some x -> c_audio x = Some a -> a_playing a = false) ->
  player_inv (cleanupAndResolve c s).
Proof.
  intros I Hquiet.
  destruct (decide (ttsResolveRef (tts s) = Some c)) as [Hr|Hne].
  2:{ by rewrite cleanupAndResolve_other. }
  rewrite cleanupAndResolve_current by done.
  pose proof (inv_resolve_last s I c Hr) as Hlen.
  assert (Hlook : forall i y, alter (set_c_stage resolved) c
            (alter (set_c_urlLive false) c (calls (tts s))) !! i = Some y ->
            exists x, calls (tts s) !! i = Some x /\
              y = if decide (c = i) then set_c_stage resolved (set_c_urlLive false x) else x).
  { intros i y (x1 & (x & Hx & ->)%lookup_alter_inv & ->)%lookup_alter_inv.
    exists x. split; [done|]. by case_decide. }
  constructor; cbn; rewrite ?length_alter; try done.
  - intros i y (x & Hx & ->)%Hlook. case_decide; cbn; by eapply inv_seq.
  - by apply inv_seq_ref.
  - intros i Hab. by apply inv_abort_last.
  - intros i y (x & Hx & ->)%Hlook. split; [|done]. intros Hp. exfalso.
    case_decide; [done|]. cbn in Hp.
    apply (inv_stage_playing s I i x Hx) in Hp. congruence.
  - intros i y a (x & Hx & ->)%Hlook. case_decide; cbn.
    + subst. intros Hau Hpl. rewrite (Hquiet x a Hx Hau) in Hpl. done.
    + intros Hau Hpl. pose proof (inv_audible s I i x a Hx Hau Hpl) as Hp.
      apply (inv_stage_playing s I i x Hx) in Hp. congruence.
  - intros i y (x & Hx & ->)%Hlook. case_decide; cbn; [done|].
    intros Hul. pose proof (inv_url s I i x Hx Hul) as Hp.
    apply (inv_stage_playing s I i x Hx) in Hp. congruence.
  - intros i y (x & Hx & ->)%Hlook. case_decide; cbn; [done|]. by eapply inv_fetching.
  - intros i y (x & Hx & ->)%Hlook. case_decide; cbn; [done|]. by eapply inv_fetching_audio.
  - intros i. rewrite elem_of_app, list_elem_of_singleton. intros [Hin|[= ->]].
    + destruct (inv_micro s I i Hin) as (x & Hx & ? & ?).
      erewrite lookup_alter_Some; [|by apply lookup_alter_Some].
      eexists. split; [done|]. repeat case_decide; cbn; done.
    + destruct (lookup_lt_is_Some_2 (calls (tts s)) c) as [x Hx]; [lia|].
      erewrite lookup_alter_Some; [|by apply lookup_alter_Some].
      eexists. split; [done|]. rewrite !decide_True by done. cbn. done.
  - intros Hd. rewrite (inv_disabled s I Hd) in Hlen. done.
  - by apply inv_floor.
Qed.

Lemma finally_call_refs c s :
  ttsAudioRef (tts (finally_call c s)) = ttsAudioRef (tts s) /\
  ttsUrlRef (tts (finally_call c s)) = ttsUrlRef (tts s) /\
  ttsResolveRef (tts (finally_call c s)) = ttsResolveRef (tts s) /\
  ttsSeqRef (tts (finally_call c s)) = ttsSeqRef (tts s) /\
  calls (tts (finally_call c s)) = calls (tts s) /\
  env (finally_call c s) = env s /\
  (forall i, ttsAbortRef (tts (finally_call c s)) = Some i ->
             i <> c /\ ttsAbortRef (tts s) = Some i).
Proof.
  unfold finally_call. case_decide; cbn; repeat split; try done; congruence.
Qed.

Lemma return_call_tts c s :
  tts (return_call c s) =
  tts (upd_call c (set_c_stage returned) (finally_call c s)) /\
  microtasks (env (return_call c s)) = microtasks (env s).
Proof.
  unfold return_call.
  destruct (finally_call_refs c s) as (_ & _ & _ & _ & _ & He & _).
  destruct (calls _ !! c) as [x|].
  - destruct (run_cont_frame (c_cont x)
      (upd_call c (set_c_stage returned) (finally_call c s))) as [-> ->].
    cbn. by rewrite He.
  - cbn. by rewrite He.
Qed.

Lemma return_call_inv c s :
  player_inv s ->
  (forall x, calls (tts s) !! c = Some x -> c_stage x <> playing) ->
  player_inv (return_call c s).
Proof.
  intros I Hnp.
  destruct (return_call_tts c s) as [Ht Hm].
  destruct (finally_call_refs c s) as (Ha & Hu & Hr & Hs & Hc & He & Hb).
  assert (Hlook : forall i y, alter (set_c_stage returned) c (calls (tts s)) !! i = Some y ->
            exists x, calls (tts s) !! i = Some x /\
              y = if decide (c = i) then set_c_stage returned x else x).
  { intros i y. apply lookup_alter_inv. }
  constructor; rewrite ?Ht, ?Hm; cbn; rewrite ?Ha, ?Hu, ?Hr, ?Hs, ?Hc, ?length_alter.
  - intros i y (x & Hx & ->)%Hlook. case_decide; cbn; by eapply inv_seq.
  - by apply inv_seq_ref.
  - by apply inv_refs_audio.
  - by apply inv_refs_url.
  - by apply inv_resolve_last.
  - intros i [_ Hab]%Hb. by apply inv_abort_last.
  - intros i y (x & Hx & ->)%Hlook. case_decide; cbn.
    + subst. split; [done|]. intros Hres. exfalso.
      apply (Hnp x Hx). by apply (inv_stage_playing s I i x).
    + by apply inv_stage_playing.
  - intros i y a (x & Hx & ->)%Hlook. case_decide; cbn.
    + subst. intros Hau Hpl. exfalso. apply (Hnp x Hx). by eapply inv_audible.
    + by eapply inv_audible.
  - intros i y (x & Hx & ->)%Hlook. case_decide; cbn.
    + subst. intros Hul. exfalso. apply (Hnp x Hx). by eapply inv_url.
    + by eapply inv_url.
  - intros i y (x & Hx & ->)%Hlook. case_decide; cbn; [done|].
    intros Hf Hab. pose proof (inv_fetching s I i x Hx Hf Hab) as Hfe.
    unfold finally_call. case_decide; cbn; [congruence|done].
  - intros i y (x & Hx & ->)%Hlook. case_decide; cbn; [done|]. by eapply inv_fetching_audio.
  - intros i Hin. destruct (inv_micro s I i Hin) as (x & Hx & ? & ?).
    erewrite lookup_alter_Some by done.
    eexists. split; [done|]. case_decide; cbn; done.
  - intros Hd. by rewrite (inv_disabled s I Hd).
  - by apply inv_floor.
Qed.

Lemma speakResponse_fetched_inv c res s x :
  player_inv s -> calls (tts s) !! c = Some x -> c_stage x = fetching ->
  player_inv (speakResponse_fetched c res s).
Proof.
  intros I Hx Hf. unfold speakResponse_fetched. rewrite Hx.
  assert (Hret : player_inv (return_call c s)).
  { apply return_call_inv; [done|]. intros x' Hx'. congruence. }
  destruct res; [|done|done].
  destruct (decide (c_seq x <> ttsSeqRef (tts s))) as [|Heq%dec_stable]; [done|].
  assert (Hlen : S c = length (calls (tts s))).
  { rewrite (inv_seq s I c x Hx), (inv_seq_ref s I) in Heq. lia. }
  assert (Hnone : ttsResolveRef (tts s) = None).
  { destruct (ttsResolveRef (tts s)) as [c'|] eqn:Hr; [|done].
    pose proof (inv_resolve_last s I c' Hr). assert (c' = c) as -> by lia.
    apply (inv_stage_playing s I c x Hx) in Hr. congruence. }
  set (f := fun y => set_c_audio (Some started_audio)
                       (set_c_stage playing (set_c_urlLive true y))).
  assert (Hlook : forall i y,
            alter (set_c_audio (Some started_audio)) c
              (alter (set_c_stage playing) c
                 (alter (set_c_urlLive true) c (calls (tts s)))) !! i = Some y ->
            exists x0, calls (tts s) !! i = Some x0 /\
              y = if decide (c = i) then f x0 else x0).
  { intros i y (x2 & (x1 & (x0 & Hx0 & ->)%lookup_alter_inv & ->)%lookup_alter_inv
                & ->)%lookup_alter_inv.
    exists x0. split; [done|]. by case_decide. }
  subst f. cbv beta in Hlook.
  constructor; cbn; rewrite ?length_alter; try done.
  - intros i y (x0 & Hx0 & ->)%Hlook. case_decide; cbn; by eapply (inv_seq s I).
  - by apply (inv_seq_ref s I).
  - intros i [= <-]. done.
  - by apply (inv_abort_last s I).
  - intros i y (x0 & Hx0 & ->)%Hlook. case_decide; cbn.
    + subst. done.
    + split.
      * intros Hp. apply (inv_stage_playing s I i x0 Hx0) in Hp. congruence.
      * intros [= ->]. done.
  - intros i y a (x0 & Hx0 & ->)%Hlook. case_decide; cbn; [done|].
    by eapply (inv_audible s I).
  - intros i y (x0 & Hx0 & ->)%Hlook. case_decide; cbn; [done|]. by eapply (inv_url s I).
  - intros i y (x0 & Hx0 & ->)%Hlook. case_decide; cbn; [done|]. by eapply (inv_fetching s I).
  - intros i y (x0 & Hx0 & ->)%Hlook. case_decide; cbn; [done|].
    by eapply (inv_fetching_audio s I).
  - intros i Hin. destruct (inv_micro s I i Hin) as (x0 & Hx0 & ? & ?).
    exists x0. split; [|done].
    assert (c <> i) by congruence.
    by rewrite !list_lookup_alter_ne.
  - intros Hd. rewrite (inv_disabled s I Hd) in Hx. done.
  - by apply (inv_floor s I).
Qed.

Lemma upd_audio_inv c f s :
  player_inv s ->
  (forall a, a_playing (f a) = true -> a_playing a = true) ->
  player_inv (upd_audio c f s).
Proof.
  intros I Hf. unfold upd_audio, upd_call.
  set (g := fun x => set_c_audio (f <$> c_audio x) x).
  assert (Hlook : forall i y, alter g c (calls (tts s)) !! i = Some y ->
            exists x, calls (tts s) !! i = Some x /\
              y = if decide (c = i) then g x else x).
  { intros i y. apply lookup_alter_inv. }
  subst g. cbv beta in Hlook.
  destruct I. constructor; cbn; rewrite ?length_alter; try done.
  - intros i y (x & Hx & ->)%Hlook. case_decide; cbn; eauto.
  - intros i y (x & Hx & ->)%Hlook. case_decide; cbn; eauto.
  - intros i y a (x & Hx & ->)%Hlook. case_decide; cbn; [|eauto].
    destruct (c_audio x) as [a0|] eqn:Ha0; cbn; [|done].
    intros [= <-] Hp. eauto.
  - intros i y (x & Hx & ->)%Hlook. case_decide; cbn; eauto.
  - intros i y (x & Hx & ->)%Hlook. case_decide; cbn; eauto.
  - intros i y (x & Hx & ->)%Hlook. case_decide; cbn; [|eauto].
    intros Hfe. by rewrite (pinv_fetching_audio0 i x Hx Hfe).
  - intros i Hin. destruct (pinv_micro0 i Hin) as (x & Hx & ? & ?).
    erewrite lookup_alter_Some by done. eexists. split; [done|].
    case_decide; cbn; done.
  - intros Hd. by rewrite (pinv_disabled0 Hd).
Qed.

Lemma upd_audio_lookup c f s x :
  calls (tts s) !! c = Some x ->
  calls (tts (upd_audio c f s)) !! c = Some (set_c_audio (f <$> c_audio x) x).
Proof.
  intros Hx. unfold upd_audio, upd_call. cbn. by rewrite list_lookup_alter_eq, Hx.
Qed.

Lemma audio_of_Some c s a :
  audio_of c s = Some a ->
  exists x, calls (tts s) !! c = Some x /\ c_audio x = Some a.
Proof.
  unfold audio_of. destruct (calls (tts s) !! c) as [x|]; [|done]. cbn. eauto.
Qed.

(** After the audio of [c] has been marked as not playing,
    [cleanupAndResolve c] keeps the invariant. *)
Lemma quiet_cleanup_inv c f s :
  player_inv s ->
  (forall a, a_playing (f a) = false) ->
  player_inv (cleanupAndResolve c (upd_audio c f s)).
Proof.
  intros I Hf. apply cleanupAndResolve_inv.
  - apply upd_audio_inv; [done|]. intros a. by rewrite Hf.
  - intros x a. unfold upd_audio, upd_call. cbn.
    intros (x0 & Hx0 & ->)%lookup_alter_inv. rewrite decide_True by done. cbn.
    destruct (c_audio x0); cbn; [|done]. intros [= <-]. apply Hf.
Qed.

Lemma return_call_settled c s c' x :
  calls (tts s) !! c' = Some x -> c_stage x <> playing -> c_stage x <> fetching ->
  exists x', calls (tts (return_call c s)) !! c' = Some x' /\
             c_stage x' <> playing /\ c_stage x' <> fetching.
Proof.
  intros Hx Hp Hf. destruct (return_call_tts c s) as [-> _].
  destruct (finally_call_refs c s) as (_ & _ & _ & _ & Hc & _).
  unfold upd_call. cbn. rewrite Hc.
  erewrite lookup_alter_Some by done. eexists. split; [done|].
  case_decide; cbn; done.
Qed.

Lemma run_micro_fold_inv q s :
  player_inv s ->
  (forall c, resume_call c ∈ q ->
     exists x, calls (tts s) !! c = Some x /\ c_stage x <> playing /\ c_stage x <> fetching) ->
  player_inv (fold_left (fun s m => run_micro m s) q s) /\
  microtasks (env (fold_left (fun s m => run_micro m s) q s)) = microtasks (env s).
Proof.
  revert s. induction q as [|m q IH]; intros s I Hq; [done|].
  cbn [fold_left].
  assert (I' : player_inv (run_micro m s)).
  { destruct m as [c|k]; cbn.
    - destruct (Hq c) as (x & Hx & Hp & _); [by left|].
      apply return_call_inv; [done|]. intros x' Hx'. congruence.
    - by apply player_inv_frame; [apply run_cont_frame|]. }
  assert (Hm : microtasks (env (run_micro m s)) = microtasks (env s)).
  { destruct m as [c|k]; cbn.
    - apply return_call_tts.
    - apply run_cont_frame. }
  destruct (IH (run_micro m s) I') as [I'' Hm'].
  - intros c Hin. destruct (Hq c) as (x & Hx & Hp & Hf); [by right|].
    destruct m as [c0|k]; cbn.
    + by eapply return_call_settled.
    + destruct (run_cont_frame k s) as [-> _]. eauto.
  - split; [done|]. by rewrite Hm'.
Qed.

Lemma run_microtasks_inv s :
  player_inv s ->
  player_inv (run_microtasks s) /\ microtasks (env (run_microtasks s)) = [].
Proof.
  intros I. unfold run_microtasks.
  apply run_micro_fold_inv.
  - destruct I. constructor; try done.
    intros c Hin. cbn in Hin. by apply elem_of_nil in Hin.
  - intros c Hin. by apply (inv_micro s I).
Qed.

Lemma player_inv_with_ui f s : player_inv s -> player_inv (with_ui f s).
Proof. by apply player_inv_frame. Qed.

Lemma player_inv_with_refs f s : player_inv s -> player_inv (with_refs f s).
Proof. by apply player_inv_frame. Qed.

Lemma player_inv_with_env f s :
  (forall e, microtasks (f e) = microtasks e) ->
  player_inv s -> player_inv (with_env f s).
Proof. intros Hf. apply player_inv_frame. intros s'. split; [done|]. apply Hf. Qed.

Ltac inv_step :=
  match goal with
  | H : player_inv ?s |- player_inv ?s => exact H
  | |- player_inv (speakResponse _ _ _ _) => apply speakResponse_inv
  | |- player_inv (stopTtsNow _) => apply stopTtsNow_inv
  | |- player_inv (with_ui _ _) => apply player_inv_with_ui
  | |- player_inv (with_refs _ _) => apply player_inv_with_refs
  | |- player_inv (with_env _ _) => apply player_inv_with_env; [done|]
  | |- player_inv (setJarvisPhase _ _) => apply player_inv_with_ui
  | |- player_inv (setIsListening _ _) => apply player_inv_with_ui
  | |- player_inv (setConversationActive _ _) => apply player_inv_with_ui
  | |- player_inv (setAudioLevel _ _) => apply player_inv_with_ui
  | |- player_inv (setIsLoading _ _) => apply player_inv_with_ui
  | |- player_inv (setCurrentMode _ _) => apply player_inv_with_ui
  | |- player_inv (setCurrentView _ _) => apply player_inv_with_ui
  | |- player_inv (setCurrentLanguage _ _) => apply player_inv_with_ui
  | |- player_inv (addMessage _ _) => apply player_inv_with_ui
  | |- player_inv (clearMessages _) => apply player_inv_with_ui
  | |- player_inv (update_language _ _) =>
      apply player_inv_frame; [apply update_language_frame|]
  | |- player_inv (cancel_monitor _) =>
      apply player_inv_frame; [apply cancel_monitor_frame|]
  | |- player_inv (stop_recorder_if_recording _) =>
      apply player_inv_frame; [apply stop_recorder_if_recording_frame|]
  | |- player_inv (release_stream _) =>
      apply player_inv_frame; [apply release_stream_frame|]
  | |- player_inv (startRecording _) =>
      apply player_inv_frame; [apply startRecording_frame|]
  | |- player_inv (startRecording_granted _) =>
      apply player_inv_frame; [apply startRecording_granted_frame|]
  | |- player_inv (unmount _) =>
      apply player_inv_frame; [apply unmount_frame|]
  | |- player_inv (monitorAudio _ _) =>
      apply player_inv_frame; [apply monitorAudio_frame|]
  | |- player_inv (cancelAnimationFrame _ _) => apply player_inv_with_env; [done|]
  | |- player_inv (upd_session _ _ _) => apply player_inv_with_env; [done|]
  | |- player_inv (onstop _) =>
      apply player_inv_frame; [apply onstop_frame|]
  | |- player_inv (ondataavailable _ _) =>
      apply player_inv_frame; [apply ondataavailable_frame|]
  | |- player_inv (run_timer _ _) =>
      apply player_inv_frame; [apply run_timer_frame|]
  | |- player_inv (handleTextSubmit _ _) =>
      apply player_inv_frame; [apply handleTextSubmit_frame|]
  | |- player_inv (if ?b then _ else _) => destruct b
  | |- player_inv (match ?x with _ => _ end) => destruct x
  end.

Ltac inv_tac := repeat inv_step.

Lemma handleModeSwitch_inv mode greeting s :
  player_inv s -> player_inv (handleModeSwitch ttsEnabled mode greeting s).
Proof. intros I. unfold handleModeSwitch. cbv zeta. inv_tac. Qed.

Lemma stopConversation_inv s : player_inv s -> player_inv (stopConversation s).
Proof. intros I. unfold stopConversation. inv_tac. Qed.

Lemma startConversation_inv robotName s :
  player_inv s -> player_inv (startConversation ttsEnabled robotName s).
Proof. intros I. unfold startConversation. cbv zeta. inv_tac. Qed.

Lemma handle_inv robotName ev s s' :
  player_inv s -> handle ttsEnabled robotName ev s = Some s' -> player_inv s'.
Proof.
  intros I. destruct ev; cbn [handle].
  - destruct (mounted (ui s)); [|done]. intros [= <-]. unfold handleMicClick.
    destruct (conversation_engaged s);
      [by apply stopConversation_inv|by apply startConversation_inv].
  - destruct (mounted (ui s)) eqn:Hm; [|done]. intros [= <-].
    unfold handleNavClick. destruct id; [|inv_tac].
    destruct (_ || _); [|done]. cbv zeta. cbn [mounted ui]. 
    match goal with |- context [if ?b then _ else _] => destruct b end;
      [apply handleModeSwitch_inv|]; inv_tac.
  - destruct (mounted (ui s)); [|done]. intros [= <-]. inv_tac.
  - case_bool_decide; [|done]. intros [= <-]. inv_tac.
  - destruct (timers (env s) !! k) as [[due a]|]; [|done].
    destruct (due <=? _)%Z; [|done]. intros [= <-]. inv_tac.
  - destruct (sessions (env s) !! r) as [x|]; [|done].
    destruct (rec_state x); intros [= <-]; inv_tac.
  - destruct (sessions (env s) !! r) as [x|]; [|done].
    destruct (rec_state x); intros [= <-]; inv_tac.
  - destruct (micPending (env s)); [done|]. intros [= <-]. inv_tac.
  - destruct (micPending (env s)); [done|]. intros [= <-].
    unfold startRecording_denied. inv_tac.
  - destruct (transcribing (env s) !! k); [|done]. intros [= <-].
    unfold processAudio_transcribed, processAudio_catch. cbv zeta. inv_tac.
  - destruct (chatPending (env s) !! k) as [q|]; [|done]. intros [= <-].
    cbv zeta. unfold processAudio_replied, handleTextSubmit_replied, processAudio_catch.
    inv_tac.
  - destruct (calls (tts s) !! c) as [x|] eqn:Hx; [|done].
    case_decide; [|done]. intros [= <-]. by eapply speakResponse_fetched_inv.
  - destruct (audio_of c s) as [a|]; [|done]. destruct (a_playing a); [|done].
    intros [= <-]. destruct (a_onended a).
    + by apply quiet_cleanup_inv.
    + by apply upd_audio_inv.
  - destruct (audio_of c s) as [a|]; [|done]. intros [= <-].
    destruct (a_onerror a).
    + by apply quiet_cleanup_inv.
    + by apply upd_audio_inv.
  - destruct (audio_of c s) as [a|]; [|done]. destruct (_ && _); [|done].
    intros [= <-]. by apply upd_audio_inv.
  - destruct (audio_of c s) as [a|]; [|done]. destruct (a_playPending a); [|done].
    intros [= <-]. by apply quiet_cleanup_inv.
Qed.

Lemma step_inv robotName t ev s s' :
  player_inv s -> step ttsEnabled robotName t ev s = Some s' ->
  player_inv s' /\ microtasks (env s') = [].
Proof.
  intros I. unfold step. destruct (_ <=? _)%Z; [|done].
  destruct (handle _ _ _ _) as [s1|] eqn:Hh; [|done]. cbn. intros [= <-].
  apply run_microtasks_inv. eapply handle_inv; [|done].
  by apply player_inv_with_env.
Qed.



End Player.

Lemma init_inv ttsEnabled t0 language : PlayerInv ttsEnabled 0 (init t0 language).
Proof.
  constructor; cbn; try done.
  intros c Hin. by apply elem_of_nil in Hin.
Qed.

Lemma reachable_inv ttsEnabled robotName s :
  reachable ttsEnabled robotName s ->
  PlayerInv ttsEnabled 0 s /\ microtasks (env s) = [].
Proof.
  induction 1 as [t0 l|s t ev s' _ [I _] Hstep].
  - split; [apply init_inv|done].
  - by eapply step_inv.
Qed.

(** ** Runs *)

Lemma run_steps ttsEnabled robotName tr s s' :
  run ttsEnabled robotName tr s = Some s' -> steps ttsEnabled robotName s s'.
Proof.
  revert s. induction tr as [|[t ev] tr IH]; intros s; cbn.
  - intros [= <-]. constructor.
  - destruct (step _ _ t ev s) as [s1|] eqn:Hs; [|done]. intros Hr.
    specialize (IH s1 Hr). clear Hr.
    induction IH as [|s1 s2 t' ev' s3 _ IH' Hstep].
    + econstructor; [constructor|done].
    + econstructor; [by apply IH'|done].
Qed.

Lemma steps_reachable ttsEnabled robotName s s' :
  reachable ttsEnabled robotName s -> steps ttsEnabled robotName s s' ->
  reachable ttsEnabled robotName s'.
Proof.
  intros Hr. induction 1 as [|s s1 t ev s2 _ IH Hstep]; [done|].
  eapply reachable_step; [by apply IH|exact Hstep].
Qed.

Lemma run_reachable ttsEnabled robotName tr t0 language s :
  run ttsEnabled robotName tr (init t0 language) = Some s ->
  reachable ttsEnabled robotName s.
Proof.
  intros H%run_steps. eapply steps_reachable; [constructor|done].
Qed.

(** ** Consequences of the invariant *)

Section PlayerFacts.
Variable ttsEnabled : bool.
Variable robotName : string.

(** Whatever is audible belongs to the latest call. *)
Lemma audible_latest n s c :
  PlayerInv ttsEnabled n s -> audible c s ->
  S c = length (calls (tts s)) /\ ttsAudioRef (tts s) = Some c.
Proof.
  intros I (x & a & Hx & Ha & Hp).
  pose proof (pinv_audible _ _ _ I c x a Hx Ha Hp) as Hst.
  apply (pinv_stage_playing _ _ _ I c x Hx) in Hst.
  split; [by apply (pinv_resolve_last _ _ _ I)|].
  by rewrite (pinv_refs_audio _ _ _ I).
Qed.


(** The outcome of a fetch that arrives for a superseded call is
    dropped: the call returns, no audio element is created, the refs of
    the player are untouched. *)
Lemma stale_fetch_discarded n s c x res :
  PlayerInv ttsEnabled n s -> calls (tts s) !! c = Some x ->
  c_stage x = fetching -> S c < length (calls (tts s)) ->
  let s' := speakResponse_fetched c res s in
  (exists x', calls (tts s') !! c = Some x' /\ c_stage x' = returned /\ c_audio x' = None)
  /\ ttsAudioRef (tts s') = ttsAudioRef (tts s)
  /\ ttsResolveRef (tts s') = ttsResolveRef (tts s)
  /\ (forall i, ~ audible i s -> ~ audible i s').
Proof.
  intros I Hx Hf Hlt. cbn zeta.
  assert (Hret : speakResponse_fetched c res s = return_call c s).
  { unfold speakResponse_fetched. rewrite Hx. destruct res; try done.
    rewrite decide_True; [done|].
    rewrite (pinv_seq _ _ _ I c x Hx), (pinv_seq_ref _ _ _ I). lia. }
  rewrite Hret. destruct (return_call_tts c s) as [Ht _].
  destruct (finally_call_refs c s) as (Ha & Hu & Hr & Hs & Hc & He & Hb).
  split; [|split; [|split]].
  - rewrite Ht. cbn. rewrite Hc, list_lookup_alter_eq, Hx. cbn.
    eexists. split; [done|]. cbn.
    split; [done|]. by apply (pinv_fetching_audio _ _ _ I c x).
  - rewrite Ht. cbn. by rewrite Ha.
  - rewrite Ht. cbn. by rewrite Hr.
  - intros i Hna (y & a & Hy & Hau & Hp). apply Hna.
    rewrite Ht in Hy. cbn in Hy. rewrite Hc in Hy.
    apply lookup_alter_inv in Hy. destruct Hy as (x0 & Hx0 & ->).
    exists x0, a. split; [done|]. by case_decide.
Qed.

End PlayerFacts.

(** ** The single-flight player *)

Section PlayerClaims.
Variable ttsEnabled : bool.
Variable robotName : string.



Lemma speakResponse_lookup_new text k s :
  ttsEnabled = true ->
  calls (tts (speakResponse ttsEnabled text k s)) !! length (calls (tts s)) =
    Some (new_call (ttsSeqRef (tts s) + 1) text k).
Proof.
  intros Hen. rewrite speakResponse_calls by done.
  rewrite <- (stopTtsNow_length s). apply list_lookup_middle. done.
Qed.


Lemma run_microtasks_single c s :
  microtasks (env s) = [resume_call c] ->
  run_microtasks s = return_call c (with_env (set_microtasks []) s).
Proof. intros H. unfold run_microtasks. by rewrite H. Qed.

Lemma return_call_lookup c s x :
  calls (tts s) !! c = Some x ->
  calls (tts (return_call c s)) !! c = Some (set_c_stage returned x).
Proof.
  intros Hx. destruct (return_call_tts c s) as [-> _].
  destruct (finally_call_refs c s) as (_ & _ & _ & _ & Hc & _).
  cbn. by rewrite Hc, list_lookup_alter_eq, Hx.
Qed.


(** C2. Calls are numbered in the order they are made: the numbers grow
    strictly along [calls] and the ref holds the largest; a call made with
    text-to-speech enabled gets the successor of the ref.  When the fetch
    of a call succeeds after a newer call was made, the call returns
    without creating or playing any audio.  An audible call, and a call
    whose completion handler has any effect, carries the largest number. *)
Theorem sequence_numbers_guard_playback s :
  reachable ttsEnabled robotName s ->
  (forall i j x y, calls (tts s) !! i = Some x -> calls (tts s) !! j = Some y ->
     i < j -> (c_seq x < c_seq y)%Z)
  /\ (forall i x, calls (tts s) !! i = Some x -> (c_seq x <= ttsSeqRef (tts s))%Z)
  /\ (ttsEnabled = true -> forall text k,
        let s1 := speakResponse ttsEnabled text k s in
        ttsSeqRef (tts s1) = (ttsSeqRef (tts s) + 1)%Z
        /\ calls (tts s1) !! length (calls (tts s)) =
             Some (new_call (ttsSeqRef (tts s) + 1) text k)
        /\ forall i x, calls (tts s) !! i = Some x ->
             (c_seq x < ttsSeqRef (tts s) + 1)%Z)
  /\ (forall c x j y, calls (tts s) !! c = Some x -> c_stage x = fetching ->
        c < j -> calls (tts s) !! j = Some y ->
        let s' := speakResponse_fetched c fetch_ok s in
        (exists x', calls (tts s') !! c = Some x'
                    /\ c_stage x' = returned /\ c_audio x' = None)
        /\ ttsAudioRef (tts s') = ttsAudioRef (tts s)
        /\ forall i, ~ audible i s -> ~ audible i s')
  /\ (forall c, audible c s ->
        exists x, calls (tts s) !! c = Some x /\ c_seq x = ttsSeqRef (tts s))
  /\ (forall c x, calls (tts s) !! c = Some x -> c_seq x <> ttsSeqRef (tts s) ->
        cleanupAndResolve c s = s).
Proof.
  intros [I _]%reachable_inv.
  split; [|split; [|split; [|split; [|split]]]].
  - intros i j x y Hx Hy Hlt.
    rewrite (pinv_seq _ _ _ I i x Hx), (pinv_seq _ _ _ I j y Hy). lia.
  - intros i x Hx. apply lookup_lt_Some in Hx as Hlt.
    rewrite (pinv_seq _ _ _ I i x Hx), (pinv_seq_ref _ _ _ I). lia.
  - intros Hen text k s1. split; [|split].
    + unfold s1, speakResponse. rewrite Hen. cbn.
      by destruct (stopTtsNow_refs s) as (_ & _ & _ & _ & ->).
    + by apply speakResponse_lookup_new.
    + intros i x Hx. apply lookup_lt_Some in Hx as Hlt.
      rewrite (pinv_seq _ _ _ I i x Hx), (pinv_seq_ref _ _ _ I). lia.
  - intros c x j y Hx Hf Hlt Hy s'. apply lookup_lt_Some in Hy.
    destruct (stale_fetch_discarded ttsEnabled 0 s c x fetch_ok I Hx Hf)
      as (H1 & H2 & _ & H3); [lia|]. done.
  - intros c Ha. destruct (audible_latest _ _ _ _ I Ha) as [Hlen _].
    destruct Ha as (x & a & Hx & _). exists x. split; [done|].
    rewrite (pinv_seq _ _ _ I c x Hx), (pinv_seq_ref _ _ _ I). lia.
  - intros c x Hx Hne. apply (cleanupAndResolve_other ttsEnabled 0); [done|].
    intros Hres. apply Hne.
    pose proof (pinv_resolve_last _ _ _ I c Hres).
    rewrite (pinv_seq _ _ _ I c x Hx), (pinv_seq_ref _ _ _ I). lia.
Qed.

End PlayerClaims.

(** ** Voice activity detection *)

Lemma isSpeaking_true level :
  isSpeaking level = true <-> (SILENCE_THRESHOLD < level)%Q.
Proof.
  unfold isSpeaking. rewrite negb_true_iff, <- not_true_iff_false, Qle_bool_iff.
  split; [apply Qnot_le_lt|apply Qlt_not_le].
Qed.

Lemma isSpeaking_false level :
  isSpeaking level = false <-> (level <= SILENCE_THRESHOLD)%Q.
Proof.
  unfold isSpeaking. by rewrite negb_false_iff, Qle_bool_iff.
Qed.

Lemma stopRecording_stops s :
  isRecordingRef (refs (stopRecording s)) = false
  /\ speechDetectedRef (refs (stopRecording s)) = speechDetectedRef (refs s)
  /\ rafNext (env (stopRecording s)) = rafNext (env s)
  /\ (forall id, id ∈ rafPending (env (stopRecording s)) -> id ∈ rafPending (env s))
  /\ current_recorder_stopped s (stopRecording s).
Proof.
  unfold stopRecording. cbv zeta.
  set (s2 := match truthy_nat _ with Some id => _ | None => _ end).
  assert (H2 : isRecordingRef (refs s2) = false
               /\ speechDetectedRef (refs s2) = speechDetectedRef (refs s)
               /\ mediaRecorderRef (refs s2) = mediaRecorderRef (refs s)
               /\ rafNext (env s2) = rafNext (env s)
               /\ sessions (env s2) = sessions (env s)
               /\ forall id, id ∈ rafPending (env s2) -> id ∈ rafPending (env s)).
  { unfold s2. destruct (truthy_nat _); cbn; repeat split; try done.
    intros id'. rewrite list_elem_of_filter. by intros [_ ?]. }
  destruct H2 as (Hrec & Hsp & Hmr & Hnext & Hsess & Hraf).
  unfold current_recorder_stopped. rewrite Hmr.
  destruct (mediaRecorderRef (refs s)) as [r|]; [|done].
  unfold recorder_is_recording. rewrite Hsess.
  destruct (sessions (env s) !! r) as [x|] eqn:Hx.
  - case_bool_decide as Hst.
    + repeat split; try done. intros r' x' [= <-] Hx' _. cbn.
      rewrite Hsess, list_lookup_alter_eq, Hx. cbn. eauto.
    + repeat split; try done. intros r' x' [= <-] Hx'. congruence.
  - repeat split; try done. intros r' x' [= <-] Hx'. congruence.
Qed.

(** One tick while speech is going on. *)
Lemma monitorAudio_speech data s :
  analyserRef (refs s) <> None -> isRecordingRef (refs s) = true ->
  (SILENCE_THRESHOLD < getAudioLevel data)%Q ->
  let s' := monitorAudio data s in
  silenceStartRef (refs s') = None /\ speechDetectedRef (refs s') = true
  /\ isRecordingRef (refs s') = true /\ analyserRef (refs s') = analyserRef (refs s)
  /\ rafIdRef (refs s') = Some (rafNext (env s))
  /\ rafNext (env s) ∈ rafPending (env s').
Proof.
  intros Han Hrec Hlv%isSpeaking_true. unfold monitorAudio.
  destruct (analyserRef (refs s)) eqn:Ha; [|done].
  rewrite Hrec. cbn [negb]. cbv zeta. rewrite Hlv. cbn.
  rewrite Hrec, Ha. repeat split; try done.
  rewrite elem_of_app, list_elem_of_singleton. by right.
Qed.

(** One tick below the threshold before any speech. *)
Lemma monitorAudio_quiet data s :
  speechDetectedRef (refs s) = false ->
  (getAudioLevel data <= SILENCE_THRESHOLD)%Q ->
  let s' := monitorAudio data s in
  speechDetectedRef (refs s') = false
  /\ isRecordingRef (refs s') = isRecordingRef (refs s)
  /\ silenceStartRef (refs s') = silenceStartRef (refs s)
  /\ sessions (env s') = sessions (env s)
  /\ timers (env s') = timers (env s).
Proof.
  intros Hsp Hlv%isSpeaking_false. unfold monitorAudio.
  destruct (analyserRef (refs s)); [|done].
  destruct (isRecordingRef (refs s)) eqn:Hrec; cbn [negb]; [|done].
  cbv zeta. rewrite Hlv. cbn. rewrite Hsp. cbn. by rewrite Hsp, Hrec.
Qed.

(** The first tick below the threshold after speech. *)
Lemma monitorAudio_silence_begins data s :
  analyserRef (refs s) <> None -> isRecordingRef (refs s) = true ->
  speechDetectedRef (refs s) = true ->
  truthy_time (silenceStartRef (refs s)) = None ->
  (getAudioLevel data <= SILENCE_THRESHOLD)%Q ->
  trailing_silence (clock (env s)) (monitorAudio data s)
  /\ sessions (env (monitorAudio data s)) = sessions (env s)
  /\ mediaRecorderRef (refs (monitorAudio data s)) = mediaRecorderRef (refs s).
Proof.
  intros Han Hrec Hsp Ht Hlv%isSpeaking_false. unfold monitorAudio, trailing_silence.
  destruct (analyserRef (refs s)) eqn:Ha; [|done].
  rewrite Hrec. cbn [negb]. cbv zeta. rewrite Hlv.
  cbn [refs setAudioLevel with_ui speechDetectedRef silenceStartRef]. rewrite Hsp, Ht.
  cbn. by rewrite Ha, Hrec, Hsp.
Qed.

(** A later tick below the threshold, within the silence duration. *)
Lemma monitorAudio_silence_goes_on data t0 s :
  trailing_silence t0 s -> t0 <> 0%Z ->
  (getAudioLevel data <= SILENCE_THRESHOLD)%Q ->
  (clock (env s) - t0 <= SILENCE_DURATION)%Z ->
  trailing_silence t0 (monitorAudio data s)
  /\ sessions (env (monitorAudio data s)) = sessions (env s)
  /\ mediaRecorderRef (refs (monitorAudio data s)) = mediaRecorderRef (refs s).
Proof.
  intros (Han & Hrec & Hsp & Hsil) Ht0 Hlv%isSpeaking_false Hd.
  unfold monitorAudio, trailing_silence.
  destruct (analyserRef (refs s)) eqn:Ha; [|done].
  rewrite Hrec. cbn [negb]. cbv zeta. rewrite Hlv.
  cbn [refs setAudioLevel with_ui speechDetectedRef silenceStartRef env clock].
  rewrite Hsp, Hsil. cbn [truthy_time].
  destruct (t0 =? 0)%Z eqn:E; [lia|].
  destruct (SILENCE_DURATION <? clock (env s) - t0)%Z eqn:E2; [lia|].
  cbn. by rewrite Ha, Hrec, Hsp, Hsil.
Qed.

(** The tick at which the silence has lasted long enough. *)
Lemma monitorAudio_silence_ends data t0 s :
  trailing_silence t0 s -> t0 <> 0%Z ->
  (getAudioLevel data <= SILENCE_THRESHOLD)%Q ->
  (SILENCE_DURATION < clock (env s) - t0)%Z ->
  let s' := monitorAudio data s in
  isRecordingRef (refs s') = false /\ speechDetectedRef (refs s') = true
  /\ rafNext (env s') = rafNext (env s)
  /\ (forall id, id ∈ rafPending (env s') -> id ∈ rafPending (env s))
  /\ current_recorder_stopped s s'.
Proof.
  intros (Han & Hrec & Hsp & Hsil) Ht0 Hlv%isSpeaking_false Hd.
  unfold monitorAudio.
  destruct (analyserRef (refs s)) eqn:Ha; [|done].
  rewrite Hrec. cbn [negb]. cbv zeta. rewrite Hlv.
  cbn [refs setAudioLevel with_ui speechDetectedRef silenceStartRef env clock].
  rewrite Hsp, Hsil. cbn [truthy_time].
  destruct (t0 =? 0)%Z eqn:E; [lia|].
  destruct (SILENCE_DURATION <? clock (env s) - t0)%Z eqn:E2; [|lia].
  destruct (stopRecording_stops (setAudioLevel (getAudioLevel data) s))
    as (H1 & H2 & H3 & H4 & H5).
  repeat split; try done. by rewrite H2.
Qed.

Lemma monitor_run_silence t0 ticks s :
  trailing_silence t0 s -> t0 <> 0%Z -> Forall (quiet_within t0) ticks ->
  trailing_silence t0 (monitor_run ticks s)
  /\ sessions (env (monitor_run ticks s)) = sessions (env s)
  /\ mediaRecorderRef (refs (monitor_run ticks s)) = mediaRecorderRef (refs s).
Proof.
  intros Hs Ht0 Hall. revert s Hs.
  induction Hall as [|[t d] ticks [Hq Ht] _ IH]; intros s Hs; [done|].
  cbn [monitor_run].
  pose proof (monitorAudio_silence_goes_on d t0 (with_env (set_clock t) s)
                Hs Ht0 Hq Ht) as (H1 & H2 & H3).
  destruct (IH _ H1) as (H4 & H5 & H6). split; [done|].
  by rewrite H5, H6, H2, H3.
Qed.

(** C4. In a session in which speech has been detected the flag stays
    set.  A sample above 0.015 clears the silence start; the first sample
    at or below it sets the silence start to the time of that sample; and
    the first sample taken more than 1500 ms after that time stops the
    capture: the recording flag is cleared, no further frame is requested
    and the recorder is stopped, with [speechDetected] still true.  Times
    are values of [Date.now()], which are positive. *)
Theorem vad_trailing_silence_stops_capture s :
  analyserRef (refs s) <> None -> isRecordingRef (refs s) = true ->
  speechDetectedRef (refs s) = true ->
  (* a sample above the threshold *)
  (forall data, (SILENCE_THRESHOLD < getAudioLevel data)%Q ->
     silenceStartRef (refs (monitorAudio data s)) = None
     /\ speechDetectedRef (refs (monitorAudio data s)) = true
     /\ isRecordingRef (refs (monitorAudio data s)) = true)
  (* a run of samples at or below the threshold *)
  /\ (forall t0 d0 ticks t data,
        silenceStartRef (refs s) = None -> (0 < t0)%Z ->
        (getAudioLevel d0 <= SILENCE_THRESHOLD)%Q ->
        Forall (quiet_within t0) ticks ->
        (getAudioLevel data <= SILENCE_THRESHOLD)%Q ->
        (SILENCE_DURATION < t - t0)%Z ->
        let s1 := monitor_run ((t0, d0) :: ticks) s in
        let s2 := monitor_run [(t, data)] s1 in
        trailing_silence t0 s1
        /\ isRecordingRef (refs s2) = false
        /\ speechDetectedRef (refs s2) = true
        /\ rafNext (env s2) = rafNext (env s1)
        /\ (forall id, id ∈ rafPending (env s2) -> id ∈ rafPending (env s1))
        /\ current_recorder_stopped s1 s2).
Proof.
  intros Han Hrec Hsp. split.
  - intros data Hlv.
    by destruct (monitorAudio_speech data s Han Hrec Hlv) as (? & ? & ? & _).
  - intros t0 d0 ticks t data Hsil Ht0 Hq0 Hall Hq Hlate s1 s2.
    assert (Hsil' : truthy_time (silenceStartRef (refs (with_env (set_clock t0) s))) = None).
    { cbn. by rewrite Hsil. }
    pose proof (monitorAudio_silence_begins d0 (with_env (set_clock t0) s)
                  Han Hrec Hsp Hsil' Hq0) as (H1 & _).
    destruct (monitor_run_silence t0 ticks _ H1) as (H2 & _); [lia|done|].
    split; [exact H2|].
    assert (Ht0' : t0 <> 0%Z) by lia.
    assert (H1' : trailing_silence t0 (with_env (set_clock t) s1)) by exact H2.
    pose proof (monitorAudio_silence_ends data t0 (with_env (set_clock t) s1)
                  H1' Ht0' Hq Hlate) as (H3 & H4 & H5 & H6 & H7).
    unfold s2. cbn [monitor_run]. done.
Qed.

(** Samples at or below the threshold never set [speechDetected]. *)
Lemma monitor_run_quiet ticks s :
  speechDetectedRef (refs s) = false ->
  Forall (fun tick => (getAudioLevel tick.2 <= SILENCE_THRESHOLD)%Q) ticks ->
  speechDetectedRef (refs (monitor_run ticks s)) = false
  /\ isRecordingRef (refs (monitor_run ticks s)) = isRecordingRef (refs s)
  /\ sessions (env (monitor_run ticks s)) = sessions (env s).
Proof.
  intros Hs Hall. revert s Hs.
  induction Hall as [|[t d] ticks Hq _ IH]; intros s Hs; [done|].
  cbn [monitor_run].
  pose proof (monitorAudio_quiet d (with_env (set_clock t) s) Hs Hq)
    as (H1 & H2 & _ & H3 & _).
  destruct (IH _ H1) as (H4 & H5 & H6). by rewrite H4, H5, H6, H2, H3.
Qed.

(** ** The turn pipeline *)

Section Pipeline.
Variable ttsEnabled : bool.
Variable robotName : string.

Lemma processAudio_no_speech blob s :
  speechDetectedRef (refs s) = false ->
  let s' := processAudio blob s in
  transcribing (env s') = transcribing (env s)
  /\ chatPending (env s') = chatPending (env s)
  /\ tts s' = tts s /\ messages (ui s') = messages (ui s)
  /\ refs s' = refs s
  /\ (shouldContinueRef (refs s) = true ->
        timers (env s') = timers (env s) ++ [((clock (env s) + 300)%Z, restart_if_continuing)]
        /\ jarvisPhase (ui s') = jarvisPhase (ui s)
        /\ micPending (env s') = micPending (env s))
  /\ (shouldContinueRef (refs s) = false ->
        jarvisPhase (ui s') = idle /\ isListening (ui s') = false
        /\ timers (env s') = timers (env s)
        /\ micPending (env s') = micPending (env s)).
Proof.
  intros Hsp. unfold processAudio. rewrite Hsp, orb_true_r.
  destruct (shouldContinueRef (refs s)); cbn; repeat split; done.
Qed.

Lemma onstop_refs_before_processAudio s :
  exists s1, onstop s = processAudio (fold_right Z.add 0%Z (audioChunksRef (refs s))) s1
    /\ speechDetectedRef (refs s1) = speechDetectedRef (refs s)
    /\ shouldContinueRef (refs s1) = shouldContinueRef (refs s)
    /\ audioChunksRef (refs s1) = audioChunksRef (refs s)
    /\ transcribing (env s1) = transcribing (env s)
    /\ chatPending (env s1) = chatPending (env s)
    /\ timers (env s1) = timers (env s)
    /\ clock (env s1) = clock (env s)
    /\ micPending (env s1) = micPending (env s)
    /\ tts s1 = tts s /\ ui s1 = ui s.
Proof.
  unfold onstop. cbv zeta.
  destruct (streamRef (refs s)) as [i|]; cbn;
    destruct (audioContextRef (refs s)) as [j|]; cbn;
    eexists; (split; [reflexivity|]); repeat split; done.
Qed.

(** C7. Samples at or below the threshold (in particular all below it)
    leave [speechDetected] false from the start of the session on, and the
    monitor does not stop the session.  When a session stops with the flag
    false, [processAudio], also as called by the recorder's stop handler,
    issues no transcription or dialogue call, speaks nothing and adds no
    message: in continuous mode it sets a 300 ms timer, whose callback
    restarts capture if the mode is still on; otherwise the state becomes
    idle. *)
Theorem no_speech_no_transcription s :
  (forall ticks,
     Forall (fun tick => (getAudioLevel tick.2 < SILENCE_THRESHOLD)%Q) ticks ->
     let s' := monitor_run ticks (startRecording_granted (startRecording s)) in
     speechDetectedRef (refs s') = false /\ isRecordingRef (refs s') = true)
  /\ (speechDetectedRef (refs s) = false ->
      forall blob,
        let s' := processAudio blob s in
        transcribing (env s') = transcribing (env s)
        /\ chatPending (env s') = chatPending (env s)
        /\ tts s' = tts s /\ messages (ui s') = messages (ui s)
        /\ (shouldContinueRef (refs s) = true ->
              timers (env s') =
                timers (env s) ++ [((clock (env s) + 300)%Z, restart_if_continuing)]
              /\ jarvisPhase (ui s') = jarvisPhase (ui s))
        /\ (shouldContinueRef (refs s) = false ->
              jarvisPhase (ui s') = idle /\ isListening (ui s') = false
              /\ timers (env s') = timers (env s)
              /\ micPending (env s') = micPending (env s)))
  /\ (speechDetectedRef (refs s) = false ->
        transcribing (env (onstop s)) = transcribing (env s)
        /\ chatPending (env (onstop s)) = chatPending (env s)
        /\ tts (onstop s) = tts s
        /\ (shouldContinueRef (refs s) = true ->
              timers (env (onstop s)) =
                timers (env s) ++ [((clock (env s) + 300)%Z, restart_if_continuing)])
        /\ (shouldContinueRef (refs s) = false -> jarvisPhase (ui (onstop s)) = idle))
  /\ (shouldContinueRef (refs s) = true ->
        run_timer restart_if_continuing s = startRecording s
        /\ isRecordingRef (refs (startRecording s)) = true
        /\ micPending (env (startRecording s)) = S (micPending (env s)))
  /\ (shouldContinueRef (refs s) = false -> run_timer restart_if_continuing s = s).
Proof.
  split; [|split; [|split; [|split]]].
  - intros ticks Hall s'.
    destruct (monitor_run_quiet ticks (startRecording_granted (startRecording s)))
      as (H1 & H2 & _); [done| |by unfold s'; rewrite H1, H2].
    eapply Forall_impl; [exact Hall|]. intros tick. apply Qlt_le_weak.
  - intros Hsp blob.
    destruct (processAudio_no_speech blob s Hsp) as (H1 & H2 & H3 & H4 & _ & H5 & H6).
    do 4 (split; [done|]). split; [|exact H6].
    intros Hc. by destruct (H5 Hc) as (? & ? & ?).
  - intros Hsp.
    destruct (onstop_refs_before_processAudio s)
      as (s1 & -> & E1 & E2 & E3 & E4 & E5 & E6 & E7 & E8 & E9 & E10).
    rewrite <- E1 in Hsp.
    destruct (processAudio_no_speech (fold_right Z.add 0%Z (audioChunksRef (refs s))) s1 Hsp)
      as (H1 & H2 & H3 & H4 & _ & H5 & H6).
    rewrite H1, H2, H3, E4, E5, E9. do 3 (split; [done|]). split.
    + intros Hc. rewrite <- E2 in Hc. destruct (H5 Hc) as (-> & _). by rewrite E6, E7.
    + intros Hc. rewrite <- E2 in Hc. by destruct (H6 Hc) as (-> & _).
  - intros Hc. cbn. by rewrite Hc.
  - intros Hc. cbn. by rewrite Hc.
Qed.

End Pipeline.

(** ** What the player leaves alone *)

Lemma env_eq_but_microtasks e e' :
  set_microtasks [] e' = set_microtasks [] e ->
  clock e' = clock e /\ sessions e' = sessions e /\ rafPending e' = rafPending e
  /\ rafNext e' = rafNext e /\ timers e' = timers e /\ micPending e' = micPending e
  /\ transcribing e' = transcribing e /\ chatPending e' = chatPending e.
Proof. destruct e, e'. cbn. intros [= -> -> -> -> -> -> -> ->]. done. Qed.

Lemma player_only_compose f g :
  player_only f -> player_only g -> player_only (fun s => g (f s)).
Proof.
  intros Hf Hg s. destruct (Hf s) as (<- & <- & <-). apply Hg.
Qed.

Lemma upd_call_player_only c f : player_only (upd_call c f).
Proof. done. Qed.

Lemma resolve_promise_player_only c : player_only (resolve_promise c).
Proof.
  intros s. unfold resolve_promise. destruct (_ !! c); [|done]. by case_decide.
Qed.

Lemma stopTtsNow_player_only : player_only stopTtsNow.
Proof.
  unfold stopTtsNow.
  apply (player_only_compose (fun s => release_blob_url (stop_current_audio (abort_inflight_request s)))).
  - intros s. unfold release_blob_url, stop_current_audio, abort_inflight_request.
    repeat (cbn; try break_match); done.
  - intros s. unfold resolve_pending_speak. destruct (ttsResolveRef (tts s)) as [c|]; [|done].
    cbn. apply resolve_promise_player_only.
Qed.

Lemma speakResponse_player_only ttsEnabled text k :
  player_only (speakResponse ttsEnabled text k).
Proof.
  intros s. unfold speakResponse. destruct (negb ttsEnabled); [done|]. cbn.
  apply stopTtsNow_player_only.
Qed.

Lemma cleanupAndResolve_player_only c : player_only (cleanupAndResolve c).
Proof.
  intros s. unfold cleanupAndResolve. cbv zeta.
  match goal with |- context [resolve_promise c ?s'] =>
    destruct (resolve_promise_player_only c s') as (-> & -> & ->) end.
  repeat (case_decide; cbn); done.
Qed.

Lemma upd_audio_player_only c f : player_only (upd_audio c f).
Proof. done. Qed.

(** What [speakResponse] asks for: with text-to-speech enabled, a request
    for [text] is in flight as the latest call, to be continued by [k];
    with it disabled the caller is resumed at once. *)
Lemma speakResponse_request ttsEnabled text k s :
  let s' := speakResponse ttsEnabled text k s in
  (ttsEnabled = true ->
     calls (tts s') !! length (calls (tts s)) =
       Some (new_call (ttsSeqRef (tts s) + 1) text k)
     /\ length (calls (tts s')) = S (length (calls (tts s))))
  /\ (ttsEnabled = false ->
     tts s' = tts s /\ microtasks (env s') = microtasks (env s) ++ [resume_cont k]).
Proof.
  cbv zeta. split.
  - intros ->. split.
    + by apply speakResponse_lookup_new.
    + rewrite speakResponse_calls, length_app, stopTtsNow_length by done. cbn. lia.
  - intros ->. done.
Qed.

Lemma state_after_reachable tr :
  run true "VV" tr (init 1000 "en") <> None ->
  reachable true "VV" (state_after tr).
Proof.
  intros H. unfold state_after.
  destruct (run true "VV" tr (init 1000 "en")) as [s|] eqn:E; [|done].
  by eapply run_reachable.
Qed.

Section Pipeline2.
Variable ttsEnabled : bool.
Variable robotName : string.

Lemma speak_after_phase text k p s :
  let s' := speakResponse ttsEnabled text k (setJarvisPhase p s) in
  jarvisPhase (ui s') = p
  /\ chatPending (env s') = chatPending (env s)
  /\ transcribing (env s') = transcribing (env s)
  /\ timers (env s') = timers (env s)
  /\ micPending (env s') = micPending (env s)
  /\ refs s' = refs s
  /\ messages (ui s') = messages (ui s)
  /\ (ttsEnabled = true ->
        calls (tts s') !! length (calls (tts s)) =
          Some (new_call (ttsSeqRef (tts s) + 1) text k))
  /\ (ttsEnabled = false ->
        tts s' = tts s /\ microtasks (env s') = microtasks (env s) ++ [resume_cont k]).
Proof.
  cbv zeta.
  destruct (speakResponse_player_only ttsEnabled text k (setJarvisPhase p s))
    as (Hu & Hr & He).
  apply env_eq_but_microtasks in He. destruct He as (_ & _ & _ & _ & Ht & Hm & Htr & Hc).
  rewrite Hu, Hr, Ht, Hm, Htr, Hc.
  destruct (speakResponse_request ttsEnabled text k (setJarvisPhase p s)) as [H1 H2].
  do 7 (split; [done|]). split.
  - intros Hen. by destruct (H1 Hen).
  - exact H2.
Qed.

(** C8, as the code has it.  When [api.transcribeAudio] returns
    [success = false] or an empty text, the state becomes speaking and
    "I couldn't hear that. Please try again." is requested from the
    player; when the call throws, "Sorry, something went wrong!" is
    requested instead.  In neither case is a dialogue call made.  When the
    apology has been spoken the caller goes to listening and sets a 500 ms
    timer that restarts capture if continuous mode is on, and to idle
    otherwise. *)
Theorem transcription_failure_apology s :
  (forall text success,
     success = false \/ text = "" ->
     let s' := processAudio_transcribed ttsEnabled (transcribed text success) s in
     jarvisPhase (ui s') = speaking
     /\ chatPending (env s') = chatPending (env s)
     /\ (ttsEnabled = true ->
           calls (tts s') !! length (calls (tts s)) =
             Some (new_call (ttsSeqRef (tts s) + 1)
                     "I couldn't hear that. Please try again."
                     after_transcribe_apology))
     /\ (ttsEnabled = false ->
           microtasks (env s') =
             microtasks (env s) ++ [resume_cont after_transcribe_apology]))
  /\ (let s' := processAudio_transcribed ttsEnabled transcribe_threw s in
      jarvisPhase (ui s') = speaking
      /\ chatPending (env s') = chatPending (env s)
      /\ (ttsEnabled = true ->
            calls (tts s') !! length (calls (tts s)) =
              Some (new_call (ttsSeqRef (tts s) + 1)
                      "Sorry, something went wrong!" after_error_apology))
      /\ (ttsEnabled = false ->
            microtasks (env s') =
              microtasks (env s) ++ [resume_cont after_error_apology]))
  /\ (forall k, k = after_transcribe_apology \/ k = after_error_apology ->
      let s' := run_cont k s in
      chatPending (env s') = chatPending (env s)
      /\ (shouldContinueRef (refs s) = true ->
            jarvisPhase (ui s') = listening
            /\ timers (env s') =
                 timers (env s) ++ [((clock (env s) + 500)%Z, restart_capture)])
      /\ (shouldContinueRef (refs s) = false ->
            jarvisPhase (ui s') = idle
            /\ timers (env s') = timers (env s)
            /\ micPending (env s') = micPending (env s)))
  /\ run_timer restart_capture s = startRecording s.
Proof.
  split; [|split; [|split]].
  - intros text success Hfail s'.
    assert (Hs' : s' = speakResponse ttsEnabled APOLOGY_NOT_HEARD
                         after_transcribe_apology (setJarvisPhase speaking s)).
    { unfold s', processAudio_transcribed.
      destruct Hfail as [-> | ->]; [done|]. by rewrite orb_true_r. }
    rewrite Hs'.
    destruct (speak_after_phase APOLOGY_NOT_HEARD after_transcribe_apology speaking s)
      as (H1 & H2 & _ & _ & _ & _ & _ & H3 & H4).
    do 3 (split; [done|]). intros Hen. by destruct (H4 Hen).
  - cbv zeta. unfold processAudio_transcribed, processAudio_catch.
    destruct (speak_after_phase APOLOGY_ERROR after_error_apology speaking s)
      as (H1 & H2 & _ & _ & _ & _ & _ & H3 & H4).
    do 3 (split; [done|]). intros Hen. by destruct (H4 Hen).
  - intros k [-> | ->]; cbn; destruct (shouldContinueRef (refs s)); cbn;
      repeat split; done.
  - done.
Qed.

End Pipeline2.

(** C8 as stated fails when the transcription call throws: the apology
    that is spoken is the generic one. *)
Lemma transcription_throw_other_apology :
  exists s,
    run true "VV" (run_heard ++ [(4000%Z, TranscribeDone 0 transcribe_threw)])
      (init 1000 "en") = Some s
    /\ exists x, last (calls (tts s)) = Some x
         /\ c_text x = "Sorry, something went wrong!"
         /\ c_text x <> "I couldn't hear that, please try again"
         /\ c_stage x = fetching.
Proof.
  eexists. split; [vm_compute; reflexivity|].
  eexists. split; [reflexivity|]. repeat split. discriminate.
Qed.

(** ** Stopping and switching *)

(** The teardown shared by [stopConversation] and [handleModeSwitch]. *)
Lemma capture_teardown s :
  let s' := release_stream (stop_recorder_if_recording (cancel_monitor s)) in
  current_recorder_stopped s s' /\ stream_released s s'
  /\ streamRef (refs s') = None
  /\ isRecordingRef (refs s') = isRecordingRef (refs s)
  /\ shouldContinueRef (refs s') = shouldContinueRef (refs s)
  /\ speechDetectedRef (refs s') = speechDetectedRef (refs s)
  /\ audioChunksRef (refs s') = audioChunksRef (refs s)
  /\ mediaRecorderRef (refs s') = mediaRecorderRef (refs s)
  /\ (forall id, rafIdRef (refs s) = Some (S id) -> S id ∉ rafPending (env s'))
  /\ ui s' = ui s /\ tts s' = tts s
  /\ timers (env s') = timers (env s) /\ transcribing (env s') = transcribing (env s)
  /\ chatPending (env s') = chatPending (env s)
  /\ micPending (env s') = micPending (env s)
  /\ microtasks (env s') = microtasks (env s)
  /\ clock (env s') = clock (env s).
Proof.
  cbv zeta.
  set (s1 := cancel_monitor s).
  assert (H1 : refs s1 = refs s \/ exists id, rafIdRef (refs s) = Some id /\
                 refs s1 = set_rafIdRef None (refs s)).
  { unfold s1, cancel_monitor. destruct (rafIdRef (refs s)) as [[|n]|]; cbn; eauto. }
  assert (H1' : mediaRecorderRef (refs s1) = mediaRecorderRef (refs s)
                /\ streamRef (refs s1) = streamRef (refs s)
                /\ isRecordingRef (refs s1) = isRecordingRef (refs s)
                /\ shouldContinueRef (refs s1) = shouldContinueRef (refs s)
                /\ speechDetectedRef (refs s1) = speechDetectedRef (refs s)
                /\ audioChunksRef (refs s1) = audioChunksRef (refs s)).
  { destruct H1 as [->|(id & _ & ->)]; cbn; done. }
  destruct H1' as (Hm & Hst & Hrec & Hc & Hsp & Hch).
  assert (H2 : sessions (env s1) = sessions (env s) /\ ui s1 = ui s /\ tts s1 = tts s
               /\ timers (env s1) = timers (env s)
               /\ transcribing (env s1) = transcribing (env s)
               /\ chatPending (env s1) = chatPending (env s)
               /\ micPending (env s1) = micPending (env s)
               /\ microtasks (env s1) = microtasks (env s)
               /\ clock (env s1) = clock (env s)
               /\ forall id, rafIdRef (refs s) = Some (S id) -> S id ∉ rafPending (env s1)).
  { unfold s1, cancel_monitor. destruct (rafIdRef (refs s)) as [[|n]|]; cbn;
      repeat split; try done.
    intros id [= <-]. rewrite list_elem_of_filter. by intros [? _]. }
  destruct H2 as (Hss & Hui & Htts & Hti & Htr & Hcp & Hmp & Hmt & Hck & Hraf).
  unfold stop_recorder_if_recording, release_stream, recorder_is_recording,
    current_recorder_stopped, stream_released.
  rewrite Hm. destruct (mediaRecorderRef (refs s)) as [r|] eqn:Hr.
  - rewrite Hss. destruct (sessions (env s) !! r) as [x|] eqn:Hx.
    + case_bool_decide as Hrc.
      * cbn [refs recorder_stop upd_session with_env]. rewrite Hst.
        destruct (streamRef (refs s)) as [i|] eqn:Hi; cbn; rewrite ?Hss.
        -- repeat split; try done.
           ++ intros r' x' [= <-] Hx' _. eexists.
              erewrite lookup_alter_Some; [|by apply lookup_alter_Some].
              split; [done|]. rewrite Hx in Hx'. injection Hx' as <-.
              destruct (decide (r = r)) as [_|]; [|done].
              destruct (decide (i = r)); cbn; done.
           ++ intros i' x' [= <-] Hx'. eexists.
              erewrite lookup_alter_Some; [|by apply lookup_alter_Some].
              split; [done|]. rewrite decide_True by done. cbn. done.
        -- repeat split; try done.
           intros r' x' [= <-] Hx' _. rewrite list_lookup_alter_eq, Hx. cbn. eauto.
      * rewrite Hst. destruct (streamRef (refs s)) as [i|] eqn:Hi; cbn; rewrite ?Hss.
        -- repeat split; try done.
           ++ intros r' x' [= <-] Hx'. congruence.
           ++ intros i' x' [= <-] Hx'. eexists. erewrite lookup_alter_Some by done.
              split; [done|]. by rewrite decide_True.
        -- repeat split; try done. intros r' x' [= <-] Hx'. congruence.
    + rewrite Hst. destruct (streamRef (refs s)) as [i|] eqn:Hi; cbn; rewrite ?Hss.
      * repeat split; try done.
        -- intros r' x' [= <-] Hx'. congruence.
        -- intros i' x' [= <-] Hx'. eexists. erewrite lookup_alter_Some by done.
           split; [done|]. by rewrite decide_True.
      * repeat split; try done. intros r' x' [= <-] Hx'. congruence.
  - rewrite Hst. destruct (streamRef (refs s)) as [i|] eqn:Hi; cbn; rewrite ?Hss.
    + repeat split; try done.
      intros i' x' [= <-] Hx'. eexists. erewrite lookup_alter_Some by done.
      split; [done|]. by rewrite decide_True.
    + repeat split; try done.
Qed.






(** ** Timers are never cancelled *)

Lemma timers_kept_refl s : timers_kept s s.
Proof. exists []. by rewrite app_nil_r. Qed.

Lemma timers_kept_trans s1 s2 s3 :
  timers_kept s1 s2 -> timers_kept s2 s3 -> timers_kept s1 s3.
Proof.
  intros [l1 H1] [l2 H2]. exists (l1 ++ l2). by rewrite H2, H1, app_assoc.
Qed.

Lemma timers_kept_step f s x :
  timers_kept s x -> keeps_timers f -> timers_kept s (f x).
Proof. intros H Hf. eapply timers_kept_trans; [exact H|apply Hf]. Qed.

Lemma timers_kept_eq s s' : timers (env s') = timers (env s) -> timers_kept s s'.
Proof. intros H. exists []. by rewrite app_nil_r. Qed.

Lemma player_only_keeps_timers f : player_only f -> keeps_timers f.
Proof.
  intros Hf s. destruct (Hf s) as (_ & _ & He). apply env_eq_but_microtasks in He.
  apply timers_kept_eq. by destruct He as (_ & _ & _ & _ & -> & _).
Qed.

Lemma setTimeout_keeps a d : keeps_timers (setTimeout a d).
Proof. intros s. by eexists. Qed.

Ltac keeps_pure := intros ?; apply timers_kept_eq; reflexivity.

Ltac keeps_known :=
  first [ apply setTimeout_keeps
        | apply player_only_keeps_timers;
          first [ apply stopTtsNow_player_only | apply speakResponse_player_only
                | apply cleanupAndResolve_player_only | apply upd_audio_player_only
                | apply upd_call_player_only ]
        | keeps_pure ].

Ltac tk_with known :=
  repeat first
    [ assumption
    | apply timers_kept_refl
    | match goal with
      | |- timers_kept _ (if ?b then _ else _) => destruct b
      | |- timers_kept _ (match ?x with _ => _ end) => destruct x
      | |- timers_kept ?s (?f ?x) =>
          apply (timers_kept_step f s x); [|first [known | keeps_known]]
      end ].

Lemma stopRecording_keeps : keeps_timers stopRecording.
Proof. intros s. unfold stopRecording, recorder_is_recording. cbv zeta.
  tk_with fail. Qed.

Lemma processAudio_keeps blob : keeps_timers (processAudio blob).
Proof. intros s. unfold processAudio. tk_with fail. Qed.

Lemma monitorAudio_keeps data : keeps_timers (monitorAudio data).
Proof.
  intros s. unfold monitorAudio. cbv zeta.
  tk_with ltac:(apply stopRecording_keeps).
Qed.

Lemma startRecording_granted_keeps : keeps_timers startRecording_granted.
Proof. intros s. unfold startRecording_granted. cbv zeta. tk_with fail. Qed.

Lemma onstop_keeps : keeps_timers onstop.
Proof.
  intros s. unfold onstop. cbv zeta.
  tk_with ltac:(apply processAudio_keeps).
Qed.

Lemma run_cont_keeps k : keeps_timers (run_cont k).
Proof. intros s. destruct k; cbn; tk_with fail. Qed.

Lemma return_call_keeps c : keeps_timers (return_call c).
Proof.
  intros s. unfold return_call. cbv zeta.
  assert (H : timers_kept s (upd_call c (set_c_stage returned) (finally_call c s))).
  { apply timers_kept_eq. cbn.
    by destruct (finally_call_refs c s) as (_ & _ & _ & _ & _ & -> & _). }
  destruct (calls _ !! c); [|done].
  eapply timers_kept_trans; [exact H|apply run_cont_keeps].
Qed.

Lemma speakResponse_fetched_keeps c res : keeps_timers (speakResponse_fetched c res).
Proof.
  intros s. unfold speakResponse_fetched.
  destruct (calls (tts s) !! c); [|apply timers_kept_refl].
  destruct res; try apply return_call_keeps.
  case_decide; [apply return_call_keeps|]. by apply timers_kept_eq.
Qed.

Lemma run_microtasks_keeps : keeps_timers run_microtasks.
Proof.
  intros s. unfold run_microtasks.
  assert (H : timers_kept s (with_env (set_microtasks []) s)) by (by apply timers_kept_eq).
  revert H. generalize (with_env (set_microtasks []) s).
  induction (microtasks (env s)) as [|m q IH]; intros s0 H; [done|].
  cbn [fold_left]. apply IH. eapply timers_kept_trans; [exact H|].
  destruct m; cbn; [apply return_call_keeps|apply run_cont_keeps].
Qed.

Section Timers.
Variable ttsEnabled : bool.
Variable robotName : string.

Lemma handleModeSwitch_keeps mode greeting :
  keeps_timers (handleModeSwitch ttsEnabled mode greeting).
Proof.
  intros s. unfold handleModeSwitch, cancel_monitor, stop_recorder_if_recording,
    release_stream, recorder_is_recording. cbv zeta. tk_with fail.
Qed.

Lemma stopConversation_keeps : keeps_timers stopConversation.
Proof.
  intros s. unfold stopConversation, cancel_monitor, stop_recorder_if_recording,
    release_stream, recorder_is_recording. tk_with fail.
Qed.

Lemma startConversation_keeps : keeps_timers (startConversation ttsEnabled robotName).
Proof. intros s. unfold startConversation. cbv zeta. tk_with fail. Qed.

(** Every task other than the firing of a timer keeps all pending
    timers. *)
Lemma handle_keeps_timers ev s s' :
  (forall k, ev <> TimerFire k) ->
  handle ttsEnabled robotName ev s = Some s' -> timers_kept s s'.
Proof.
  intros Hev. destruct ev; cbn [handle].
  - destruct (mounted (ui s)); [|done]. intros [= <-]. unfold handleMicClick.
    destruct (conversation_engaged s);
      [apply stopConversation_keeps|apply startConversation_keeps].
  - destruct (mounted (ui s)) eqn:Hm; [|done]. intros [= <-].
    unfold handleNavClick, unmount. cbv zeta.
    tk_with ltac:(apply handleModeSwitch_keeps).
  - destruct (mounted (ui s)); [|done]. intros [= <-].
    unfold handleTextSubmit. cbv zeta. tk_with fail.
  - case_bool_decide; [|done]. intros [= <-].
    tk_with ltac:(apply monitorAudio_keeps).
  - by destruct (Hev k).
  - destruct (sessions (env s) !! r) as [x|]; [|done].
    unfold ondataavailable. destruct (rec_state x); intros [= <-]; tk_with fail.
  - destruct (sessions (env s) !! r) as [x|]; [|done].
    destruct (rec_state x); intros [= <-]. tk_with ltac:(apply onstop_keeps).
  - destruct (micPending (env s)); [done|]. intros [= <-].
    tk_with ltac:(apply startRecording_granted_keeps).
  - destruct (micPending (env s)); [done|]. intros [= <-].
    unfold startRecording_denied. tk_with fail.
  - destruct (transcribing (env s) !! k); [|done]. intros [= <-].
    unfold processAudio_transcribed, processAudio_catch. cbv zeta. tk_with fail.
  - destruct (chatPending (env s) !! k) as [q|]; [|done]. intros [= <-].
    cbv zeta. unfold processAudio_replied, handleTextSubmit_replied,
      processAudio_catch, update_language. tk_with fail.
  - destruct (calls (tts s) !! c) as [x|] eqn:Hx; [|done].
    case_decide; [|done]. intros [= <-]. apply speakResponse_fetched_keeps.
  - destruct (audio_of c s) as [a|]; [|done]. destruct (a_playing a); [|done].
    intros [= <-]. tk_with fail.
  - destruct (audio_of c s) as [a|]; [|done]. intros [= <-]. tk_with fail.
  - destruct (audio_of c s) as [a|]; [|done]. destruct (_ && _); [|done].
    intros [= <-]. tk_with fail.
  - destruct (audio_of c s) as [a|]; [|done]. destruct (a_playPending a); [|done].
    intros [= <-]. tk_with fail.
Qed.

Lemma step_keeps_timers t ev s s' :
  (forall k, ev <> TimerFire k) ->
  step ttsEnabled robotName t ev s = Some s' -> timers_kept s s'.
Proof.
  intros Hev. unfold step. destruct (_ <=? _)%Z; [|done].
  destruct (handle _ _ _ _) as [s1|] eqn:Hh; [|done]. cbn. intros [= <-].
  apply handle_keeps_timers in Hh; [|done].
  eapply timers_kept_trans; [|apply run_microtasks_keeps].
  destruct Hh as [l Hl]. by exists l.
Qed.

End Timers.

Lemma run_timer_keeps a : keeps_timers (run_timer a).
Proof.
  intros s. destruct a; cbn.
  - destruct (shouldContinueRef _); by apply timers_kept_eq.
  - by apply timers_kept_eq.
  - destruct (isRecordingRef _); [apply stopRecording_keeps|apply timers_kept_refl].
Qed.

Lemma step_timer_fire ttsEnabled robotName t k s s' :
  step ttsEnabled robotName t (TimerFire k) s = Some s' ->
  exists due a l, timers (env s) !! k = Some (due, a) /\ (due <= t)%Z
    /\ timers (env s') = delete k (timers (env s)) ++ l.
Proof.
  unfold step. destruct (_ <=? _)%Z; [|done]. cbn [handle].
  cbn [env with_env timers set_clock clock].
  destruct (timers (env s) !! k) as [[due a]|] eqn:Hk; [|done].
  destruct (due <=? t)%Z eqn:Hdue; [|done]. cbn. intros [= <-].
  set (s0 := with_env _ (with_env (set_clock t) s)).
  destruct (run_timer_keeps a s0) as [l1 H1].
  destruct (run_microtasks_keeps (run_timer a s0)) as [l2 H2].
  exists due, a, (l1 ++ l2). split; [done|]. split; [lia|].
  by rewrite H2, H1, app_assoc.
Qed.

(** C10. A pending 20 s timer stays pending through every task except
    its own firing: nothing cancels it.  Its callback does not depend on
    the session that set it: if the recording flag is set it stops the
    recorder held by [mediaRecorderRef] and clears the flag.  So a session
    that is recording when the timer of another session falls due is
    stopped by it, however young it is and whether or not speech was
    detected; and such a state is reached by an automatic restart in
    continuous mode, where the restarted session is stopped 13.6 s after
    its start with its own timer still pending. *)
Theorem stale_limit_timer_stops_later_session ttsEnabled robotName :
  (forall s t ev s' j due i,
     step ttsEnabled robotName t ev s = Some s' ->
     timers (env s) !! j = Some (due, max_record_time i) ->
     (exists j', timers (env s') !! j' = Some (due, max_record_time i))
     \/ (ev = TimerFire j /\ (due <= t)%Z))
  /\ (forall s i i',
        run_timer (max_record_time i) s = run_timer (max_record_time i') s
        /\ (isRecordingRef (refs s) = false -> run_timer (max_record_time i) s = s)
        /\ (isRecordingRef (refs s) = true ->
              isRecordingRef (refs (run_timer (max_record_time i) s)) = false
              /\ current_recorder_stopped s (run_timer (max_record_time i) s)))
  /\ (forall s t k due i j x,
        (clock (env s) <= t)%Z -> microtasks (env s) = [] ->
        timers (env s) !! k = Some (due, max_record_time i) -> (due <= t)%Z ->
        isRecordingRef (refs s) = true -> mediaRecorderRef (refs s) = Some j ->
        sessions (env s) !! j = Some x -> rec_state x = rec_recording ->
        exists s', step ttsEnabled robotName t (TimerFire k) s = Some s'
          /\ isRecordingRef (refs s') = false
          /\ speechDetectedRef (refs s') = speechDetectedRef (refs s)
          /\ exists x', sessions (env s') !! j = Some x' /\ rec_state x' = rec_stopping)
  /\ (exists s s' x,
        reachable true "VV" s
        /\ timers (env s) !! 0 = Some (21200%Z, max_record_time 0)
        /\ mediaRecorderRef (refs s) = Some 1
        /\ sessions (env s) !! 1 = Some x /\ started_at x = 7600%Z
        /\ rec_state x = rec_recording
        /\ step true "VV" 21200 (TimerFire 0) s = Some s'
        /\ speechDetectedRef (refs s') = false
        /\ (exists x', sessions (env s') !! 1 = Some x' /\ rec_state x' = rec_stopping)
        /\ timers (env s') = [(27600%Z, max_record_time 1)]).
Proof.
  split; [|split; [|split]].
  - intros s t ev s' j due i Hstep Hj.
    assert (Hcase : (exists k, ev = TimerFire k) \/ (forall k, ev <> TimerFire k)).
    { destruct ev; try (right; intros; discriminate). left. eauto. }
    destruct Hcase as [[k ->]|Hne].
    + destruct (step_timer_fire _ _ _ _ _ _ Hstep) as (due' & a & l & Hk & Hdue & Ht).
      destruct (decide (k = j)) as [->|Hkj].
      * right. rewrite Hj in Hk. injection Hk as <- <-. done.
      * left. destruct (decide (j < k)) as [Hlt|Hge].
        -- exists j. rewrite Ht. apply lookup_app_l_Some.
           by rewrite list_lookup_delete_lt.
        -- exists (pred j). rewrite Ht. apply lookup_app_l_Some.
           rewrite list_lookup_delete_ge by lia.
           replace (S (pred j)) with j by lia. done.
    + left. exists j. destruct (step_keeps_timers ttsEnabled robotName t ev s s') as [l Hl].
      * done.
      * done.
      * rewrite Hl. by apply lookup_app_l_Some.
  - intros s i i'. split; [done|]. split.
    + intros Hr. cbn. by rewrite Hr.
    + intros Hr. cbn. rewrite Hr.
      by destruct (stopRecording_stops s) as (H1 & _ & _ & _ & H5).
  - intros s t k due i j x Hclk Hmicro Hk Hdue Hrec Hmr Hx Hst.
    unfold step. rewrite (proj2 (Z.leb_le _ _) Hclk). cbn [handle].
    cbn [env with_env timers set_clock clock]. rewrite Hk.
    rewrite (proj2 (Z.leb_le _ _) Hdue). cbn [fmap option_fmap option_map run_timer].
    set (s0 := with_env _ (with_env (set_clock t) s)).
    assert (Hrec0 : isRecordingRef (refs s0) = true) by done.
    rewrite Hrec0.
    destruct (stopRecording_stops s0) as (H1 & H2 & _ & _ & H5).
    destruct (H5 j x) as (x' & Hx' & Hst'); try done.
    destruct (stopRecording_frame s0) as [_ Hm0].
    eexists. split; [reflexivity|].
    unfold run_microtasks. rewrite Hm0. cbn [s0 env with_env microtasks set_timers set_clock].
    rewrite Hmicro. cbn. rewrite H1, H2. eauto.
  - exists (state_after run_replied). eexists. eexists.
    split; [apply state_after_reachable; by vm_compute|].
    split; [by vm_compute|]. split; [by vm_compute|].
    split; [by vm_compute|]. split; [done|]. split; [done|].
    split; [by vm_compute|]. split; [done|]. split; [by eexists|]. done.
Qed.

(** ** Where capture sessions are not retired *)

(** [startRecording] and its continuation leave every existing session
    as it is. *)
Lemma startRecording_keeps_sessions s i x :
  sessions (env s) !! i = Some x ->
  sessions (env (startRecording_granted (startRecording s))) !! i = Some x.
Proof. intros Hx. cbn. by apply lookup_app_l_Some. Qed.

(** C3 does not hold for capture: [startRecording] stops nothing, and
    after one change of mode while listening in continuous mode two
    sessions hold a live microphone stream and record at once, the older
    one no longer referenced by any ref. *)
Theorem capture_sessions_overlap :
  (forall s i x, sessions (env s) !! i = Some x ->
     sessions (env (startRecording_granted (startRecording s))) !! i = Some x)
  /\ exists s x1 x2,
       run true "VV" run_mode_switch (init 1000 "en") = Some s
       /\ sessions (env s) !! 1 = Some x1 /\ sessions (env s) !! 2 = Some x2
       /\ stream_live x1 = true /\ rec_state x1 = rec_recording
       /\ stream_live x2 = true /\ rec_state x2 = rec_recording
       /\ streamRef (refs s) = Some 2 /\ mediaRecorderRef (refs s) = Some 2.
Proof.
  split; [apply startRecording_keeps_sessions|].
  eexists. eexists. eexists.
  split; [vm_compute; reflexivity|]. repeat split.
Qed.

(** C5 does not hold: after a stop requested while the microphone was
    being acquired, the session that then starts is still recording, with
    a live stream, 28.7 s after its start; its 20 s timer has fired
    without effect and nothing is left that would stop it. *)
Theorem session_outlives_limit :
  exists s x,
    run true "VV" run_stop_while_acquiring (init 1000 "en") = Some s
    /\ sessions (env s) !! 0 = Some x
    /\ rec_state x = rec_recording /\ stream_live x = true
    /\ started_at x = 1300%Z /\ clock (env s) = 30000%Z
    /\ (MAX_RECORD_TIME < clock (env s) - started_at x)%Z
    /\ timers (env s) = [] /\ rafPending (env s) = []
    /\ isRecordingRef (refs s) = false.
Proof.
  eexists. eexists.
  split; [vm_compute; reflexivity|]. repeat split.
Qed.

(** The same happens to the older of two overlapping sessions: the
    timers stop the recorder held by the ref, never the older one. *)
Lemma overlapped_recorder_never_stopped :
  exists s x,
    run true "VV"
      (run_mode_switch ++
       [ (21200, TimerFire 0); (22400, TimerFire 0); (25600, TimerFire 0) ]%Z)
      (init 1000 "en") = Some s
    /\ sessions (env s) !! 1 = Some x
    /\ rec_state x = rec_recording /\ stream_live x = true
    /\ started_at x = 2400%Z /\ clock (env s) = 25600%Z
    /\ timers (env s) = [].
Proof.
  eexists. eexists.
  split; [vm_compute; reflexivity|]. repeat split.
Qed.

(** ** The theorems at concrete states *)


Lemma sequence_numbers_guard_playback_witness :
  reachable true "VV" (state_after run_replied)
  /\ forall i x, calls (tts (state_after run_replied)) !! i = Some x ->
       (c_seq x <= ttsSeqRef (tts (state_after run_replied)))%Z.
Proof.
  assert (Hr : reachable true "VV" (state_after run_replied)).
  { apply state_after_reachable. vm_compute. discriminate. }
  split; [exact Hr|].
  exact (proj1 (proj2 (sequence_numbers_guard_playback true "VV" _ Hr))).
Defined.

Lemma vad_trailing_silence_stops_capture_witness :
  analyserRef (refs (state_after run_speech)) <> None
  /\ isRecordingRef (refs (state_after run_speech)) = true
  /\ speechDetectedRef (refs (state_after run_speech)) = true
  /\ isRecordingRef
       (refs (monitor_run [(3600%Z, quiet)]
                (monitor_run [(2000%Z, quiet)] (state_after run_speech)))) = false.
Proof.
  assert (H1 : analyserRef (refs (state_after run_speech)) <> None).
  { vm_compute. discriminate. }
  assert (H2 : isRecordingRef (refs (state_after run_speech)) = true).
  { vm_compute. reflexivity. }
  assert (H3 : speechDetectedRef (refs (state_after run_speech)) = true).
  { vm_compute. reflexivity. }
  split; [exact H1|]. split; [exact H2|]. split; [exact H3|].
  refine (proj1 (proj2 (proj2
    (vad_trailing_silence_stops_capture (state_after run_speech) H1 H2 H3)
      2000%Z quiet [] 3600%Z quiet _ _ _ _ _ _))).
  - vm_compute. reflexivity.
  - lia.
  - vm_compute. discriminate.
  - constructor.
  - vm_compute. discriminate.
  - vm_compute. reflexivity.
Defined.

Lemma no_speech_no_transcription_witness :
  speechDetectedRef (refs (state_after run_listening)) = false
  /\ transcribing (env (processAudio 0 (state_after run_listening))) =
     transcribing (env (state_after run_listening)).
Proof.
  assert (H : speechDetectedRef (refs (state_after run_listening)) = false).
  { vm_compute. reflexivity. }
  split; [exact H|].
  exact (proj1 (proj1 (proj2 (no_speech_no_transcription (state_after run_listening)))
                  H 0%Z)).
Defined.

Lemma transcription_failure_apology_witness :
  ("" = "")
  /\ jarvisPhase
       (ui (processAudio_transcribed true (transcribed "" true) (state_after run_heard)))
     = speaking.
Proof.
  split; [reflexivity|].
  exact (proj1 (proj1 (transcription_failure_apology true (state_after run_heard))
                  "" true (or_intror eq_refl))).
Defined.

Lemma stale_limit_timer_stops_later_session_witness :
  (clock (env (state_after run_replied)) <= 21200)%Z
  /\ microtasks (env (state_after run_replied)) = []
  /\ timers (env (state_after run_replied)) !! 0 = Some (21200%Z, max_record_time 0)
  /\ isRecordingRef (refs (state_after run_replied)) = true
  /\ mediaRecorderRef (refs (state_after run_replied)) = Some 1
  /\ exists s', step true "VV" 21200 (TimerFire 0) (state_after run_replied) = Some s'
       /\ isRecordingRef (refs s') = false.
Proof.
  assert (H1 : (clock (env (state_after run_replied)) <= 21200)%Z).
  { vm_compute. discriminate. }
  assert (H2 : microtasks (env (state_after run_replied)) = []).
  { vm_compute. reflexivity. }
  assert (H3 : timers (env (state_after run_replied)) !! 0
               = Some (21200%Z, max_record_time 0)).
  { vm_compute. reflexivity. }
  assert (H4 : isRecordingRef (refs (state_after run_replied)) = true).
  { vm_compute. reflexivity. }
  assert (H5 : mediaRecorderRef (refs (state_after run_replied)) = Some 1).
  { vm_compute. reflexivity. }
  do 5 (split; [assumption|]).
  destruct (proj1 (proj2 (proj2 (stale_limit_timer_stops_later_session true "VV")))
              (state_after run_replied) 21200%Z 0 21200%Z 0 1
              (new_session 7600) H1 H2 H3 ltac:(lia) H4 H5
              ltac:(vm_compute; reflexivity) eq_refl)
    as (s' & Hs' & Hrec & _).
  exists s'. split; assumption.
Defined.

(** * Further properties of the code *)

(** ** The energy level *)

Lemma sum_byte_data_bounds data :
  byte_data data ->
  (0 <= fold_right Z.add 0 data <= 255 * Z.of_nat (length data))%Z.
Proof.
  induction 1 as [|b data Hb _ IH]; cbn [fold_right length]; lia.
Qed.

(** X1. The level computed from byte data is a number between 0 and 1. *)
Theorem getAudioLevel_bounds data :
  byte_data data -> data <> [] ->
  (0 <= getAudioLevel data <= 1)%Q.
Proof.
  intros Hb Hne. pose proof (sum_byte_data_bounds data Hb) as Hs.
  unfold getAudioLevel. destruct data as [|b0 data0]; [done|].
  set (n := length (b0 :: data0)) in *.
  set (sm := fold_right Z.add 0%Z (b0 :: data0)) in *.
  assert (Hn : (0 < Z.of_nat n)%Z) by (unfold n; cbn [length]; lia).
  destruct (Z.of_nat n) as [|p|p] eqn:Hp; try lia.
  clearbody sm n. unfold Qle, Qdiv, Qmult, Qinv, inject_Z. cbn.
  rewrite !Pos2Z.inj_mul. split; nia.
Qed.

(** X2. With the analyser of the source (fftSize 512, hence 256 bins), a
    frame counts as speech exactly when its bytes sum to 980 or more. *)
Theorem speech_iff_sum_980 data :
  length data = 256 ->
  (isSpeaking (getAudioLevel data) = true <-> (980 <= fold_right Z.add 0 data)%Z).
Proof.
  intros Hlen. rewrite isSpeaking_true. unfold getAudioLevel. rewrite Hlen.
  change (Z.of_nat 256) with 256%Z.
  unfold SILENCE_THRESHOLD, Qlt, Qdiv, Qmult, Qinv, inject_Z. cbn. lia.
Qed.

(** ** Handlers and promise reactions of the player *)

Lemma playback_inv_same s s' :
  calls (tts s') = calls (tts s) ->
  (forall m, m ∈ microtasks (env s) -> m ∈ microtasks (env s')) ->
  PlaybackInv s -> PlaybackInv s'.
Proof.
  intros Hc Hm [H1 H2]. constructor; rewrite Hc; [done|].
  intros c x Hx Hr. by apply Hm, (H2 c x).
Qed.

Lemma playback_inv_frame f s :
  player_frame f -> PlaybackInv s -> PlaybackInv (f s).
Proof.
  intros Hf. destruct (Hf s) as [Ht Hm].
  apply playback_inv_same; [by rewrite Ht|by rewrite Hm].
Qed.

Lemma playback_inv_upd c f s :
  (forall x, audio_ok x -> audio_ok (f x)) ->
  (forall x, c_stage (f x) = resolved -> c_stage x = resolved) ->
  PlaybackInv s -> PlaybackInv (upd_call c f s).
Proof.
  intros Ha Hs [H1 H2]. constructor.
  - intros i y. unfold upd_call. cbn. intros (x & Hx & ->)%lookup_alter_inv.
    case_decide; [apply Ha|]; by eapply H1.
  - intros i y. unfold upd_call. cbn. intros (x & Hx & ->)%lookup_alter_inv Hr.
    apply (H2 i x Hx). case_decide; [by apply Hs|done].
Qed.

Lemma playback_inv_resolve c s :
  PlaybackInv s -> PlaybackInv (resolve_promise c s).
Proof.
  intros I. unfold resolve_promise.
  destruct (calls (tts s) !! c) as [x|] eqn:Hx; [|done].
  case_decide as Hp; [|done]. destruct I as [H1 H2]. constructor.
  - intros i y. cbn. intros (x0 & Hx0 & ->)%lookup_alter_inv.
    case_decide; exact (H1 i x0 Hx0).
  - intros i y. cbn. intros (x0 & Hx0 & ->)%lookup_alter_inv Hr.
    rewrite elem_of_app, list_elem_of_singleton.
    destruct (decide (c = i)) as [->|Hne]; [by right|]. left. by eapply H2.
Qed.

Ltac binv_step :=
  match goal with
  | H : PlaybackInv ?s |- PlaybackInv ?s => exact H
  | |- PlaybackInv (resolve_promise _ _) => apply playback_inv_resolve
  | |- PlaybackInv (upd_call _ _ _) =>
      apply playback_inv_upd;
        [intros ? HH; exact HH
        |first [intros ? HH; exact HH|intros ? HH; cbn in HH; done]|]
  | |- PlaybackInv (with_tts (set_ttsAbortRef _) ?s0) =>
      apply (playback_inv_same s0); [reflexivity|intros ? HH; exact HH|]
  | |- PlaybackInv (with_tts (set_ttsAudioRef _) ?s0) =>
      apply (playback_inv_same s0); [reflexivity|intros ? HH; exact HH|]
  | |- PlaybackInv (with_tts (set_ttsUrlRef _) ?s0) =>
      apply (playback_inv_same s0); [reflexivity|intros ? HH; exact HH|]
  | |- PlaybackInv (with_tts (set_ttsResolveRef _) ?s0) =>
      apply (playback_inv_same s0); [reflexivity|intros ? HH; exact HH|]
  | |- PlaybackInv (with_tts (set_ttsSeqRef _) ?s0) =>
      apply (playback_inv_same s0); [reflexivity|intros ? HH; exact HH|]
  | |- PlaybackInv (if ?b then _ else _) => destruct b
  | |- PlaybackInv (match ?x with _ => _ end) => destruct x
  end.

Lemma silence_audio_ok x : audio_ok (set_c_audio (silence_audio <$> c_audio x) x).
Proof. intros a. cbn. destruct (c_audio x); cbn; [|done]. by intros [= <-]. Qed.

Lemma stopTtsNow_playback s : PlaybackInv s -> PlaybackInv (stopTtsNow s).
Proof.
  intros I. unfold stopTtsNow.
  assert (I1 : PlaybackInv (abort_inflight_request s)).
  { unfold abort_inflight_request. repeat binv_step. }
  assert (I2 : PlaybackInv (stop_current_audio (abort_inflight_request s))).
  { revert I1. generalize (abort_inflight_request s). clear. intros s I.
    unfold stop_current_audio. destruct (ttsAudioRef (tts s)); [|done].
    binv_step. apply playback_inv_upd; [|done|done].
    intros x _. apply silence_audio_ok. }
  assert (I3 : PlaybackInv (release_blob_url (stop_current_audio (abort_inflight_request s)))).
  { revert I2. generalize (stop_current_audio (abort_inflight_request s)). clear.
    intros s I. unfold release_blob_url. repeat binv_step. }
  revert I3. generalize (release_blob_url (stop_current_audio (abort_inflight_request s))).
  clear. intros s I. unfold resolve_pending_speak. repeat binv_step.
Qed.

Lemma speakResponse_playback ttsEnabled text k s :
  PlaybackInv s -> PlaybackInv (speakResponse ttsEnabled text k s).
Proof.
  intros I. unfold speakResponse. destruct (negb ttsEnabled).
  - apply (playback_inv_same s); [done| |done].
    intros m Hm. cbn. rewrite elem_of_app. by left.
  - cbv zeta. apply stopTtsNow_playback in I. revert I.
    generalize (stopTtsNow s). clear. intros s [H1 H2]. constructor.
    + intros c x. cbn. intros [[_ Hx]|[_ ->]]%lookup_snoc_inv; [by eapply H1|done].
    + intros c x. cbn. intros [[_ Hx]|[_ ->]]%lookup_snoc_inv; [by eapply H2|done].
Qed.

Lemma cleanupAndResolve_playback c s :
  PlaybackInv s -> PlaybackInv (cleanupAndResolve c s).
Proof. intros I. unfold cleanupAndResolve. cbv zeta. repeat binv_step. Qed.

Lemma upd_audio_playback c f s :
  (forall a, a_playing (f a) = true ->
     a_playing a = true /\ a_onended (f a) = a_onended a /\ a_onerror (f a) = a_onerror a) ->
  PlaybackInv s -> PlaybackInv (upd_audio c f s).
Proof.
  intros Hf. apply playback_inv_upd; [|done].
  intros x Hx a. cbn. destruct (c_audio x) as [a0|] eqn:Ha0; cbn; [|done].
  intros [= <-] Hp. destruct (Hf a0 Hp) as (Hp0 & -> & ->). by apply Hx.
Qed.

Lemma finally_call_playback c s : PlaybackInv s -> PlaybackInv (finally_call c s).
Proof. intros I. unfold finally_call. repeat binv_step. Qed.

Lemma return_call_pending c q s :
  playback_pending (resume_call c :: q) s -> playback_pending q (return_call c s).
Proof.
  intros [H1 H2]. destruct (return_call_tts c s) as [Ht _].
  destruct (finally_call_refs c s) as (_ & _ & _ & _ & Hc & _).
  split; rewrite Ht; unfold upd_call; cbn; rewrite Hc.
  - intros i y (x & Hx & ->)%lookup_alter_inv. case_decide; exact (H1 i x Hx).
  - intros i y (x & Hx & ->)%lookup_alter_inv.
    case_decide as Hci; [done|]. intros Hr.
    specialize (H2 i x Hx Hr). apply elem_of_cons in H2 as [[= ->]|]; done.
Qed.

Lemma return_call_playback c s :
  PlaybackInv s -> PlaybackInv (return_call c s).
Proof.
  intros [H1 H2].
  destruct (return_call_pending c (microtasks (env s)) s) as [H3 H4].
  { split; [done|]. intros i x Hx Hr. right. by eapply H2. }
  constructor; [done|]. intros i x Hx Hr.
  destruct (return_call_tts c s) as [_ ->]. by eapply H4.
Qed.

Lemma speakResponse_fetched_playback c res s :
  PlaybackInv s -> PlaybackInv (speakResponse_fetched c res s).
Proof.
  intros I. unfold speakResponse_fetched.
  destruct (calls (tts s) !! c) as [x|]; [|done].
  destruct res; try by apply return_call_playback.
  case_decide; [by apply return_call_playback|].
  apply playback_inv_upd; [|intros ? HH; exact HH|].
  { intros y _ a. cbn. by intros [= <-]. }
  repeat binv_step.
Qed.

Lemma run_micro_fold_pending q s :
  playback_pending q s ->
  playback_pending [] (fold_left (fun s m => run_micro m s) q s).
Proof.
  revert s. induction q as [|m q IH]; intros s H; [done|].
  cbn [fold_left]. apply IH. destruct m as [c|k]; cbn.
  - by apply return_call_pending.
  - destruct H as [H1 H2]. destruct (run_cont_frame k s) as [Ht _].
    split; rewrite Ht; [done|]. intros c x Hx Hr.
    specialize (H2 c x Hx Hr). apply elem_of_cons in H2 as [[=]|]; done.
Qed.

(** When the promise reactions have run no call is left between the
    resolution of its promise and its return. *)
Lemma run_microtasks_playback s :
  PlaybackInv s ->
  PlaybackInv (run_microtasks s)
  /\ forall c x, calls (tts (run_microtasks s)) !! c = Some x -> c_stage x <> resolved.
Proof.
  intros [H1 H2].
  destruct (run_micro_fold_pending (microtasks (env s)) (with_env (set_microtasks []) s))
    as [H3 H4]; [by split|].
  fold (run_microtasks s) in H3, H4. split.
  - constructor; [done|]. intros c x Hx Hr.
    specialize (H4 c x Hx Hr). by apply elem_of_nil in H4.
  - intros c x Hx Hr. specialize (H4 c x Hx Hr). by apply elem_of_nil in H4.
Qed.

Lemma playback_inv_with_ui f s : PlaybackInv s -> PlaybackInv (with_ui f s).
Proof. by apply playback_inv_frame. Qed.

Lemma playback_inv_with_refs f s : PlaybackInv s -> PlaybackInv (with_refs f s).
Proof. by apply playback_inv_frame. Qed.

Lemma playback_inv_with_env f s :
  (forall e, microtasks (f e) = microtasks e) ->
  PlaybackInv s -> PlaybackInv (with_env f s).
Proof. intros Hf. apply playback_inv_frame. intros s'. split; [done|]. apply Hf. Qed.

Ltac binv_frame :=
  apply playback_inv_frame;
  [first [ apply update_language_frame | apply cancel_monitor_frame
         | apply stop_recorder_if_recording_frame | apply release_stream_frame
         | apply startRecording_frame | apply startRecording_granted_frame
         | apply unmount_frame | apply monitorAudio_frame | apply onstop_frame
         | apply ondataavailable_frame | apply run_timer_frame
         | apply handleTextSubmit_frame | apply run_cont_frame
         | apply stopRecording_frame | apply processAudio_frame ]|].

Ltac binv_handler :=
  repeat first
    [ match goal with
      | H : PlaybackInv ?s |- PlaybackInv ?s => exact H
      | |- PlaybackInv (speakResponse _ _ _ _) => apply speakResponse_playback
      | |- PlaybackInv (stopTtsNow _) => apply stopTtsNow_playback
      | |- PlaybackInv (cleanupAndResolve _ _) => apply cleanupAndResolve_playback
      | |- PlaybackInv (with_ui _ _) => apply playback_inv_with_ui
      | |- PlaybackInv (with_refs _ _) => apply playback_inv_with_refs
      | |- PlaybackInv (with_env _ _) => apply playback_inv_with_env; [done|]
      | |- PlaybackInv (cancelAnimationFrame _ _) => apply playback_inv_with_env; [done|]
      | |- PlaybackInv (upd_session _ _ _) => apply playback_inv_with_env; [done|]
      | |- PlaybackInv (setTimeout _ _ _) => apply playback_inv_with_env; [done|]
      | |- PlaybackInv (?f _ _) =>
          first [ unify f setJarvisPhase | unify f setIsListening
                | unify f setConversationActive | unify f setAudioLevel
                | unify f setIsLoading | unify f setCurrentMode
                | unify f setCurrentView | unify f setCurrentLanguage
                | unify f addMessage ];
          apply playback_inv_with_ui
      | |- PlaybackInv (clearMessages _) => apply playback_inv_with_ui
      end
    | binv_frame
    | match goal with
      | |- PlaybackInv (if ?b then _ else _) => destruct b
      | |- PlaybackInv (match ?x with _ => _ end) => destruct x
      end ].

Lemma handle_playback ttsEnabled robotName ev s s' :
  PlaybackInv s -> handle ttsEnabled robotName ev s = Some s' -> PlaybackInv s'.
Proof.
  intros I. destruct ev; cbn [handle].
  - destruct (mounted (ui s)); [|done]. intros [= <-].
    unfold handleMicClick, stopConversation, startConversation. cbv zeta. binv_handler.
  - destruct (mounted (ui s)) eqn:Hm; [|done]. intros [= <-].
    unfold handleNavClick, handleModeSwitch. cbv zeta. binv_handler.
  - destruct (mounted (ui s)); [|done]. intros [= <-]. binv_handler.
  - case_bool_decide; [|done]. intros [= <-]. binv_handler.
  - destruct (timers (env s) !! k) as [[due a]|]; [|done].
    destruct (due <=? _)%Z; [|done]. intros [= <-]. binv_handler.
  - destruct (sessions (env s) !! r) as [x|]; [|done].
    destruct (rec_state x); intros [= <-]; binv_handler.
  - destruct (sessions (env s) !! r) as [x|]; [|done].
    destruct (rec_state x); intros [= <-]; binv_handler.
  - destruct (micPending (env s)); [done|]. intros [= <-]. binv_handler.
  - destruct (micPending (env s)); [done|]. intros [= <-].
    unfold startRecording_denied. binv_handler.
  - destruct (transcribing (env s) !! k); [|done]. intros [= <-].
    unfold processAudio_transcribed, processAudio_catch. cbv zeta. binv_handler.
  - destruct (chatPending (env s) !! k) as [q|]; [|done]. intros [= <-].
    cbv zeta. unfold processAudio_replied, handleTextSubmit_replied, processAudio_catch.
    binv_handler.
  - destruct (calls (tts s) !! c) as [x|] eqn:Hx; [|done].
    case_decide; [|done]. intros [= <-]. by apply speakResponse_fetched_playback.
  - destruct (audio_of c s) as [a|]; [|done]. destruct (a_playing a); [|done].
    intros [= <-].
    assert (PlaybackInv (upd_audio c (set_a_playing false) s))
      by (by apply upd_audio_playback).
    binv_handler.
  - destruct (audio_of c s) as [a|]; [|done]. intros [= <-].
    assert (PlaybackInv (upd_audio c (set_a_playing false) s))
      by (by apply upd_audio_playback).
    binv_handler.
  - destruct (audio_of c s) as [a|]; [|done]. destruct (_ && _); [|done].
    intros [= <-]. by apply upd_audio_playback.
  - destruct (audio_of c s) as [a|]; [|done]. destruct (a_playPending a); [|done].
    intros [= <-]. apply cleanupAndResolve_playback. by apply upd_audio_playback.
Qed.

Lemma init_playback t0 language : PlaybackInv (init t0 language).
Proof. by constructor. Qed.

Lemma reachable_playback ttsEnabled robotName s :
  reachable ttsEnabled robotName s ->
  PlaybackInv s
  /\ forall c x, calls (tts s) !! c = Some x -> c_stage x <> resolved.
Proof.
  induction 1 as [t0 l|s t ev s' _ [I _] Hstep].
  - split; [apply init_playback|done].
  - unfold step in Hstep. destruct (_ <=? _)%Z; [|done].
    destruct (handle _ _ _ _) as [s1|] eqn:Hh; [|done]. cbn in Hstep.
    injection Hstep as <-. apply run_microtasks_playback.
    eapply handle_playback; [|exact Hh]. by apply playback_inv_with_env.
Qed.

(** ** The player between tasks *)

Section PlayerBetweenTasks.
Variable ttsEnabled : bool.
Variable robotName : string.

(** X3. No caller of [speakResponse] hangs: between two tasks every call
    has returned to its caller, or awaits its fetch, or awaits its
    playback promise; in the last case the call is the latest one and its
    promise, audio element and blob URL are the ones held by the refs, so
    that the end of playback, a playback error or [stopTtsNow] resolves
    it.  A fetch that was not aborted belongs to the latest call. *)
Theorem speak_callers_never_hang s c x :
  reachable ttsEnabled robotName s ->
  calls (tts s) !! c = Some x ->
  (c_stage x = returned \/ c_stage x = fetching \/ c_stage x = playing)
  /\ (c_stage x = playing ->
        ttsResolveRef (tts s) = Some c /\ ttsAudioRef (tts s) = Some c
        /\ ttsUrlRef (tts s) = Some c /\ S c = length (calls (tts s)))
  /\ (c_stage x = fetching -> c_aborted x = false ->
        ttsAbortRef (tts s) = Some c /\ S c = length (calls (tts s))).
Proof.
  intros Hr Hx. destruct (reachable_inv _ _ _ Hr) as [I _].
  destruct (reachable_playback _ _ _ Hr) as [_ Hres].
  specialize (Hres c x Hx). split; [|split].
  - destruct (c_stage x); auto. done.
  - intros Hp. apply (pinv_stage_playing _ _ _ I c x Hx) in Hp.
    rewrite (pinv_refs_audio _ _ _ I), (pinv_refs_url _ _ _ I).
    repeat split; try done. by apply (pinv_resolve_last _ _ _ I).
  - intros Hf Hab. pose proof (pinv_fetching _ _ _ I c x Hx Hf Hab) as Ha.
    split; [done|]. by apply (pinv_abort_last _ _ _ I).
Qed.

(** X4. Nothing of a finished call is kept: a blob URL that was created
    and not yet revoked, and an audio element that sounds, belong to the
    call held by [ttsUrlRef] and [ttsAudioRef], which is the latest call
    and awaits its playback promise.  So at most one blob URL is live, and
    a call that has returned has its URL revoked and its element silent. *)
Theorem player_resources_released s :
  reachable ttsEnabled robotName s ->
  (forall c x, calls (tts s) !! c = Some x ->
     c_urlLive x = true \/ (exists a, c_audio x = Some a /\ a_playing a = true) ->
     c_stage x = playing /\ ttsUrlRef (tts s) = Some c /\ ttsAudioRef (tts s) = Some c
     /\ S c = length (calls (tts s)))
  /\ (forall c c' x x', calls (tts s) !! c = Some x -> calls (tts s) !! c' = Some x' ->
        c_urlLive x = true -> c_urlLive x' = true -> c = c')
  /\ (forall c x, calls (tts s) !! c = Some x -> c_stage x = returned ->
        c_urlLive x = false /\ forall a, c_audio x = Some a -> a_playing a = false).
Proof.
  intros Hr. destruct (reachable_inv _ _ _ Hr) as [I _].
  assert (H1 : forall c x, calls (tts s) !! c = Some x ->
     c_urlLive x = true \/ (exists a, c_audio x = Some a /\ a_playing a = true) ->
     c_stage x = playing /\ ttsUrlRef (tts s) = Some c /\ ttsAudioRef (tts s) = Some c
     /\ S c = length (calls (tts s))).
  { intros c x Hx Hlive.
    assert (Hp : c_stage x = playing).
    { destruct Hlive as [Hu|(a & Ha & Hpl)];
        [by apply (pinv_url _ _ _ I c x)|by apply (pinv_audible _ _ _ I c x a)]. }
    split; [done|]. apply (pinv_stage_playing _ _ _ I c x Hx) in Hp.
    rewrite (pinv_refs_audio _ _ _ I), (pinv_refs_url _ _ _ I).
    repeat split; try done. by apply (pinv_resolve_last _ _ _ I). }
  split; [exact H1|]. split.
  - intros c c' x x' Hx Hx' Hu Hu'.
    destruct (H1 c x Hx (or_introl Hu)) as (_ & _ & _ & Hc).
    destruct (H1 c' x' Hx' (or_introl Hu')) as (_ & _ & _ & Hc'). lia.
  - intros c x Hx Hret. split.
    + destruct (c_urlLive x) eqn:Hu; [|done].
      destruct (H1 c x Hx (or_introl Hu)) as (Hp & _). congruence.
    + intros a Ha. destruct (a_playing a) eqn:Hpl; [|done].
      destruct (H1 c x Hx (or_intror (ex_intro _ a (conj Ha Hpl)))) as (Hp & _).
      congruence.
Qed.

End PlayerBetweenTasks.

(** ** The end of playback *)

Lemma run_cont_indep k s1 s2 :
  ui s1 = ui s2 -> refs s1 = refs s2 -> env s1 = env s2 ->
  ui (run_cont k s1) = ui (run_cont k s2)
  /\ refs (run_cont k s1) = refs (run_cont k s2)
  /\ env (run_cont k s1) = env (run_cont k s2).
Proof.
  destruct s1 as [u1 r1 t1 e1], s2 as [u2 r2 t2 e2]. cbn. intros -> -> ->.
  destruct k; cbn; try destruct (shouldContinueRef r2); done.
Qed.

Lemma env_microtasks_reset e l :
  microtasks e = [] -> set_microtasks [] (set_microtasks l e) = e.
Proof. destruct e. cbn. by intros ->. Qed.

Section PlaybackEnd.
Variable ttsEnabled : bool.
Variable robotName : string.

(** What the end of the audio of the current call does, in one task:
    the handler [cleanupAndResolve], then the return of [speakResponse]
    and the continuation of its caller. *)
Lemma cleanup_then_return n c x s :
  PlayerInv ttsEnabled n s -> microtasks (env s) = [] ->
  calls (tts s) !! c = Some x -> ttsResolveRef (tts s) = Some c ->
  let s' := run_microtasks (cleanupAndResolve c s) in
  tts s' = Build_Tts None None None (ttsSeqRef (tts s))
             None
             (alter (fun y => set_c_stage returned (set_c_urlLive false y)) c
                (calls (tts s)))
  /\ ui s' = ui (run_cont (c_cont x) s)
  /\ refs s' = refs (run_cont (c_cont x) s)
  /\ env s' = env (run_cont (c_cont x) s).
Proof.
  intros I Hm Hx Hres. cbv zeta.
  rewrite (cleanupAndResolve_current ttsEnabled n c s I Hres).
  set (s1 := queueMicrotask _ _).
  assert (Hm1 : microtasks (env s1) = [resume_call c]) by (cbn; by rewrite Hm).
  rewrite (run_microtasks_single c s1 Hm1).
  set (s2 := with_env (set_microtasks []) s1).
  assert (Hab : ttsAbortRef (tts (finally_call c s2)) = None).
  { destruct (ttsAbortRef (tts (finally_call c s2))) as [i|] eqn:Hi; [|done].
    destruct (finally_call_refs c s2) as (_ & _ & _ & _ & _ & _ & Hf).
    destruct (Hf i Hi) as [Hne Hi']. cbn in Hi'.
    pose proof (pinv_abort_last _ _ _ I i Hi').
    pose proof (pinv_resolve_last _ _ _ I c Hres). lia. }
  destruct (finally_call_refs c s2) as (Ha & Hu & Hr & Hs & Hc & He & _).
  assert (Hui : ui (finally_call c s2) = ui s /\ refs (finally_call c s2) = refs s).
  { unfold finally_call. by case_decide. }
  destruct Hui as [Hui Hrefs].
  unfold return_call. cbv zeta.
  set (s3 := upd_call c (set_c_stage returned) (finally_call c s2)) in *.
  assert (H3 : calls (tts s3) !! c =
               Some (set_c_stage returned (set_c_stage resolved (set_c_urlLive false x)))).
  { unfold s3, upd_call. cbn. rewrite Hc. cbn.
    by rewrite !list_lookup_alter_eq, Hx. }
  rewrite H3. cbn [c_cont set_c_stage set_c_urlLive].
  destruct (run_cont_frame (c_cont x) s3) as [Ht _]. rewrite Ht.
  split.
  - unfold s3, upd_call. cbn [tts with_tts].
    destruct (tts (finally_call c s2)) as [fa fu fb fs fr fc] eqn:Ef.
    cbn in Ha, Hu, Hr, Hs, Hc, Hab |- *. subst. unfold set_calls. cbn.
    f_equal. rewrite !list_alter_alter_eq. apply list_alter_ext; [|done].
    by intros [].
  - apply run_cont_indep.
    + unfold s3. cbn. by rewrite Hui.
    + unfold s3. cbn. by rewrite Hrefs.
    + unfold s3. cbn. rewrite He. cbn. by apply env_microtasks_reset.
Qed.

Lemma audible_handlers c s :
  reachable ttsEnabled robotName s -> audible c s ->
  exists x a, calls (tts s) !! c = Some x /\ audio_of c s = Some a
    /\ a_playing a = true /\ a_onended a = true /\ a_onerror a = true
    /\ ttsResolveRef (tts s) = Some c.
Proof.
  intros Hr (x & a & Hx & Ha & Hp).
  destruct (reachable_inv _ _ _ Hr) as [I _].
  destruct (reachable_playback _ _ _ Hr) as [[Hh _] _].
  destruct (Hh c x Hx a Ha Hp) as [He Her].
  exists x, a. unfold audio_of. rewrite Hx. cbn.
  repeat split; try done.
  apply (pinv_stage_playing _ _ _ I c x Hx). by apply (pinv_audible _ _ _ I c x a).
Qed.

(** X5. When the audio of a call comes to its end, or fails, while it
    sounds, the task of that event releases everything and resumes the
    caller: the four refs of the player are cleared, the blob URL is
    revoked, the call has returned, nothing sounds, and the rest of the
    state is what the continuation of the caller of [speakResponse]
    makes of it. *)
Theorem playback_end_resumes_caller s c x t ev :
  reachable ttsEnabled robotName s ->
  calls (tts s) !! c = Some x -> audible c s ->
  ev = AudioEnded c \/ ev = AudioError c ->
  (clock (env s) <= t)%Z ->
  exists s' x',
    step ttsEnabled robotName t ev s = Some s'
    /\ ttsAudioRef (tts s') = None /\ ttsUrlRef (tts s') = None
    /\ ttsResolveRef (tts s') = None /\ ttsAbortRef (tts s') = None
    /\ calls (tts s') !! c = Some x'
    /\ c_stage x' = returned /\ c_urlLive x' = false
    /\ (forall i, ~ audible i s')
    /\ ui s' = ui (run_cont (c_cont x) (with_env (set_clock t) s))
    /\ refs s' = refs (run_cont (c_cont x) (with_env (set_clock t) s))
    /\ env s' = env (run_cont (c_cont x) (with_env (set_clock t) s)).
Proof.
  intros Hr Hx Hau Hev Hclk.
  destruct (audible_handlers c s Hr Hau) as (x0 & a & Hx0 & Ha & Hp & He & Her & Hres).
  rewrite Hx in Hx0. injection Hx0 as <-.
  destruct (reachable_inv _ _ _ Hr) as [I Hm].
  set (st := with_env (set_clock t) s).
  set (sa := upd_audio c (set_a_playing false) st).
  assert (Ist : PlayerInv ttsEnabled 0 st) by (by apply player_inv_with_env).
  assert (Isa : PlayerInv ttsEnabled 0 sa) by (by apply upd_audio_inv).
  assert (Hxa : calls (tts sa) !! c = Some (set_c_audio (set_a_playing false <$> c_audio x) x)).
  { by apply upd_audio_lookup. }
  assert (Hh : handle ttsEnabled robotName ev st = Some (cleanupAndResolve c sa)).
  { destruct Hev as [-> | ->]; cbn [handle];
      change (audio_of c st) with (audio_of c s); rewrite Ha, ?Hp, ?He, ?Her; done. }
  destruct (cleanup_then_return 0 c _ sa Isa Hm Hxa Hres) as (Ht & Hui & Hrefs & Henv).
  cbn [c_cont set_c_audio] in Hui, Hrefs, Henv.
  set (s' := run_microtasks (cleanupAndResolve c sa)) in *.
  assert (Hstep : step ttsEnabled robotName t ev s = Some s').
  { unfold step. rewrite (proj2 (Z.leb_le _ _) Hclk). fold st. by rewrite Hh. }
  assert (Hr' : reachable ttsEnabled robotName s') by (by eapply reachable_step).
  destruct (reachable_inv _ _ _ Hr') as [I' _].
  exists s'. eexists. split; [exact Hstep|]. rewrite Ht.
  cbn [ttsAudioRef ttsUrlRef ttsResolveRef ttsAbortRef calls].
  do 4 (split; [done|]). split.
  { rewrite list_lookup_alter_eq, Hxa. reflexivity. }
  do 2 (split; [done|]). split.
  { intros i Hi. destruct (audible_latest ttsEnabled 0 s' i I' Hi) as [_ Hai].
    rewrite Ht in Hai. done. }
  destruct (run_cont_indep (c_cont x) sa st) as (E1 & E2 & E3); try done.
  rewrite Hui, Hrefs, Henv. done.
Qed.

End PlaybackEnd.

(** ** The outcome of the fetch, and the player when speech is off *)

Section FetchOutcome.
Variable ttsEnabled : bool.
Variable robotName : string.

Lemma return_call_rest c x s :
  calls (tts s) !! c = Some x ->
  ui (return_call c s) = ui (run_cont (c_cont x) s)
  /\ refs (return_call c s) = refs (run_cont (c_cont x) s)
  /\ env (return_call c s) = env (run_cont (c_cont x) s).
Proof.
  intros Hx. unfold return_call. cbv zeta.
  destruct (finally_call_refs c s) as (_ & _ & _ & _ & Hc & He & _).
  assert (Hui : ui (finally_call c s) = ui s /\ refs (finally_call c s) = refs s).
  { unfold finally_call. by case_decide. }
  destruct Hui as [Hui Hrefs].
  set (s1 := upd_call c (set_c_stage returned) (finally_call c s)).
  assert (H1 : calls (tts s1) !! c = Some (set_c_stage returned x)).
  { unfold s1, upd_call. cbn. by rewrite Hc, list_lookup_alter_eq, Hx. }
  rewrite H1. cbn [c_cont set_c_stage]. by apply run_cont_indep.
Qed.

(** X6. The two outcomes of the request for the audio of a call.  If the
    request was not aborted and succeeds, the call is the current one and
    its audio is played: the element sounds, the refs hold its element,
    URL and promise, and the caller is not resumed yet.  If the request
    fails, or is rejected for an abort, nothing is played, no element or
    URL is created, and the caller is resumed at once as if the speech had
    ended. *)
Theorem fetch_outcome s c x :
  reachable ttsEnabled robotName s ->
  calls (tts s) !! c = Some x -> c_stage x = fetching ->
  (c_aborted x = false ->
     let s' := speakResponse_fetched c fetch_ok s in
     audible c s'
     /\ ttsAudioRef (tts s') = Some c /\ ttsUrlRef (tts s') = Some c
     /\ ttsResolveRef (tts s') = Some c
     /\ (exists x', calls (tts s') !! c = Some x' /\ c_stage x' = playing
           /\ c_urlLive x' = true /\ c_audio x' = Some started_audio)
     /\ ui s' = ui s /\ refs s' = refs s /\ env s' = env s)
  /\ (forall res, res <> fetch_ok ->
     let s' := speakResponse_fetched c res s in
     (exists x', calls (tts s') !! c = Some x' /\ c_stage x' = returned
        /\ c_audio x' = None /\ c_urlLive x' = false)
     /\ (forall i, audible i s' -> audible i s)
     /\ ui s' = ui (run_cont (c_cont x) s)
     /\ refs s' = refs (run_cont (c_cont x) s)
     /\ env s' = env (run_cont (c_cont x) s)).
Proof.
  intros Hr Hx Hf. destruct (reachable_inv _ _ _ Hr) as [I _]. split.
  - intros Hab. cbv zeta. unfold speakResponse_fetched. rewrite Hx.
    pose proof (pinv_fetching _ _ _ I c x Hx Hf Hab) as Ha.
    pose proof (pinv_abort_last _ _ _ I c Ha) as Hlast.
    rewrite decide_False.
    2:{ intros Hne. apply Hne.
        rewrite (pinv_seq _ _ _ I c x Hx), (pinv_seq_ref _ _ _ I). by rewrite Hlast. }
    assert (Hl : calls (tts
        (upd_call c (set_c_audio (Some started_audio))
           (with_tts (set_ttsResolveRef (Some c))
              (upd_call c (set_c_stage playing)
                 (with_tts (set_ttsAudioRef (Some c))
                    (with_tts (set_ttsUrlRef (Some c))
                       (upd_call c (set_c_urlLive true) s))))))) !! c =
        Some (set_c_audio (Some started_audio)
                (set_c_stage playing (set_c_urlLive true x)))).
    { unfold upd_call. cbn. by rewrite !list_lookup_alter_eq, Hx. }
    split; [|split; [done|split; [done|split; [done|split]]]].
    + eexists. exists started_audio. split; [exact Hl|]. done.
    + eexists. split; [exact Hl|]. done.
    + done.
  - intros res Hres. cbv zeta.
    assert (Hret : speakResponse_fetched c res s = return_call c s).
    { unfold speakResponse_fetched. rewrite Hx. by destruct res. }
    rewrite Hret. split; [|split].
    + exists (set_c_stage returned x). split; [by apply return_call_lookup|].
      cbn. split; [done|]. split; [by apply (pinv_fetching_audio _ _ _ I c x)|].
      destruct (c_urlLive x) eqn:Hu; [|done].
      pose proof (pinv_url _ _ _ I c x Hx Hu). congruence.
    + intros i (y & a & Hy & Hya & Hp).
      destruct (return_call_tts c s) as [Ht _]. rewrite Ht in Hy.
      destruct (finally_call_refs c s) as (_ & _ & _ & _ & Hc & _).
      unfold upd_call in Hy. cbn in Hy. rewrite Hc in Hy.
      apply lookup_alter_inv in Hy as (y0 & Hy0 & ->).
      exists y0, a. split; [done|]. split; [|done].
      by case_decide.
    + by apply return_call_rest.
Qed.

End FetchOutcome.

(** X7. With text-to-speech switched off the player does nothing at all:
    in every reachable state no request was ever made, no sequence number
    was issued, every ref is empty and nothing sounds; and a call of
    [speakResponse] returns at its guard, so that its caller goes on in
    the same task exactly as if the speech had ended. *)
Theorem speech_off_player_idle robotName s :
  reachable false robotName s ->
  tts s = Build_Tts None None None 0 None []
  /\ (forall c, ~ audible c s)
  /\ forall text k,
       run_microtasks (speakResponse false text k s) = run_cont k s.
Proof.
  intros Hr. destruct (reachable_inv _ _ _ Hr) as [I Hm].
  pose proof (pinv_disabled _ _ _ I eq_refl) as Hc.
  assert (Ht : tts s = Build_Tts None None None 0 None []).
  { pose proof (pinv_seq_ref _ _ _ I) as Hs. rewrite Hc in Hs. cbn in Hs.
    pose proof (pinv_refs_audio _ _ _ I) as Ha.
    pose proof (pinv_refs_url _ _ _ I) as Hu.
    pose proof (pinv_resolve_last _ _ _ I) as Hrl.
    pose proof (pinv_abort_last _ _ _ I) as Hal.
    rewrite Hc in Hrl, Hal. cbn in Hrl, Hal.
    destruct (tts s) as [a u b q r l]. cbn in *. subst.
    destruct r as [i|]; [by specialize (Hrl i eq_refl)|].
    destruct b as [i|]; [by specialize (Hal i eq_refl)|]. done. }
  split; [exact Ht|]. split.
  - intros c (x & a & Hx & _). by rewrite Hc in Hx.
  - intros text k. unfold speakResponse, run_microtasks. cbn.
    rewrite Hm. cbn. f_equal. destruct s as [u r t e]. cbn in *.
    unfold with_env. cbn. f_equal. by apply env_microtasks_reset.
Qed.

(** ** The turn pipeline on success, and its error paths *)

Lemma speakResponse_effect ttsEnabled text k s :
  let s' := speakResponse ttsEnabled text k s in
  ui s' = ui s /\ refs s' = refs s
  /\ clock (env s') = clock (env s) /\ sessions (env s') = sessions (env s)
  /\ rafPending (env s') = rafPending (env s)
  /\ timers (env s') = timers (env s) /\ micPending (env s') = micPending (env s)
  /\ transcribing (env s') = transcribing (env s)
  /\ chatPending (env s') = chatPending (env s)
  /\ (ttsEnabled = true ->
        calls (tts s') !! length (calls (tts s)) =
          Some (new_call (ttsSeqRef (tts s) + 1) text k)
        /\ length (calls (tts s')) = S (length (calls (tts s)))
        /\ ttsAbortRef (tts s') = Some (length (calls (tts s))))
  /\ (ttsEnabled = false ->
        tts s' = tts s /\ microtasks (env s') = microtasks (env s) ++ [resume_cont k]).
Proof.
  cbv zeta. destruct (speakResponse_player_only ttsEnabled text k s) as (Hu & Hr & He).
  apply env_eq_but_microtasks in He as (H1 & H2 & H3 & _ & H5 & H6 & H7 & H8).
  destruct (speakResponse_request ttsEnabled text k s) as [Hon Hoff].
  do 9 (split; [done|]). split; [|done].
  intros Hen. destruct (Hon Hen) as [Hl Hlen]. do 2 (split; [done|]).
  unfold speakResponse. rewrite Hen. cbn. by rewrite stopTtsNow_length.
Qed.

Section Turn.
Variable ttsEnabled : bool.
Variable robotName : string.

(** X8. A turn that is understood.  A transcription that succeeded with
    a text adds the text to the transcript as the user's message and
    calls [api.chat] with it and the current mode; nothing is spoken.  A
    reply of the service that names no language is added to the
    transcript as the assistant's message and is spoken, after which the
    turn ends as after the apology for a failed transcription; a failure
    of the service adds no message and has the generic apology spoken
    instead. *)
Theorem understood_turn_is_answered s :
  (forall text, text <> "" ->
     let s' := processAudio_transcribed ttsEnabled (transcribed text true) s in
     messages (ui s') = messages (ui s) ++ [{| role := user; content := text |}]
     /\ (exists q, chatPending (env s') = chatPending (env s) ++ [q]
           /\ q_origin q = from_voice /\ q_text q = text
           /\ q_mode q = currentMode (ui s))
     /\ jarvisPhase (ui s') = jarvisPhase (ui s)
     /\ tts s' = tts s /\ refs s' = refs s /\ timers (env s') = timers (env s)
     /\ microtasks (env s') = microtasks (env s))
  /\ (forall response,
     let s' := processAudio_replied ttsEnabled (chat_ok response None) s in
     messages (ui s') =
          messages (ui s) ++ [{| role := assistant; content := response |}]
     /\ jarvisPhase (ui s') = speaking
     /\ refs s' = refs s /\ timers (env s') = timers (env s)
     /\ chatPending (env s') = chatPending (env s)
     /\ (ttsEnabled = true ->
           calls (tts s') !! length (calls (tts s)) =
             Some (new_call (ttsSeqRef (tts s) + 1) response after_reply))
     /\ (ttsEnabled = false ->
           microtasks (env s') = microtasks (env s) ++ [resume_cont after_reply]))
  /\ (let s' := processAudio_replied ttsEnabled chat_threw s in
      messages (ui s') = messages (ui s)
      /\ jarvisPhase (ui s') = speaking
      /\ (ttsEnabled = true ->
            calls (tts s') !! length (calls (tts s)) =
              Some (new_call (ttsSeqRef (tts s) + 1) "Sorry, something went wrong!"
                      after_error_apology))
      /\ (ttsEnabled = false ->
            microtasks (env s') = microtasks (env s) ++ [resume_cont after_error_apology]))
  /\ run_cont after_reply s = run_cont after_transcribe_apology s.
Proof.
  split; [|split; [|split]].
  - intros text Hne. cbv zeta. unfold processAudio_transcribed.
    destruct text as [|ch text]; [done|]. cbn. do 1 (split; [done|]).
    split; [eexists; done|done].
  - intros response. cbv zeta. unfold processAudio_replied, update_language.
    set (s1 := addMessage _ (setJarvisPhase speaking s)).
    destruct (speakResponse_effect ttsEnabled response after_reply s1)
      as (Hu & Hr & _ & _ & _ & Ht & _ & _ & Hc & Hon & Hoff).
    rewrite Hu, Hr, Ht, Hc. do 5 (split; [done|]).
    split; [intros Hen; by destruct (Hon Hen)|].
    intros Hen; by destruct (Hoff Hen).
  - cbv zeta. unfold processAudio_replied, processAudio_catch.
    destruct (speakResponse_effect ttsEnabled APOLOGY_ERROR after_error_apology
                (setJarvisPhase speaking s))
      as (Hu & Hr & _ & _ & _ & Ht & _ & _ & Hc & Hon & Hoff).
    rewrite Hu. do 2 (split; [done|]). split.
    + intros Hen. by destruct (Hon Hen).
    + intros Hen. by destruct (Hoff Hen).
  - done.
Qed.

End Turn.

(** ** Typed messages *)

Section Typed.
Variable ttsEnabled : bool.
Variable robotName : string.

(** X10. A typed message is accepted only when it is not empty, no
    typed message is being answered and the phase is idle; otherwise the
    submission changes nothing.  An accepted message is added to the
    transcript and passed to [api.chat] with the current mode, and puts
    the view in the loading state and the processing phase, without
    touching capture or the player.  Until its answer has
    come, any further submission is ignored. *)
Theorem typed_message_guard s msg :
  (msg = "" \/ isLoading (ui s) = true \/ jarvisPhase (ui s) <> idle ->
     handleTextSubmit msg s = s)
  /\ (msg <> "" -> isLoading (ui s) = false -> jarvisPhase (ui s) = idle ->
      let s' := handleTextSubmit msg s in
      isLoading (ui s') = true /\ jarvisPhase (ui s') = processing
      /\ messages (ui s') = messages (ui s) ++ [{| role := user; content := msg |}]
      /\ (exists q, chatPending (env s') = chatPending (env s) ++ [q]
            /\ q_origin q = from_text /\ q_text q = msg
            /\ q_mode q = currentMode (ui s))
      /\ refs s' = refs s /\ tts s' = tts s
      /\ timers (env s') = timers (env s) /\ micPending (env s') = micPending (env s)
      /\ transcribing (env s') = transcribing (env s))
  /\ (msg <> "" -> forall msg',
        handleTextSubmit msg' (handleTextSubmit msg s) = handleTextSubmit msg s).
Proof.
  split; [|split].
  - unfold handleTextSubmit. intros [-> | [Hl | Hp]]; [done| |].
    + rewrite Hl. by rewrite orb_true_r.
    + rewrite bool_decide_false by done. by rewrite orb_true_r.
  - intros Hne Hl Hp. cbv zeta. unfold handleTextSubmit.
    destruct msg as [|ch msg]; [done|]. rewrite Hl, Hp. cbn.
    do 3 (split; [done|]). split; [eexists; done|done].
  - intros Hne msg'.
    assert (Ha : forall m s0,
      isLoading (ui s0) = true \/ jarvisPhase (ui s0) <> idle ->
      handleTextSubmit m s0 = s0).
    { intros m s0 [H|H]; unfold handleTextSubmit.
      - rewrite H. by rewrite orb_true_r.
      - rewrite bool_decide_false by done. by rewrite orb_true_r. }
    destruct (isLoading (ui s)) eqn:Hl.
    { rewrite (Ha msg s) by auto. apply Ha. auto. }
    destruct (decide (jarvisPhase (ui s) = idle)) as [Hp|Hp].
    2:{ rewrite (Ha msg s) by auto. apply Ha. auto. }
    apply Ha. left. unfold handleTextSubmit.
    destruct msg as [|ch msg]; [done|]. rewrite Hl, Hp. done.
Qed.

End Typed.

(** ** The flags that steer the conversation *)


Lemma player_only_control f : player_only f -> keeps_control f.
Proof. intros Hf s. destruct (Hf s) as (Hu & Hr & _). unfold control. by rewrite Hu, Hr. Qed.

Ltac control_pure :=
  intros ?; unfold control; repeat (cbn; try break_match);
  first [reflexivity|congruence].

Lemma stopRecording_control : keeps_control stopRecording.
Proof. unfold stopRecording, recorder_is_recording. control_pure. Qed.

Lemma processAudio_control blob : keeps_control (processAudio blob).
Proof. unfold processAudio. control_pure. Qed.

Lemma monitorAudio_control data : keeps_control (monitorAudio data).
Proof.
  intros s. unfold monitorAudio.
  destruct (analyserRef (refs s)); [|done].
  destruct (negb _); [done|]. cbv zeta.
  destruct (isSpeaking _); [done|].
  destruct (speechDetectedRef _); [|done].
  destruct (truthy_time _); [|done].
  destruct (_ <? _)%Z; [|done]. cbn [setAudioLevel].
  by rewrite stopRecording_control.
Qed.

Lemma capture_teardown_control s :
  control (release_stream (stop_recorder_if_recording (cancel_monitor s))) = control s.
Proof.
  revert s. unfold release_stream, stop_recorder_if_recording, cancel_monitor,
    recorder_is_recording. control_pure.
Qed.

Lemma onstop_control : keeps_control onstop.
Proof.
  intros s. unfold onstop. cbv zeta. rewrite processAudio_control.
  unfold control. repeat (cbn; try break_match); first [reflexivity|congruence].
Qed.

Lemma run_timer_control a : keeps_control (run_timer a).
Proof.
  intros s. destruct a; cbn; try done.
  - by destruct (shouldContinueRef _).
  - destruct (isRecordingRef _); [apply stopRecording_control|done].
Qed.

Lemma unmount_control s :
  control (unmount s) = Build_Control (hasGreetedRef (refs s)) false
                          (conversationActive (ui s)) false.
Proof.
  unfold unmount. cbv zeta. unfold control.
  repeat (cbn; try break_match); first [reflexivity|congruence].
Qed.

Lemma run_cont_control k s :
  control (run_cont k s) =
  match k with
  | after_mic_error =>
      Build_Control (hasGreetedRef (refs s)) false false (mounted (ui s))
  | _ => control s
  end.
Proof. destruct k; cbn; try destruct (shouldContinueRef (refs s)); done. Qed.

Lemma return_call_control c s :
  control (return_call c s) = control s \/
  control_step (control s) (control (return_call c s)).
Proof.
  unfold return_call. cbv zeta.
  set (s1 := upd_call c (set_c_stage returned) (finally_call c s)).
  assert (H1 : control s1 = control s).
  { unfold s1, finally_call. by case_decide. }
  destruct (calls (tts s1) !! c) as [x|]; [|by left].
  rewrite run_cont_control. destruct (c_cont x); try by left.
  right. rewrite <- H1. unfold control. constructor.
Qed.

Lemma setJarvisPhase_control p : keeps_control (setJarvisPhase p).
Proof. done. Qed.

Lemma setIsListening_control b : keeps_control (setIsListening b).
Proof. done. Qed.

Lemma setAudioLevel_control q : keeps_control (setAudioLevel q).
Proof. done. Qed.

Lemma set_isRecordingRef_control b : keeps_control (with_refs (set_isRecordingRef b)).
Proof. done. Qed.

Section ControlFlags.
Variable ttsEnabled : bool.
Variable robotName : string.

Lemma speakResponse_control text k : keeps_control (speakResponse ttsEnabled text k).
Proof. apply player_only_control, speakResponse_player_only. Qed.

Lemma stopTtsNow_control : keeps_control stopTtsNow.
Proof. apply player_only_control, stopTtsNow_player_only. Qed.

Lemma handleModeSwitch_control mode greeting :
  keeps_control (handleModeSwitch ttsEnabled mode greeting).
Proof.
  intros s. unfold handleModeSwitch. cbv zeta.
  destruct (conversation_engaged _); rewrite speakResponse_control.
  - rewrite setJarvisPhase_control, capture_teardown_control,
      set_isRecordingRef_control. apply stopTtsNow_control.
  - rewrite setJarvisPhase_control. apply stopTtsNow_control.
Qed.

Lemma stopConversation_control s :
  control (stopConversation s) =
  Build_Control (hasGreetedRef (refs s)) false false (mounted (ui s)).
Proof.
  unfold stopConversation.
  rewrite setAudioLevel_control, setIsListening_control, setJarvisPhase_control,
    capture_teardown_control, stopTtsNow_control. done.
Qed.

Lemma startConversation_control s :
  control (startConversation ttsEnabled robotName s) =
  Build_Control true true true (mounted (ui s)).
Proof.
  unfold startConversation. cbv zeta. cbn [negb refs with_refs setConversationActive with_ui
    hasGreetedRef set_shouldContinueRef].
  destruct (hasGreetedRef (refs s)) eqn:Hg; cbn [negb].
  - unfold control. cbn. by rewrite Hg.
  - rewrite speakResponse_control. done.
Qed.

Lemma handle_control ev s s' :
  handle ttsEnabled robotName ev s = Some s' ->
  control s' = control s \/ control_step (control s) (control s').
Proof.
  destruct ev; cbn [handle].
  - destruct (mounted (ui s)) eqn:Hm; [|done]. intros [= <-]. right.
    unfold handleMicClick. destruct (conversation_engaged s).
    + rewrite stopConversation_control. unfold control. constructor.
    + rewrite startConversation_control. unfold control. rewrite Hm. constructor.
  - destruct (mounted (ui s)) eqn:Hm; [|done]. intros [= <-].
    unfold handleNavClick. destruct id as [m|].
    + destruct (_ || _); [|by left]. cbv zeta. cbn [mounted ui addMessage with_ui
        set_messages clearMessages setCurrentView setCurrentMode set_currentView
        set_currentMode]. rewrite Hm. rewrite handleModeSwitch_control. by left.
    + right. rewrite unmount_control. unfold control. cbn. constructor.
  - destruct (mounted (ui s)); [|done]. intros [= <-]. left.
    unfold handleTextSubmit. by destruct (_ || _).
  - case_bool_decide; [|done]. intros [= <-]. left. by rewrite monitorAudio_control.
  - destruct (timers (env s) !! k) as [[due a]|]; [|done].
    destruct (due <=? _)%Z; [|done]. intros [= <-]. left. by rewrite run_timer_control.
  - destruct (sessions (env s) !! r) as [x|]; [|done].
    destruct (rec_state x); intros [= <-]; left; unfold ondataavailable;
      by destruct (0 <? size)%Z.
  - destruct (sessions (env s) !! r) as [x|]; [|done].
    destruct (rec_state x); intros [= <-]. left. by rewrite onstop_control.
  - destruct (micPending (env s)); [done|]. intros [= <-]. by left.
  - destruct (micPending (env s)); [done|]. intros [= <-]. left.
    unfold startRecording_denied. by rewrite speakResponse_control.
  - destruct (transcribing (env s) !! k); [|done]. intros [= <-]. left.
    unfold processAudio_transcribed, processAudio_catch.
    destruct res as [text success|]; [destruct (_ || _)|];
      rewrite ?speakResponse_control; done.
  - destruct (chatPending (env s) !! k) as [q|]; [|done]. intros [= <-]. left.
    cbv zeta. unfold processAudio_replied, handleTextSubmit_replied, processAudio_catch,
      update_language.
    destruct (q_origin q), res as [response [l|]|]; try destruct (is_empty l);
      rewrite ?speakResponse_control; done.
  - destruct (calls (tts s) !! c) as [x|] eqn:Hx; [|done].
    case_decide; [|done]. intros [= <-]. unfold speakResponse_fetched. rewrite Hx.
    destruct res; try apply return_call_control.
    case_decide; [apply return_call_control|by left].
  - destruct (audio_of c s) as [a|]; [|done]. destruct (a_playing a); [|done].
    intros [= <-]. left. destruct (a_onended a); [|done].
    by rewrite (player_only_control _ (cleanupAndResolve_player_only c)).
  - destruct (audio_of c s) as [a|]; [|done]. intros [= <-]. left.
    destruct (a_onerror a); [|done].
    by rewrite (player_only_control _ (cleanupAndResolve_player_only c)).
  - destruct (audio_of c s) as [a|]; [|done]. destruct (_ && _); [|done].
    intros [= <-]. by left.
  - destruct (audio_of c s) as [a|]; [|done]. destruct (a_playPending a); [|done].
    intros [= <-]. left.
    by rewrite (player_only_control _ (cleanupAndResolve_player_only c)).
Qed.

End ControlFlags.

Lemma control_steps_trans k1 k2 k3 :
  control_steps k1 k2 -> control_steps k2 k3 -> control_steps k1 k3.
Proof.
  intros H12 H23. induction H23 as [|k2 k3 k4 _ IH Hs]; [done|].
  econstructor; [by apply IH|done].
Qed.

Lemma control_steps_one k1 k2 :
  k2 = k1 \/ control_step k1 k2 -> control_steps k1 k2.
Proof.
  intros [->|H]; [constructor|]. econstructor; [constructor|done].
Qed.

Lemma run_micro_fold_control q s :
  control_steps (control s) (control (fold_left (fun s m => run_micro m s) q s)).
Proof.
  revert s. induction q as [|m q IH]; intros s; [constructor|].
  cbn [fold_left]. eapply control_steps_trans; [|apply IH].
  apply control_steps_one. destruct m as [c|k]; cbn.
  - apply return_call_control.
  - rewrite run_cont_control. destruct k; try by left.
    right. unfold control. constructor.
Qed.

Lemma step_control ttsEnabled robotName t ev s s' :
  step ttsEnabled robotName t ev s = Some s' ->
  control_steps (control s) (control s').
Proof.
  unfold step. destruct (_ <=? _)%Z; [|done].
  destruct (handle _ _ _ _) as [s1|] eqn:Hh; [|done]. cbn. intros [= <-].
  apply handle_control in Hh.
  eapply control_steps_trans; [apply control_steps_one, Hh|].
  unfold run_microtasks.
  change (control s1) with (control (with_env (set_microtasks []) s1)).
  apply run_micro_fold_control.
Qed.

Lemma steps_control ttsEnabled robotName s s' :
  steps ttsEnabled robotName s s' -> control_steps (control s) (control s').
Proof.
  induction 1 as [|s s1 t ev s2 _ IH Hstep]; [constructor|].
  eapply control_steps_trans; [exact IH|]. by eapply step_control.
Qed.

Lemma control_step_facts k k' :
  control_step k k' ->
  (k_greeted k = true -> k_greeted k' = true)
  /\ (k_mounted k = false -> k_mounted k' = false)
  /\ (control_ok k -> control_ok k').
Proof.
  destruct 1 as [g c a|g c a m|g c a m]; unfold control_ok; cbn;
    try destruct m; done.
Qed.

Lemma control_steps_facts k k' :
  control_steps k k' ->
  (k_greeted k = true -> k_greeted k' = true)
  /\ (k_mounted k = false -> k_mounted k' = false)
  /\ (control_ok k -> control_ok k').
Proof.
  induction 1 as [|k1 k2 k3 _ (I1 & I2 & I3) Hs]; [done|].
  destruct (control_step_facts _ _ Hs) as (J1 & J2 & J3). auto.
Qed.

Lemma reachable_steps ttsEnabled robotName s :
  reachable ttsEnabled robotName s ->
  exists t0 language, steps ttsEnabled robotName (init t0 language) s.
Proof.
  induction 1 as [t0 l|s t ev s' _ (t0 & l & IH) Hstep].
  - exists t0, l. constructor.
  - exists t0, l. by econstructor.
Qed.

Section Conversation.
Variable ttsEnabled : bool.
Variable robotName : string.

(** X13. The flag and the display agree.  In every reachable state,
    while the chat view is mounted the continuous-mode flag read by the
    callbacks is the activity shown to the user; and once the view has
    been left the flag is cleared and stays so for the rest of the life
    of the component: nothing that still runs, a timer, a pending
    request, an event of the recorder or of the player, sets it again. *)
Theorem continuous_flag_agrees s :
  reachable ttsEnabled robotName s ->
  (mounted (ui s) = true -> shouldContinueRef (refs s) = conversationActive (ui s))
  /\ (mounted (ui s) = false ->
      shouldContinueRef (refs s) = false
      /\ forall s', steps ttsEnabled robotName s s' ->
           mounted (ui s') = false /\ shouldContinueRef (refs s') = false).
Proof.
  intros Hr. destruct (reachable_steps _ _ _ Hr) as (t0 & l & Hs).
  apply steps_control in Hs. destruct (control_steps_facts _ _ Hs) as (_ & _ & Hok).
  specialize (Hok eq_refl). unfold control_ok, control in Hok. cbn in Hok.
  split.
  - intros Hm. by rewrite Hm in Hok.
  - intros Hm. rewrite Hm in Hok. split; [done|]. intros s' Hs'.
    pose proof (steps_reachable _ _ _ _ Hr Hs') as Hr'.
    destruct (reachable_steps _ _ _ Hr') as (t0' & l' & Hs0).
    apply steps_control in Hs0. destruct (control_steps_facts _ _ Hs0) as (_ & _ & Hok').
    specialize (Hok' eq_refl). unfold control_ok, control in Hok'. cbn in Hok'.
    apply steps_control in Hs'. destruct (control_steps_facts _ _ Hs') as (_ & Hmo & _).
    specialize (Hmo Hm). cbn in Hmo. rewrite Hmo in Hok'. done.
Qed.

(** X14. The greeting is made once.  The first start of a conversation
    adds the greeting, with the name of the robot or VV when it has
    none, to the transcript and has it spoken before capture begins.
    From then on, for the rest of the life of the component and whatever
    happens in between, a start of a conversation greets no more: it goes
    to listening at once and asks for the microphone, making no call of
    the player and adding no message. *)
Theorem greeting_only_once s :
  (hasGreetedRef (refs s) = false ->
     let s' := startConversation ttsEnabled robotName s in
     hasGreetedRef (refs s') = true
     /\ messages (ui s') =
          messages (ui s) ++ [{| role := assistant; content := first_greeting robotName |}]
     /\ jarvisPhase (ui s') = speaking
     /\ micPending (env s') = micPending (env s)
     /\ (ttsEnabled = true ->
           calls (tts s') !! length (calls (tts s)) =
             Some (new_call (ttsSeqRef (tts s) + 1) (first_greeting robotName)
                     after_greeting))
     /\ (ttsEnabled = false ->
           microtasks (env s') = microtasks (env s) ++ [resume_cont after_greeting]))
  /\ (hasGreetedRef (refs s) = true -> forall s0,
      steps ttsEnabled robotName s s0 ->
      let s' := startConversation ttsEnabled robotName s0 in
      hasGreetedRef (refs s0) = true
      /\ tts s' = tts s0 /\ microtasks (env s') = microtasks (env s0)
      /\ messages (ui s') = messages (ui s0)
      /\ jarvisPhase (ui s') = listening /\ isListening (ui s') = true
      /\ micPending (env s') = S (micPending (env s0))
      /\ isRecordingRef (refs s') = true)
  /\ (robotName = "" ->
      first_greeting robotName = "Hello! I'm VV! What would you like to talk about?").
Proof.
  split; [|split].
  - intros Hg. cbv zeta. unfold startConversation. cbv zeta.
    cbn [negb refs with_refs setConversationActive with_ui hasGreetedRef
         set_shouldContinueRef]. rewrite Hg. cbn [negb].
    match goal with |- context [speakResponse _ ?g ?k ?s0] =>
      destruct (speakResponse_effect ttsEnabled g k s0)
        as (Hu & Hr & _ & _ & _ & _ & Hmp & _ & _ & Hon & Hoff)
    end.
    rewrite Hu, Hr, Hmp. do 4 (split; [done|]). split.
    + intros Hen. by destruct (Hon Hen).
    + intros Hen. by destruct (Hoff Hen).
  - intros Hg s0 Hs. cbv zeta.
    apply steps_control in Hs. destruct (control_steps_facts _ _ Hs) as (Hg0 & _ & _).
    specialize (Hg0 Hg). cbn in Hg0. split; [done|].
    unfold startConversation. cbv zeta.
    cbn [negb refs with_refs setConversationActive with_ui hasGreetedRef
         set_shouldContinueRef]. rewrite Hg0. done.
  - intros ->. done.
Qed.

End Conversation.

(** ** What a stop leaves of the display *)

Section MicButton.
Variable ttsEnabled : bool.
Variable robotName : string.

Lemma stopConversation_ui s :
  ui (stopConversation s) =
  set_audioLevel 0 (set_isListening false (set_jarvisPhase idle
    (set_conversationActive false (ui s)))).
Proof.
  unfold stopConversation. cbn [setAudioLevel setIsListening setJarvisPhase with_ui ui].
  destruct (capture_teardown (stopTtsNow (with_refs (set_isRecordingRef false)
      (setConversationActive false (with_refs (set_shouldContinueRef false) s)))))
    as (_ & _ & _ & _ & _ & _ & _ & _ & _ & Hui & _).
  cbv zeta in Hui. rewrite Hui.
  by destruct (stopTtsNow_player_only (with_refs (set_isRecordingRef false)
      (setConversationActive false (with_refs (set_shouldContinueRef false) s))))
    as (-> & _).
Qed.

End MicButton.

(** ** Leaving the chat view *)

Lemma unmount_env s :
  env (unmount s) =
  let e1 := match truthy_nat (rafIdRef (refs s)) with
            | Some id => set_rafPending (filter (fun j => j <> id) (rafPending (env s))) (env s)
            | None => env s
            end in
  let e2 := match streamRef (refs s) with
            | Some i =>
                set_sessions
                  (alter (fun x => set_stream_live false
                            (if bool_decide (rec_state x = rec_recording)
                             then set_rec_state rec_stopping x else x)) i (sessions e1)) e1
            | None => e1
            end in
  match audioContextRef (refs s) with
  | Some i => set_sessions (alter (set_ctx_closed true) i (sessions e2)) e2
  | None => e2
  end.
Proof.
  destruct s as [u r t e].
  destruct r as [hg sc mr ch sr ac an ss sd raf ir]. unfold unmount. cbn.
  destruct (truthy_nat raf); cbn; destruct sr; cbn; destruct ac; reflexivity.
Qed.

Lemma unmount_rest s :
  ui (unmount s) = set_mounted false (ui s)
  /\ refs (unmount s) = set_isRecordingRef false (set_shouldContinueRef false (refs s))
  /\ tts (unmount s) = tts s.
Proof.
  destruct s as [u r t e].
  destruct r as [hg sc mr ch sr ac an ss sd raf ir]. unfold unmount. cbn.
  destruct (truthy_nat raf); cbn; destruct sr; cbn; destruct ac; done.
Qed.

Lemma unmount_sessions s i x :
  sessions (env s) !! i = Some x ->
  exists x', sessions (env (unmount s)) !! i = Some x'
    /\ (streamRef (refs s) = Some i -> stream_live x' = false)
    /\ (audioContextRef (refs s) = Some i -> ctx_closed x' = true).
Proof.
  intros Hx. rewrite unmount_env. cbv zeta.
  set (e1 := match truthy_nat _ with Some _ => _ | None => _ end).
  assert (H1 : sessions e1 !! i = Some x).
  { unfold e1. by destruct (truthy_nat _). }
  clearbody e1.
  set (e2 := match streamRef (refs s) with Some _ => _ | None => _ end).
  assert (H2 : exists x2, sessions e2 !! i = Some x2
            /\ (streamRef (refs s) = Some i -> stream_live x2 = false)).
  { unfold e2. destruct (streamRef (refs s)) as [j|]; [|by exists x].
    cbn. rewrite (lookup_alter_Some _ _ _ _ _ H1). eexists. split; [done|].
    intros [= ->]. by rewrite decide_True. }
  clearbody e2. destruct H2 as (x2 & H2 & Hs).
  destruct (audioContextRef (refs s)) as [j|]; [|by exists x2].
  cbn. rewrite (lookup_alter_Some _ _ _ _ _ H2). eexists. split; [done|]. split.
  - intros Hi. specialize (Hs Hi). by case_decide.
  - intros [= ->]. by rewrite decide_True.
Qed.

(** X16. Leaving the chat view for the settings.  The cleanup clears
    the continuous-mode and recording flags, cancels the pending frame of
    the monitor, stops the tracks of the stream and closes the audio
    context.  It does not touch the player, so that speech that is being
    fetched or played goes on, and it cancels no timer and no call to the
    transcription or dialogue service. *)
Theorem leaving_chat_view ttsEnabled s :
  let s' := handleNavClick ttsEnabled nav_settings s in
  currentView (ui s') = view_settings /\ mounted (ui s') = false
  /\ shouldContinueRef (refs s') = false /\ isRecordingRef (refs s') = false
  /\ stream_released s s' /\ context_closed s s'
  /\ (forall id, rafIdRef (refs s) = Some (S id) -> S id ∉ rafPending (env s'))
  /\ tts s' = tts s /\ (forall c, audible c s -> audible c s')
  /\ timers (env s') = timers (env s)
  /\ transcribing (env s') = transcribing (env s)
  /\ chatPending (env s') = chatPending (env s)
  /\ micPending (env s') = micPending (env s)
  /\ messages (ui s') = messages (ui s).
Proof.
  cbv zeta. unfold handleNavClick.
  set (s0 := setCurrentView view_settings s).
  destruct (unmount_rest s0) as (Hui & Hrefs & Htts).
  pose proof (unmount_env s0) as Henv. cbv zeta in Henv.
  rewrite Hui, Hrefs, Htts.
  do 4 (split; [done|]). split; [|split; [|split; [|split; [done|split]]]].
  - intros i x Hi Hx. destruct (unmount_sessions s0 i x Hx) as (x' & Hx' & Hl & _).
    exists x'. split; [done|]. by apply Hl.
  - intros i x Hi Hx. destruct (unmount_sessions s0 i x Hx) as (x' & Hx' & _ & Hc).
    exists x'. split; [done|]. by apply Hc.
  - intros id Hid. rewrite Henv.
    change (rafIdRef (refs s0)) with (rafIdRef (refs s)). rewrite Hid.
    cbn [truthy_nat].
    assert (Hnot : S id ∉ filter (fun j => j <> S id) (rafPending (env s0))).
    { rewrite list_elem_of_filter. by intros [? _]. }
    destruct (streamRef (refs s0)); destruct (audioContextRef (refs s0)); exact Hnot.
  - intros c (x & a & Hx & Ha & Hp). exists x, a. by rewrite Htts.
  - rewrite Henv.
    destruct (truthy_nat _); destruct (streamRef (refs s0));
      destruct (audioContextRef (refs s0)); done.
Qed.

(** ** The restart timers and the recorded chunks *)

Section Restart.
Variable ttsEnabled : bool.
Variable robotName : string.

Lemma step_timer_runs t k due a s :
  (clock (env s) <= t)%Z -> microtasks (env s) = [] ->
  timers (env s) !! k = Some (due, a) -> (due <= t)%Z ->
  microtasks (env (run_timer a
     (with_env (fun e => set_timers (delete k (timers e)) e)
        (with_env (set_clock t) s)))) = [] ->
  step ttsEnabled robotName t (TimerFire k) s =
    Some (with_env (set_microtasks [])
      (run_timer a
        (with_env (fun e => set_timers (delete k (timers e)) e)
           (with_env (set_clock t) s)))).
Proof.
  intros Hclk Hm Hk Hdue Hm'. unfold step. rewrite (proj2 (Z.leb_le _ _) Hclk).
  cbn [handle]. cbn [env with_env timers set_clock clock]. rewrite Hk.
  rewrite (proj2 (Z.leb_le _ _) Hdue). cbn [fmap option_fmap option_map].
  unfold run_microtasks. by rewrite Hm'.
Qed.

(** X17. The restart after 500 ms is unconditional.  A pending restart
    timer set after a reply, an apology or a change of mode is kept by
    every other task, a stop of the conversation and the leaving of the
    view included; and when it fires the microphone is asked for again
    and the recording flag is set, whatever the continuous-mode flag, the
    phase and the view are: they are not even read.  The restart after
    300 ms, set after an utterance without speech, does nothing when the
    flag has been cleared. *)
Theorem restart_timer_is_unconditional s t k due :
  (clock (env s) <= t)%Z -> microtasks (env s) = [] -> (due <= t)%Z ->
  (timers (env s) !! k = Some (due, restart_capture) ->
     (forall t' ev s', (forall j, ev <> TimerFire j) ->
        step ttsEnabled robotName t' ev s = Some s' ->
        timers (env s') !! k = Some (due, restart_capture))
     /\ exists s', step ttsEnabled robotName t (TimerFire k) s = Some s'
        /\ micPending (env s') = S (micPending (env s))
        /\ isRecordingRef (refs s') = true
        /\ speechDetectedRef (refs s') = false /\ audioChunksRef (refs s') = []
        /\ ui s' = ui s /\ shouldContinueRef (refs s') = shouldContinueRef (refs s)
        /\ timers (env s') = delete k (timers (env s)))
  /\ (timers (env s) !! k = Some (due, restart_if_continuing) ->
      shouldContinueRef (refs s) = false ->
      exists s', step ttsEnabled robotName t (TimerFire k) s = Some s'
        /\ micPending (env s') = micPending (env s)
        /\ refs s' = refs s /\ ui s' = ui s /\ tts s' = tts s
        /\ timers (env s') = delete k (timers (env s))).
Proof.
  intros Hclk Hm Hdue. split.
  - intros Hk. split.
    + intros t' ev s' Hev Hstep.
      destruct (step_keeps_timers ttsEnabled robotName t' ev s s' Hev Hstep) as [l Hl].
      rewrite Hl. by apply lookup_app_l_Some.
    + eexists. split.
      { apply (step_timer_runs t k due restart_capture s); try done. }
      cbn. done.
  - intros Hk Hc. eexists. split.
    { apply (step_timer_runs t k due restart_if_continuing s); try done.
      cbn. by rewrite Hc. }
    cbn. rewrite Hc. cbn. done.
Qed.

End Restart.

Lemma record_chunks_refs sizes s :
  audioChunksRef (refs (record_chunks sizes s)) =
    audioChunksRef (refs s) ++ filter (fun z => (0 < z)%Z) sizes
  /\ speechDetectedRef (refs (record_chunks sizes s)) = speechDetectedRef (refs s)
  /\ shouldContinueRef (refs (record_chunks sizes s)) = shouldContinueRef (refs s)
  /\ ui (record_chunks sizes s) = ui s /\ tts (record_chunks sizes s) = tts s
  /\ env (record_chunks sizes s) = env s.
Proof.
  revert s. induction sizes as [|z sizes IH]; intros s.
  - cbn. by rewrite app_nil_r.
  - unfold record_chunks. cbn [fold_left]. fold (record_chunks sizes (ondataavailable z s)).
    destruct (IH (ondataavailable z s)) as (-> & -> & -> & -> & -> & ->).
    unfold ondataavailable. rewrite filter_cons.
    destruct (Z.ltb_spec 0 z) as [Hz|Hz].
    + rewrite decide_True by done. cbn. by rewrite <- app_assoc.
    + rewrite decide_False by lia. done.
Qed.

Lemma sum_positive_chunks l :
  Forall (fun z => (0 < z)%Z) l ->
  (0 <= fold_right Z.add 0 l)%Z /\ (fold_right Z.add 0 l = 0 -> l = [])%Z.
Proof.
  induction 1 as [|z l Hz _ [IH1 IH2]]; cbn; [done|]. split; lia.
Qed.

(** X18. What is handed to the pipeline when the recorder stops.  The
    chunks delivered since [startRecording] are kept in order, those of
    size zero left out, and the blob is their concatenation: its size is
    zero exactly when no chunk had data.  The stop handler sends it to
    the transcription service only when it is not empty and speech was
    detected; an empty blob is never sent, speech or not. *)
Theorem recorded_blob s sizes :
  let s1 := record_chunks sizes (startRecording s) in
  let blob := fold_right Z.add 0%Z (audioChunksRef (refs s1)) in
  audioChunksRef (refs s1) = filter (fun z => (0 < z)%Z) sizes
  /\ (0 <= blob)%Z
  /\ (blob = 0%Z <-> Forall (fun z => (z <= 0)%Z) sizes)
  /\ (forall s2, audioChunksRef (refs s2) = audioChunksRef (refs s1) ->
        transcribing (env (onstop s2)) =
          transcribing (env s2) ++
            (if (blob =? 0)%Z || negb (speechDetectedRef (refs s2)) then [] else [blob])).
Proof.
  cbv zeta.
  destruct (record_chunks_refs sizes (startRecording s)) as (Hc & _).
  cbn [startRecording with_refs with_env refs audioChunksRef set_audioChunksRef
       set_isRecordingRef] in Hc. rewrite app_nil_l in Hc.
  rewrite Hc.
  assert (Hpos : Forall (fun z => (0 < z)%Z) (filter (fun z => (0 < z)%Z) sizes)).
  { apply Forall_forall. by intros z [Hz _]%list_elem_of_filter. }
  destruct (sum_positive_chunks _ Hpos) as [H0 Hnil].
  split; [done|]. split; [done|]. split.
  - split.
    + intros Hb. specialize (Hnil Hb). apply Forall_forall. intros z Hz.
      destruct (Z.le_gt_cases z 0) as [|Hgt]; [done|]. exfalso.
      assert (Hin : z ∈ filter (fun z => (0 < z)%Z) sizes).
      { apply list_elem_of_filter. split; [lia|done]. }
      rewrite Hnil in Hin. by apply elem_of_nil in Hin.
    + intros Hall. replace (filter (fun z => (0 < z)%Z) sizes) with (@nil Z); [done|].
      symmetry. clear -Hall. induction Hall as [|z l Hz _ IH]; [done|].
      rewrite filter_cons. rewrite decide_False by lia. done.
  - intros s2 Hs2.
    destruct (onstop_refs_before_processAudio s2)
      as (s3 & -> & Hsd & _ & _ & Htr & _).
    rewrite Hs2. unfold processAudio. rewrite Hsd.
    destruct (_ || _).
    + rewrite app_nil_r, <- Htr. by destruct (shouldContinueRef _).
    + cbn. by rewrite Htr.
Qed.

(** ** A stop while speech is playing *)

Lemma run_cont_after_stop k s :
  shouldContinueRef (refs s) = false -> conversationActive (ui s) = false ->
  jarvisPhase (ui s) = idle ->
  conversationActive (ui (run_cont k s)) = false
  /\ shouldContinueRef (refs (run_cont k s)) = false
  /\ (k <> after_greeting ->
        jarvisPhase (ui (run_cont k s)) = idle
        /\ micPending (env (run_cont k s)) = micPending (env s)
        /\ timers (env (run_cont k s)) = timers (env s))
  /\ (k = after_greeting ->
        jarvisPhase (ui (run_cont k s)) = listening
        /\ isListening (ui (run_cont k s)) = true
        /\ isRecordingRef (refs (run_cont k s)) = true
        /\ micPending (env (run_cont k s)) = S (micPending (env s))).
Proof.
  intros Hsc Hca Hph. destruct k; cbn; rewrite ?Hsc; cbn;
    (split; [done|]); (split; [done|]); (split; [intros Hk|intros Hk]);
    try done.
Qed.

Section StopWhileSpeaking.
Variable ttsEnabled : bool.
Variable robotName : string.

Lemma stopTtsNow_indep s0 s :
  tts s0 = tts s -> microtasks (env s0) = microtasks (env s) ->
  tts (stopTtsNow s0) = tts (stopTtsNow s)
  /\ microtasks (env (stopTtsNow s0)) = microtasks (env (stopTtsNow s)).
Proof.
  intros Ht Hm. split.
  - destruct (stopTtsNow_refs s0) as (A0 & U0 & B0 & R0 & S0).
    destruct (stopTtsNow_refs s) as (A1 & U1 & B1 & R1 & S1).
    assert (Hc : calls (tts (stopTtsNow s0)) = calls (tts (stopTtsNow s))).
    { apply list_eq. intros i. by rewrite !stopTtsNow_lookup, Ht. }
    destruct (tts (stopTtsNow s0)) as [a0 u0 b0 q0 r0 l0].
    destruct (tts (stopTtsNow s)) as [a1 u1 b1 q1 r1 l1].
    cbn in *. subst. by rewrite Ht.
  - by rewrite !stopTtsNow_micro, Ht, Hm.
Qed.

Lemma stopConversation_player s :
  tts (stopConversation s) = tts (stopTtsNow s)
  /\ microtasks (env (stopConversation s)) = microtasks (env (stopTtsNow s))
  /\ shouldContinueRef (refs (stopConversation s)) = false
  /\ timers (env (stopConversation s)) = timers (env s)
  /\ micPending (env (stopConversation s)) = micPending (env s).
Proof.
  unfold stopConversation.
  set (s0 := with_refs (set_isRecordingRef false)
               (setConversationActive false (with_refs (set_shouldContinueRef false) s))).
  destruct (capture_teardown (stopTtsNow s0))
    as (_ & _ & _ & _ & Hsc & _ & _ & _ & _ & _ & Ht & Htm & _ & _ & Hmp & Hm & _).
  cbv zeta in Hsc, Ht, Htm, Hmp, Hm.
  cbn [setAudioLevel setIsListening setJarvisPhase with_ui tts env refs].
  rewrite Ht, Hm, Hsc, Htm, Hmp.
  destruct (stopTtsNow_player_only s0) as (_ & Hr & He).
  apply env_eq_but_microtasks in He as (_ & _ & _ & _ & Het & Hemp & _).
  rewrite Hr, Het, Hemp.
  destruct (stopTtsNow_indep s0 s eq_refl eq_refl) as [-> ->]. done.
Qed.

(** X25. A stop while speech is playing.  [stopConversation] resolves
    the playback promise, so that the caller of [speakResponse] is resumed
    within the task of the click.  Every caller but one then leaves the
    phase idle and starts nothing, the continuous-mode flag being cleared.
    The exception is the greeting: [startConversation] goes on after it
    without reading the flag, so that a stop during the greeting ends with
    the phase listening, the listening indicator on and the microphone
    asked for, while the conversation is shown as inactive. *)
Theorem stop_while_speaking s c x t :
  reachable ttsEnabled robotName s -> mounted (ui s) = true ->
  conversation_engaged s = true ->
  calls (tts s) !! c = Some x -> c_stage x = playing ->
  (clock (env s) <= t)%Z ->
  exists s', step ttsEnabled robotName t MicClick s = Some s'
    /\ (exists x', calls (tts s') !! c = Some x' /\ c_stage x' = returned)
    /\ conversationActive (ui s') = false /\ shouldContinueRef (refs s') = false
    /\ (c_cont x <> after_greeting ->
          jarvisPhase (ui s') = idle
          /\ micPending (env s') = micPending (env s)
          /\ timers (env s') = timers (env s))
    /\ (c_cont x = after_greeting ->
          jarvisPhase (ui s') = listening /\ isListening (ui s') = true
          /\ isRecordingRef (refs s') = true
          /\ micPending (env s') = S (micPending (env s))).
Proof.
  intros Hr Hmo Heng Hx Hp Hclk.
  destruct (reachable_inv _ _ _ Hr) as [I Hm].
  set (st := with_env (set_clock t) s).
  assert (Ist : PlayerInv ttsEnabled 0 st) by (by apply player_inv_with_env).
  assert (Hres : ttsResolveRef (tts st) = Some c).
  { by apply (pinv_stage_playing _ _ _ I c x Hx). }
  set (s1 := stopConversation st).
  destruct (stopConversation_player st) as (Ht1 & Hm1 & Hsc1 & Htm1 & Hmp1).
  fold s1 in Ht1, Hm1, Hsc1, Htm1, Hmp1.
  assert (Hq : microtasks (env s1) = [resume_call c]).
  { rewrite Hm1, stopTtsNow_micro. change (microtasks (env st)) with (microtasks (env s)).
    rewrite Hm, Hres. change (calls (tts st)) with (calls (tts s)). rewrite Hx.
    by rewrite decide_True. }
  assert (Hx1 : calls (tts s1) !! c = Some (retire (tts st) c x)).
  { rewrite Ht1, stopTtsNow_lookup. change (calls (tts st)) with (calls (tts s)).
    by rewrite Hx. }
  assert (Hstep : step ttsEnabled robotName t MicClick s = Some (run_microtasks s1)).
  { unfold step. rewrite (proj2 (Z.leb_le _ _) Hclk). fold st. cbn [handle].
    change (mounted (ui st)) with (mounted (ui s)). rewrite Hmo.
    unfold handleMicClick. change (conversation_engaged st) with (conversation_engaged s).
    by rewrite Heng. }
  rewrite (run_microtasks_single c s1 Hq) in Hstep.
  set (s2 := with_env (set_microtasks []) s1) in *.
  assert (Hx2 : calls (tts s2) !! c = Some (retire (tts st) c x)) by exact Hx1.
  destruct (return_call_rest c _ s2 Hx2) as (Hui & Hrefs & Henv).
  change (c_cont (retire (tts st) c x)) with (c_cont x) in Hui, Hrefs, Henv.
  assert (Hu2 : ui s2 = set_audioLevel 0 (set_isListening false (set_jarvisPhase idle
                          (set_conversationActive false (ui s))))).
  { unfold s2, s1. cbn [with_env ui]. by rewrite stopConversation_ui. }
  assert (Hsc2 : shouldContinueRef (refs s2) = false) by exact Hsc1.
  exists (return_call c s2). split; [exact Hstep|]. split.
  { eexists. split; [by apply return_call_lookup|done]. }
  rewrite Hui, Hrefs, Henv.
  assert (Hca2 : conversationActive (ui s2) = false) by (by rewrite Hu2).
  assert (Hph2 : jarvisPhase (ui s2) = idle) by (by rewrite Hu2).
  pose proof (run_cont_after_stop (c_cont x) s2 Hsc2 Hca2 Hph2) as Hrc.
  destruct Hrc as (H1 & H2 & H3 & H4).
  assert (Hmp2 : micPending (env s2) = micPending (env s)) by exact Hmp1.
  assert (Htm2 : timers (env s2) = timers (env s)) by exact Htm1.
  rewrite Hmp2, Htm2 in *. done.
Qed.

End StopWhileSpeaking.

Lemma stop_while_speaking_witness :
  reachable true "VV" (state_after run_greeting)
  /\ (exists x, calls (tts (state_after run_greeting)) !! 0 = Some x
        /\ c_stage x = playing /\ c_cont x = after_greeting)
  /\ exists s', step true "VV" 2000 MicClick (state_after run_greeting) = Some s'
       /\ conversationActive (ui s') = false /\ jarvisPhase (ui s') = listening.
Proof.
  assert (Hr : reachable true "VV" (state_after run_greeting)).
  { apply state_after_reachable. vm_compute. discriminate. }
  split; [exact Hr|]. split.
  { eexists. split; [vm_compute; reflexivity|]. split; reflexivity. }
  destruct (stop_while_speaking true "VV" (state_after run_greeting) 0 _ 2000%Z Hr
              ltac:(vm_compute; reflexivity) ltac:(vm_compute; reflexivity)
              eq_refl eq_refl ltac:(vm_compute; discriminate))
    as (s' & Hs & _ & Hca & _ & _ & Hg).
  exists s'. split; [exact Hs|]. split; [exact Hca|].
  exact (proj1 (Hg eq_refl)).
Defined.

(** ** The level meter *)

Lemma monitorAudio_level data s :
  analyserRef (refs s) <> None -> isRecordingRef (refs s) = true ->
  audioLevel (ui (monitorAudio data s)) = getAudioLevel data.
Proof.
  intros Ha Hr. unfold monitorAudio.
  destruct (analyserRef (refs s)); [|done]. rewrite Hr. cbn [negb]. cbv zeta.
  destruct (isSpeaking _); [done|].
  destruct (speechDetectedRef _); [|done].
  destruct (truthy_time _); [|done].
  destruct (_ <? _)%Z; [|done].
  unfold stopRecording, recorder_is_recording. cbv zeta.
  repeat (cbn; try break_match); reflexivity.
Qed.

Lemma getAudioLevel_nonneg data :
  byte_data data -> data <> [] -> (0 <= getAudioLevel data)%Q.
Proof.
  intros Hb Hne. destruct (sum_byte_data_bounds data Hb) as [Hs _].
  unfold getAudioLevel. destruct data as [|b0 data0]; [done|].
  set (sm := fold_right Z.add 0%Z (b0 :: data0)) in *.
  destruct (Z.of_nat (length (b0 :: data0))) as [|p|p] eqn:Hp; try (cbn in Hp; lia).
  clearbody sm. unfold Qle, Qdiv, Qmult, Qinv, inject_Z. cbn. nia.
Qed.

Lemma scaledLevel_bounds level :
  (0 <= level)%Q -> (0 <= scaledLevel level <= 1)%Q.
Proof.
  intros H0. unfold scaledLevel.
  destruct (Qle_bool (level * 20) 1) eqn:Hle.
  - apply Qle_bool_iff in Hle. split; [|done]. by apply Qmult_le_0_compat.
  - done.
Qed.

(** X24. The level shown while listening.  Every tick of the running
    monitor stores the level of its data.  The meter scales it by 20 and
    cuts it at 1: for byte data the scaled level is between 0 and 1,
    every bar of the wave is between 5 and 14 pixels high, and a tick that
    counts as speech always makes the bars follow the level. *)
Theorem level_meter_follows_monitor data s :
  analyserRef (refs s) <> None -> isRecordingRef (refs s) = true ->
  byte_data data -> data <> [] ->
  let level := audioLevel (ui (monitorAudio data s)) in
  level = getAudioLevel data
  /\ (0 <= scaledLevel level <= 1)%Q
  /\ (forall variation, (4 # 10 <= variation <= 1)%Q ->
        (5 <= barHeight level variation <= 14)%Q)
  /\ (isSpeaking level = true -> wave_follows_level level = true).
Proof.
  intros Ha Hr Hb Hne. cbv zeta. rewrite (monitorAudio_level data s Ha Hr).
  pose proof (getAudioLevel_nonneg data Hb Hne) as H0.
  destruct (scaledLevel_bounds _ H0) as [S0 S1].
  split; [done|]. split; [done|]. split.
  - intros v [Hv0 Hv1]. unfold barHeight.
    set (x := scaledLevel (getAudioLevel data)) in *.
    assert (Hv : (0 <= v)%Q).
    { eapply Qle_trans; [|exact Hv0]. done. }
    assert (Hx0 : (0 <= (14 - 5) * x * v)%Q).
    { apply Qmult_le_0_compat; [|done]. apply Qmult_le_0_compat; done. }
    assert (Hx1 : ((14 - 5) * x * v <= (14 - 5) * 1 * 1)%Q).
    { apply Qmult_le_compat_nonneg.
      - split; [apply Qmult_le_0_compat; done|].
        apply Qmult_le_compat_nonneg; [split; done|split; done].
      - split; done. }
    split.
    + apply Qle_trans with (5 + 0)%Q; [done|]. by apply Qplus_le_r.
    + apply Qle_trans with (5 + (14 - 5) * 1 * 1)%Q; [by apply Qplus_le_r|done].
  - rewrite isSpeaking_true. intros Hsp. unfold wave_follows_level.
    rewrite negb_true_iff, <- not_true_iff_false, Qle_bool_iff.
    apply Qlt_not_le. unfold scaledLevel.
    destruct (Qle_bool (getAudioLevel data * 20) 1); [|done].
    eapply Qlt_trans; [|apply Qmult_lt_compat_r; [done|exact Hsp]].
    done.
Qed.

(** * Tasks that interrupt speech

    [stopTtsNow] resolves the promise of the call it interrupts, so that
    the caller of that call goes on within the task of the handler that
    interrupted it.  The properties below are about whole tasks. *)

(** ** The caller that is resumed *)







(** ** The task of a stop request *)





Section StopTask.
Variable ttsEnabled : bool.
Variable robotName : string.






End StopTask.

(** ** Tasks that speak *)

Section SpeakTasks.
Variable ttsEnabled : bool.
Variable robotName : string.





End SpeakTasks.

(** ** A refused microphone *)


Section Refused.
Variable ttsEnabled : bool.
Variable robotName : string.



End Refused.


(** ** The answer to a typed message, and the microphone button *)

Section TypedTask.
Variable ttsEnabled : bool.
Variable robotName : string.


End TypedTask.


Section MicButtonTask.
Variable ttsEnabled : bool.
Variable robotName : string.


End MicButtonTask.

(** ** The task of a change of mode *)


Section SwitchTask.
Variable ttsEnabled : bool.
Variable robotName : string.


End SwitchTask.



Section SidebarTask.
Variable ttsEnabled : bool.
Variable robotName : string.





End SidebarTask.

(** ** A change of mode that interrupts a reply *)

(** C9 does not hold when the change of mode interrupts speech in
    continuous mode.  With a reply being played, the task of the change
    of mode resumes the interrupted turn, which finds continuous mode on:
    the task ends in the listening phase with the 500 ms restart timer
    set, the greeting having only just been requested.  Capture then
    restarts while the greeting is played, and once more 500 ms after its
    end, so that two sessions record at once. *)
Theorem mode_switch_restarts_capture_during_greeting :
  exists s1 s2 s3 s4 x g y1 y2,
    run true "VV" run_reply_playing (init 1000 "en") = Some s1
    /\ calls (tts s1) !! 1 = Some x /\ c_stage x = playing /\ c_cont x = after_reply
    /\ shouldContinueRef (refs s1) = true /\ conversation_engaged s1 = true
    /\ jarvisPhase (ui s1) = speaking /\ timers (env s1) = [(21200%Z, max_record_time 0)]
    /\ step true "VV" 6000 (NavClick (nav_mode story)) s1 = Some s2
    /\ jarvisPhase (ui s2) = listening
    /\ timers (env s2) = [(21200%Z, max_record_time 0); (6500%Z, restart_capture)]
    /\ calls (tts s2) !! 2 = Some g /\ c_text g = MODE_GREETINGS story
    /\ c_cont g = after_switch_active /\ c_stage g = fetching
    /\ run true "VV"
         [ (6400, TtsFetched 2 fetch_ok); (6500, TimerFire 1); (6600, MicGranted) ]%Z s2
       = Some s3
    /\ audible 2 s3 /\ jarvisPhase (ui s3) = listening
    /\ isRecordingRef (refs s3) = true
    /\ sessions (env s3) !! 1 = Some y1
    /\ stream_live y1 = true /\ rec_state y1 = rec_recording
    /\ run true "VV"
         [ (9000, AudioEnded 2); (9500, TimerFire 2); (9600, MicGranted) ]%Z s3
       = Some s4
    /\ sessions (env s4) !! 1 = Some y1 /\ sessions (env s4) !! 2 = Some y2
    /\ stream_live y2 = true /\ rec_state y2 = rec_recording
    /\ mediaRecorderRef (refs s4) = Some 2.
Proof.
  do 8 eexists.
  split; [vm_compute; reflexivity|].
  split; [reflexivity|]. do 6 (split; [reflexivity|]).
  split; [vm_compute; reflexivity|].
  do 2 (split; [reflexivity|]).
  split; [reflexivity|]. do 3 (split; [reflexivity|]).
  split; [vm_compute; reflexivity|].
  split; [eexists; eexists; split; [reflexivity|split; reflexivity]|].
  do 2 (split; [reflexivity|]).
  split; [reflexivity|]. do 2 (split; [reflexivity|]).
  split; [vm_compute; reflexivity|].
  split; [reflexivity|]. split; [reflexivity|]. repeat split.
Qed.




(** * The registration wizard *)

Section Wizard.
Import RegisterView.

Lemma trimStart_nil s :
  trimStart s = [] <-> Forall (fun c => is_white_space c = true) s.
Proof.
  induction s as [|c s IH]; cbn; [done|].
  destruct (is_white_space c) eqn:Hc.
  - rewrite IH. split; [by constructor|by inversion 1].
  - split; [done|]. inversion 1. congruence.
Qed.

Lemma trimStart_suffix s : exists pre, s = pre ++ trimStart s.
Proof.
  induction s as [|c s [pre IH]]; [by exists []|]. cbn.
  destruct (is_white_space c); [|by exists []].
  exists (c :: pre). cbn. by rewrite <- IH.
Qed.

Lemma trimStart_head s c s' : trimStart s = c :: s' -> is_white_space c = false.
Proof.
  induction s as [|d s IH]; cbn; [done|].
  destruct (is_white_space d) eqn:Hd; [done|]. by intros [= <- _].
Qed.

Lemma falsy_trim s :
  falsy (trim s) = true <-> Forall (fun c => is_white_space c = true) s.
Proof.
  unfold trim, trimEnd. split.
  - intros Hf. apply trimStart_nil.
    destruct (trimStart s) as [|c s'] eqn:Hs; [done|]. exfalso.
    pose proof (trimStart_head _ _ _ Hs) as Hc.
    destruct (rev (trimStart (rev (c :: s')))) as [|d l] eqn:Hr; [|done].
    apply (f_equal (@rev Z)) in Hr. rewrite rev_involutive in Hr. cbn [rev] in Hr.
    apply trimStart_nil in Hr. rewrite Forall_app, Forall_singleton in Hr.
    destruct Hr as [_ Hr]. congruence.
  - intros Hall. apply trimStart_nil in Hall. by rewrite Hall.
Qed.

Lemma falsy_trim_false s : falsy (trim s) = false <-> not_blank s.
Proof.
  rewrite <- not_true_iff_false, falsy_trim. unfold not_blank. split.
  - intros Hn. apply not_Forall_Exists in Hn; [|intros c; apply _].
    apply Exists_exists in Hn as (c & Hin & Hc). exists c. split; [done|].
    by apply not_true_is_false.
  - intros (c & Hin & Hc) Hall. rewrite Forall_forall in Hall.
    specialize (Hall c Hin). congruence.
Qed.

Lemma includes_at_true s : includes_at s = true <-> 64%Z ∈ s.
Proof.
  unfold includes_at. rewrite existsb_exists. split.
  - intros (c & Hin & Hc). apply Z.eqb_eq in Hc. subst. by apply list_elem_of_In.
  - intros Hin. exists 64%Z. split; [by apply list_elem_of_In|done].
Qed.

Lemma at_sign_not_blank s : 64%Z ∈ s -> not_blank s.
Proof. intros H. by exists 64%Z. Qed.

Lemma falsy_trim_true s : falsy (trim s) = true <-> ~ not_blank s.
Proof. rewrite <- falsy_trim_false. by destruct (falsy (trim s)). Qed.

Lemma includes_at_false s : includes_at s = false <-> 64%Z ∉ s.
Proof. rewrite <- includes_at_true. by destruct (includes_at s). Qed.

Lemma validateStep_parent fd :
  validateStep 1 fd = (true, None) <-> parent_valid fd.
Proof.
  unfold validateStep, parent_valid. cbn [Z.eqb].
  destruct (falsy (trim (parentName fd))) eqn:Hpn.
  { apply falsy_trim_true in Hpn. split; [done|]. by intros [? _]. }
  apply falsy_trim_false in Hpn.
  destruct (includes_at (parentEmail fd)) eqn:Hat.
  - apply includes_at_true in Hat.
    rewrite (proj2 (falsy_trim_false _) (at_sign_not_blank _ Hat)). done.
  - apply includes_at_false in Hat. rewrite orb_true_r. split; [done|]. by intros [_ ?].
Qed.

Lemma validateStep_child fd :
  validateStep 2 fd = (true, None) <-> child_valid fd.
Proof.
  unfold validateStep, child_valid. cbn [Z.eqb].
  destruct (falsy (trim (childName fd))) eqn:Hcn.
  { apply falsy_trim_true in Hcn. split; [done|]. by intros [? _]. }
  apply falsy_trim_false in Hcn.
  destruct (Z.ltb_spec (childAge fd) 2), (Z.ltb_spec 12 (childAge fd)); cbn;
    (split; [intros Heq; first [discriminate|split; [done|lia]]
            |intros [_ Hr]; first [reflexivity|lia]]).
Qed.

(** X19. What the two checked steps require.  The first step passes
    exactly when the parent's name has a character that is not white
    space and the address contains an at sign: the test that the trimmed
    address is not empty adds nothing, since an at sign is such a
    character.  The second step passes exactly when the child's name has a
    character that is not white space and the age is between 2 and 12.
    A name of white space only is refused as a missing name, before the
    address or the age is looked at.  The other steps always pass. *)
Theorem required_fields_check fd :
  (validateStep 1 fd = (true, None) <-> parent_valid fd)
  /\ (~ not_blank (parentName fd) ->
        validateStep 1 fd = (false, Some "Please enter your name"))
  /\ (not_blank (parentName fd) -> 64%Z ∉ parentEmail fd ->
        validateStep 1 fd = (false, Some "Please enter a valid email address"))
  /\ (validateStep 2 fd = (true, None) <-> child_valid fd)
  /\ (~ not_blank (childName fd) ->
        validateStep 2 fd = (false, Some "Please enter your child's name"))
  /\ (not_blank (childName fd) -> ~ (2 <= childAge fd <= 12)%Z ->
        validateStep 2 fd = (false, Some "Age should be between 2 and 12"))
  /\ (forall step, step <> 1%Z -> step <> 2%Z -> validateStep step fd = (true, None)).
Proof.
  split; [apply validateStep_parent|].
  split; [|split; [|split; [apply validateStep_child|split; [|split]]]].
  - intros Hb. unfold validateStep. cbn [Z.eqb].
    by rewrite (proj2 (falsy_trim_true _) Hb).
  - intros Hnb Hat. unfold validateStep. cbn [Z.eqb].
    rewrite (proj2 (falsy_trim_false _) Hnb).
    rewrite (proj2 (includes_at_false _) Hat). by rewrite orb_true_r.
  - intros Hb. unfold validateStep. cbn [Z.eqb].
    by rewrite (proj2 (falsy_trim_true _) Hb).
  - intros Hnb Hage. unfold validateStep. cbn [Z.eqb].
    rewrite (proj2 (falsy_trim_false _) Hnb).
    destruct (Z.ltb_spec (childAge fd) 2), (Z.ltb_spec 12 (childAge fd)); cbn;
      try done. lia.
  - intros step H1 H2. unfold validateStep.
    rewrite (proj2 (Z.eqb_neq _ _) H1), (proj2 (Z.eqb_neq _ _) H2). done.
Qed.

End Wizard.

Section WizardRuns.
Import RegisterView.

Lemma mem_string_true x l : mem_string x l = true <-> x ∈ l.
Proof.
  unfold mem_string. rewrite existsb_exists. split.
  - intros (y & Hin & Hy). apply String.eqb_eq in Hy. subst. by apply list_elem_of_In.
  - intros Hin. exists x. split; [by apply list_elem_of_In|apply String.eqb_refl].
Qed.

Lemma mem_Z_true x l : mem_Z x l = true <-> x ∈ l.
Proof.
  unfold mem_Z. rewrite existsb_exists. split.
  - intros (y & Hin & Hy). apply Z.eqb_eq in Hy. subst. by apply list_elem_of_In.
  - intros Hin. exists x. split; [by apply list_elem_of_In|apply Z.eqb_refl].
Qed.

Lemma elem_of_AGES a : a ∈ AGES -> (2 <= a <= 12)%Z.
Proof.
  unfold AGES. rewrite !elem_of_cons, elem_of_nil. lia.
Qed.

Lemma toggled_interests interest l j :
  j ∈ (if existsb (String.eqb interest) l
       then List.filter (fun i => negb (String.eqb i interest)) l
       else l ++ [interest])
  <-> (j = interest /\ interest ∉ l) \/ (j <> interest /\ j ∈ l).
Proof.
  fold (mem_string interest l).
  destruct (string_dec j interest) as [->|Hne];
    destruct (mem_string interest l) eqn:Hm.
  - apply mem_string_true in Hm. rewrite list_elem_of_In, filter_In, <- list_elem_of_In.
    rewrite negb_true_iff, String.eqb_neq. tauto.
  - apply not_true_iff_false in Hm. rewrite mem_string_true in Hm.
    rewrite elem_of_app, list_elem_of_singleton. tauto.
  - rewrite list_elem_of_In, filter_In, <- list_elem_of_In.
    rewrite negb_true_iff, String.eqb_neq. tauto.
  - rewrite elem_of_app, list_elem_of_singleton. tauto.
Qed.

Lemma toggled_NoDup interest l :
  NoDup l ->
  NoDup (if existsb (String.eqb interest) l
         then List.filter (fun i => negb (String.eqb i interest)) l
         else l ++ [interest]).
Proof.
  intros Hnd. fold (mem_string interest l).
  destruct (mem_string interest l) eqn:Hm.
  - apply NoDup_ListNoDup, List.NoDup_filter, NoDup_ListNoDup, Hnd.
  - apply not_true_iff_false in Hm. rewrite mem_string_true in Hm.
    apply NoDup_app. split; [done|]. split; [|apply NoDup_singleton].
    intros x Hx ->%list_elem_of_singleton. done.
Qed.

Lemma init_wizard_inv : WizardInv init.
Proof.
  constructor; cbn; try done; try lia.
  - apply NoDup_nil_2.
  - intros i Hi. by apply elem_of_nil in Hi.
  - unfold REPORT_TIMES. rewrite !elem_of_cons. tauto.
  - intros fd Hfd. by apply elem_of_nil in Hfd.
  - by left.
Qed.

Lemma guard_Some b w w' : guard b w = Some w' -> b = true /\ w' = w.
Proof. unfold guard. destruct b; [by intros [= ->]|done]. Qed.

Lemma run_validateStep_spec step w :
  let r := run_validateStep step w in
  fst r = fst (validateStep step (formData w))
  /\ currentStep (snd r) = currentStep w /\ formData (snd r) = formData w
  /\ registering (snd r) = registering w /\ isSubmitting (snd r) = isSubmitting w
  /\ submitSuccess (snd r) = submitSuccess w.
Proof.
  cbv zeta. unfold run_validateStep.
  by destruct (validateStep step (formData w)) as [ok [msg|]].
Qed.

Lemma validateStep_ok step fd :
  fst (validateStep step fd) = true -> validateStep step fd = (true, None).
Proof.
  unfold validateStep.
  repeat match goal with |- context [if ?b then _ else _] => destruct b end; done.
Qed.

Lemma handle_wizard_inv ev w w' :
  WizardInv w -> handle ev w = Some w' -> WizardInv w'.
Proof.
  intros I. destruct ev; cbn [handle].
  - intros [Hb ->]%guard_Some. apply andb_true_iff in Hb as [_ Hs%Z.eqb_eq].
    destruct I. constructor; cbn; try done; lia.
  - intros [Hb ->]%guard_Some. apply andb_true_iff in Hb as [_ Hs%Z.eqb_eq].
    destruct I. constructor; cbn; try done; lia.
  - intros [Hb ->]%guard_Some. apply andb_true_iff in Hb as [_ Hs%Z.eqb_eq].
    destruct I. constructor; cbn; try done; lia.
  - intros [Hb ->]%guard_Some. apply andb_true_iff in Hb as [Hb Ha%mem_Z_true].
    apply andb_true_iff in Hb as [_ Hs%Z.eqb_eq]. apply elem_of_AGES in Ha.
    destruct I. constructor; cbn; try done; lia.
  - intros [Hb ->]%guard_Some. apply andb_true_iff in Hb as [Hb Hi%mem_string_true].
    destruct I. constructor; cbn; try done.
    + by apply toggled_NoDup.
    + intros j [[-> _]|[_ Hj]]%toggled_interests; auto.
  - intros [Hb ->]%guard_Some. apply andb_true_iff in Hb as [_ Hs%Z.eqb_eq].
    destruct I. constructor; cbn; try done.
  - intros [Hb ->]%guard_Some. apply andb_true_iff in Hb as [Hb Hv%mem_string_true].
    destruct I. constructor; cbn; try done.
  - intros [Hb ->]%guard_Some. apply andb_true_iff in Hb as [_ Hs%Z.ltb_lt].
    destruct I. constructor; cbn; try done; try lia.
    + intros H2. apply winv_parent0. lia.
    + intros H3. apply winv_child0. lia.
  - intros [Hb ->]%guard_Some. apply andb_true_iff in Hb as [_ Hs%Z.ltb_lt].
    unfold nextStep.
    destruct (run_validateStep_spec (currentStep w) w) as (Hok & Hst & Hfd & Hrg & Hsb & Hss).
    destruct (run_validateStep (currentStep w) w) as [ok w1]. cbn in Hok, Hst, Hfd, Hrg, Hsb, Hss.
    assert (I1 : WizardInv w1).
    { destruct I. constructor; rewrite ?Hst, ?Hfd, ?Hrg, ?Hsb, ?Hss; done. }
    destruct ok; [|done].
    pose proof (validateStep_parent (formData w)) as Hp.
    pose proof (validateStep_child (formData w)) as Hc.
    symmetry in Hok. apply validateStep_ok in Hok.
    destruct I1. rewrite Hst, Hfd in *.
    constructor; cbn; rewrite ?Hst, ?Hfd; try done; try lia.
    + intros H2. destruct (decide (currentStep w = 1%Z)) as [H1|H1].
      * apply Hp. by rewrite <- H1.
      * apply winv_parent0. lia.
    + intros H3. destruct (decide (currentStep w = 2%Z)) as [H2|H2].
      * apply Hc. by rewrite <- H2.
      * apply winv_child0. lia.
  - intros [Hb ->]%guard_Some. apply andb_true_iff in Hb as [Hb Hns%negb_true_iff].
    apply andb_true_iff in Hb as [Hsh Hs%negb_true_iff]. apply Z.ltb_ge in Hs.
    unfold handleSubmit.
    destruct (run_validateStep_spec 4 w) as (Hok & Hst & Hfd & Hrg & Hsb & Hss).
    destruct (run_validateStep 4 w) as [ok w1]. cbn in Hok, Hst, Hfd, Hrg, Hsb, Hss.
    assert (I1 : WizardInv w1).
    { destruct I. constructor; rewrite ?Hst, ?Hfd, ?Hrg, ?Hsb, ?Hss; done. }
    destruct ok; cbn [negb]; [|done].
    assert (Hshown : submitSuccess w = false).
    { unfold form_shown in Hsh. apply andb_true_iff in Hsh as [_ Hsh].
      by apply negb_true_iff in Hsh. }
    destruct I1. constructor; cbn; try done.
    + intros fd [Hin| ->%list_elem_of_singleton]%elem_of_app; [by apply winv_sent0|].
      split; [apply winv_parent0|apply winv_child0]; lia.
    + right. destruct winv_flight0 as [[Hr _]|(_ & Hsub & _)].
      * rewrite Hr. cbn. split; [by eexists|]. split; [done|congruence].
      * congruence.
  - intros [Hb ->]%guard_Some. destruct I. by constructor.
  - destruct (registering w !! k) as [fd|] eqn:Hk; [|done]. intros [= <-].
    destruct I. destruct winv_flight0 as [[Hr _]|((fd0 & Hr) & _)];
      [by rewrite Hr in Hk|].
    rewrite Hr in Hk. destruct k; [|done].
    constructor; cbn; try done.
    + rewrite Hr. cbn. intros fd' Hfd'. by apply elem_of_nil in Hfd'.
    + left. by rewrite Hr.
  - destruct (registering w !! k) as [fd|] eqn:Hk; [|done]. intros [= <-].
    destruct I. destruct winv_flight0 as [[Hr _]|((fd0 & Hr) & _)];
      [by rewrite Hr in Hk|].
    rewrite Hr in Hk. destruct k; [|done].
    constructor; cbn; try done.
    + rewrite Hr. cbn. intros fd' Hfd'. by apply elem_of_nil in Hfd'.
    + left. by rewrite Hr.
  - destruct (redirects w); [done|]. intros [= <-]. destruct I. by constructor.
Qed.

Lemma reachable_wizard_inv w : reachable w -> WizardInv w.
Proof.
  induction 1 as [|w ev w' _ IH Hh]; [apply init_wizard_inv|].
  by eapply handle_wizard_inv.
Qed.

Lemma run_wizard_reachable tr w w' :
  reachable w -> run tr w = Some w' -> reachable w'.
Proof.
  revert w. induction tr as [|ev tr IH]; intros w Hr; cbn.
  - by intros [= <-].
  - destruct (handle ev w) as [w1|] eqn:Hh; [|done].
    apply IH. by eapply reachable_step.
Qed.

Lemma wizard_after_reachable tr :
  run tr init <> None -> reachable (wizard_after tr).
Proof.
  unfold wizard_after. destruct (run tr init) as [w|] eqn:Hr; [|done].
  intros _. by eapply run_wizard_reachable; [constructor|].
Qed.

End WizardRuns.

Section WizardTheorems.
Import RegisterView.

(** X20. The wizard never skips a check.  The step shown is always one
    of the four; whenever a later step is shown the fields of the earlier
    ones are valid, since they can be edited only on their own step and
    Continue advances only when the check of the step passes; hence every
    profile that is submitted, which happens on the fourth step only,
    has a parent's name, an address with an at sign, a child's name and an
    age between 2 and 12. *)
Theorem wizard_never_skips_validation w :
  reachable w ->
  (1 <= currentStep w <= 4)%Z
  /\ ((2 <= currentStep w)%Z -> parent_valid (formData w))
  /\ ((3 <= currentStep w)%Z -> child_valid (formData w))
  /\ (forall fd, fd ∈ registering w -> parent_valid fd /\ child_valid fd)
  /\ (forall w', handle Submit w = Some w' ->
        currentStep w = 4%Z /\ registering w' = registering w ++ [formData w]
        /\ parent_valid (formData w) /\ child_valid (formData w)).
Proof.
  intros Hr. destruct (reachable_wizard_inv w Hr). do 4 (split; [done|]).
  intros w'. cbn [handle]. intros [Hb ->]%guard_Some.
  apply andb_true_iff in Hb as [Hb _]. apply andb_true_iff in Hb as [_ Hs%negb_true_iff].
  apply Z.ltb_ge in Hs. split; [lia|]. split; [done|].
  split; [apply winv_parent0|apply winv_child0]; lia.
Qed.

(** X21. The check of the age never fails.  The age is set by the
    select element only, whose options are 2 to 12, and starts at 4: in
    every reachable state it is between 2 and 12, so that no step ever
    answers with the message about the age. *)
Theorem age_check_never_fails w :
  reachable w ->
  (2 <= childAge (formData w) <= 12)%Z
  /\ forall step,
       snd (validateStep step (formData w)) <> Some "Age should be between 2 and 12".
Proof.
  intros Hr. destruct (reachable_wizard_inv w Hr). split; [done|].
  intros step. unfold validateStep.
  destruct (Z.ltb_spec (childAge (formData w)) 2); [lia|].
  destruct (Z.ltb_spec 12 (childAge (formData w))); [lia|]. cbn.
  repeat match goal with |- context [if ?b then _ else _] => destruct b end; done.
Qed.

(** X22. The interests.  A click on an interest selects it when it
    was not selected and removes it when it was, leaves every other
    interest as it was, and changes nothing else of the form, the error
    message included.  The selection never holds an interest twice, and
    holds only interests of the list of twelve. *)
Theorem interests_are_toggled w interest :
  (let w' := toggleInterest interest w in
   (forall j, j ∈ childInterests (formData w') <->
      (j = interest /\ interest ∉ childInterests (formData w))
      \/ (j <> interest /\ j ∈ childInterests (formData w)))
   /\ (NoDup (childInterests (formData w)) -> NoDup (childInterests (formData w')))
   /\ set_childInterests [] (formData w') = set_childInterests [] (formData w)
   /\ error w' = error w /\ currentStep w' = currentStep w)
  /\ (reachable w ->
      NoDup (childInterests (formData w))
      /\ (forall i, i ∈ childInterests (formData w) -> i ∈ INTERESTS)
      /\ length (childInterests (formData w)) <= 12).
Proof.
  split.
  - cbv zeta. cbn. split; [apply toggled_interests|]. split; [apply toggled_NoDup|done].
  - intros Hr. destruct (reachable_wizard_inv w Hr). do 2 (split; [done|]).
    change 12 with (length INTERESTS). apply NoDup_incl_length.
    + by apply NoDup_ListNoDup.
    + intros i Hi%list_elem_of_In. by apply list_elem_of_In, winv_known0.
Qed.

(** X23. Submitting the registration.  At most one request is in
    flight, and exactly while the page shows that it is submitting.  A
    submission sends the profile as it is then, clears the error and
    cannot be repeated before the answer.  When the service accepts, the
    success page replaces the form, the parent is marked registered and a
    timer is set that shows the chat view.  When the request fails, the
    message of the failure, or the fixed message when it has none, is
    shown, and the form is as before, still on its step and no longer
    submitting. *)
Theorem registration_outcome w :
  reachable w ->
  (isSubmitting w = true <-> registering w <> [])
  /\ length (registering w) <= 1
  /\ (forall w', handle Submit w = Some w' ->
        registering w' = [formData w] /\ isSubmitting w' = true
        /\ error w' = None /\ currentStep w' = currentStep w
        /\ formData w' = formData w /\ handle Submit w' = None)
  /\ (forall k w', handle (RegisterResolved k) w = Some w' ->
        submitSuccess w' = true /\ parentRegistered w' = true
        /\ isSubmitting w' = false /\ registering w' = []
        /\ form_shown w' = false
        /\ exists w'', handle RedirectFire w' = Some w'' /\ view w'' = view_chat)
  /\ (forall k message w', handle (RegisterRejected k message) w = Some w' ->
        error w' = Some (match message with
                         | Some m => m
                         | None => "Registration failed. Please try again."
                         end)
        /\ isSubmitting w' = false /\ registering w' = []
        /\ submitSuccess w' = submitSuccess w /\ currentStep w' = currentStep w
        /\ formData w' = formData w /\ view w' = view w).
Proof.
  intros Hr. destruct (reachable_wizard_inv w Hr).
  assert (Hone : forall k fd, registering w !! k = Some fd ->
            registering w = [fd] /\ k = 0).
  { intros k fd Hk. destruct winv_flight0 as [[Hn _]|((fd0 & H1) & _)];
      [by rewrite Hn in Hk|].
    rewrite H1 in Hk. destruct k; [|done]. cbn in Hk. by injection Hk as ->. }
  split; [|split; [|split; [|split]]].
  - destruct winv_flight0 as [[Hn Hs]|((fd0 & H1) & Hs & _)].
    + rewrite Hn, Hs. done.
    + rewrite H1, Hs. done.
  - destruct winv_flight0 as [[Hn _]|((fd0 & H1) & _)]; [rewrite Hn|rewrite H1]; cbn; lia.
  - intros w'. cbn [handle]. intros [Hb ->]%guard_Some.
    apply andb_true_iff in Hb as [Hb Hns%negb_true_iff].
    assert (Hreg : registering w = []).
    { destruct winv_flight0 as [[Hn _]|(_ & Hs & _)]; [done|congruence]. }
    unfold handleSubmit, run_validateStep. cbn. rewrite Hreg. cbn.
    do 5 (split; [done|]). unfold guard. cbn. by rewrite andb_false_r.
  - intros k w'. cbn [handle].
    destruct (registering w !! k) as [fd|] eqn:Hk; [|done]. intros [= <-].
    destruct (Hone k fd Hk) as [H1 ->]. cbn. rewrite H1. cbn.
    do 4 (split; [done|]). split.
    + unfold form_shown. cbn. by rewrite andb_false_r.
    + by eexists.
  - intros k message w'. cbn [handle].
    destruct (registering w !! k) as [fd|] eqn:Hk; [|done]. intros [= <-].
    destruct (Hone k fd Hk) as [H1 ->]. cbn. rewrite H1. done.
Qed.

End WizardTheorems.

(** ** The further properties at concrete states *)

Lemma state_after_off_reachable tr :
  run false "VV" tr (init 1000 "en") <> None ->
  reachable false "VV" (state_after_off tr).
Proof.
  unfold state_after_off. destruct (run false "VV" tr (init 1000 "en")) as [s|] eqn:Hr.
  - intros _. by eapply run_reachable.
  - done.
Qed.

Lemma getAudioLevel_bounds_witness :
  byte_data loud /\ loud <> [] /\ (0 <= getAudioLevel loud <= 1)%Q.
Proof.
  assert (H1 : byte_data loud) by (repeat constructor; lia).
  assert (H2 : loud <> []) by discriminate.
  split; [exact H1|]. split; [exact H2|].
  exact (getAudioLevel_bounds loud H1 H2).
Defined.

Lemma speech_iff_sum_980_witness :
  length (replicate 256 4%Z) = 256
  /\ isSpeaking (getAudioLevel (replicate 256 4%Z)) = true.
Proof.
  split; [reflexivity|].
  apply (proj2 (speech_iff_sum_980 (replicate 256 4%Z) eq_refl)).
  vm_compute. discriminate.
Defined.

Lemma speak_callers_never_hang_witness :
  reachable true "VV" (state_after run_greeting)
  /\ exists x, calls (tts (state_after run_greeting)) !! 0 = Some x
       /\ (c_stage x = playing -> ttsResolveRef (tts (state_after run_greeting)) = Some 0).
Proof.
  assert (Hr : reachable true "VV" (state_after run_greeting)).
  { apply state_after_reachable. vm_compute. discriminate. }
  split; [exact Hr|]. eexists. split; [vm_compute; reflexivity|].
  intros Hp.
  destruct (speak_callers_never_hang true "VV" (state_after run_greeting) 0 _ Hr eq_refl)
    as (_ & H & _).
  exact (proj1 (H Hp)).
Defined.

Lemma player_resources_released_witness :
  reachable true "VV" (state_after run_replied)
  /\ forall c x, calls (tts (state_after run_replied)) !! c = Some x ->
       c_stage x = returned -> c_urlLive x = false.
Proof.
  assert (Hr : reachable true "VV" (state_after run_replied)).
  { apply state_after_reachable. vm_compute. discriminate. }
  split; [exact Hr|]. intros c x Hx Hret.
  destruct (player_resources_released true "VV" (state_after run_replied) Hr)
    as (_ & _ & H).
  exact (proj1 (H c x Hx Hret)).
Defined.

Lemma playback_end_resumes_caller_witness :
  reachable true "VV" (state_after run_greeting)
  /\ audible 0 (state_after run_greeting)
  /\ (clock (env (state_after run_greeting)) <= 3000)%Z
  /\ exists s', step true "VV" 3000 (AudioEnded 0) (state_after run_greeting) = Some s'
       /\ ttsAudioRef (tts s') = None /\ forall i, ~ audible i s'.
Proof.
  assert (Hr : reachable true "VV" (state_after run_greeting)).
  { apply state_after_reachable. vm_compute. discriminate. }
  assert (Ha : audible 0 (state_after run_greeting)).
  { eexists. eexists. split; [vm_compute; reflexivity|]. split; reflexivity. }
  assert (Hc : (clock (env (state_after run_greeting)) <= 3000)%Z).
  { vm_compute. discriminate. }
  do 3 (split; [assumption|]).
  destruct (playback_end_resumes_caller true "VV" (state_after run_greeting) 0 _
              3000%Z (AudioEnded 0) Hr eq_refl Ha (or_introl eq_refl) Hc)
    as (s' & x' & Hs & H1 & _ & _ & _ & _ & _ & _ & H2 & _).
  exists s'. split; [exact Hs|]. split; [exact H1|exact H2].
Defined.

Lemma fetch_outcome_witness :
  reachable true "VV" (state_after run_started)
  /\ (exists x, calls (tts (state_after run_started)) !! 0 = Some x
        /\ c_stage x = fetching /\ c_aborted x = false)
  /\ audible 0 (speakResponse_fetched 0 fetch_ok (state_after run_started)).
Proof.
  assert (Hr : reachable true "VV" (state_after run_started)).
  { apply state_after_reachable. vm_compute. discriminate. }
  split; [exact Hr|]. split.
  - eexists. split; [vm_compute; reflexivity|]. split; reflexivity.
  - destruct (fetch_outcome true "VV" (state_after run_started) 0 _ Hr eq_refl eq_refl)
      as [H _].
    exact (proj1 (H eq_refl)).
Defined.

Lemma speech_off_player_idle_witness :
  reachable false "VV" (state_after_off run_started)
  /\ calls (tts (state_after_off run_started)) = []
  /\ jarvisPhase (ui (state_after_off run_started)) = listening.
Proof.
  assert (Hr : reachable false "VV" (state_after_off run_started)).
  { apply state_after_off_reachable. vm_compute. discriminate. }
  split; [exact Hr|]. split; [|vm_compute; reflexivity].
  exact (f_equal calls (proj1 (speech_off_player_idle "VV" _ Hr))).
Defined.

Lemma understood_turn_is_answered_witness :
  "hi" <> ""
  /\ messages (ui (processAudio_transcribed true (transcribed "hi" true)
                     (state_after run_heard))) =
     messages (ui (state_after run_heard)) ++ [{| role := user; content := "hi" |}].
Proof.
  assert (H : "hi" <> "") by discriminate.
  split; [exact H|].
  destruct (understood_turn_is_answered true (state_after run_heard)) as [Ht _].
  exact (proj1 (Ht "hi" H)).
Defined.

Lemma typed_message_guard_witness :
  "hello" <> ""
  /\ isLoading (ui (init 1000 "en")) = false /\ jarvisPhase (ui (init 1000 "en")) = idle
  /\ jarvisPhase (ui (handleTextSubmit "hello" (init 1000 "en"))) = processing
  /\ handleTextSubmit "again" (handleTextSubmit "hello" (init 1000 "en")) =
     handleTextSubmit "hello" (init 1000 "en").
Proof.
  assert (H : "hello" <> "") by discriminate.
  split; [exact H|]. split; [reflexivity|]. split; [reflexivity|]. split.
  - destruct (proj1 (proj2 (typed_message_guard (init 1000 "en") "hello"))
                H eq_refl eq_refl) as (_ & Hp & _).
    exact Hp.
  - exact (proj2 (proj2 (typed_message_guard (init 1000 "en") "hello")) H "again").
Defined.

Lemma continuous_flag_agrees_witness :
  reachable true "VV" (state_after run_listening)
  /\ mounted (ui (state_after run_listening)) = true
  /\ shouldContinueRef (refs (state_after run_listening)) =
     conversationActive (ui (state_after run_listening)).
Proof.
  assert (Hr : reachable true "VV" (state_after run_listening)).
  { apply state_after_reachable. vm_compute. discriminate. }
  assert (Hm : mounted (ui (state_after run_listening)) = true).
  { vm_compute. reflexivity. }
  split; [exact Hr|]. split; [exact Hm|].
  exact (proj1 (continuous_flag_agrees true "VV" _ Hr) Hm).
Defined.

Lemma greeting_only_once_witness :
  hasGreetedRef (refs (state_after run_started)) = true
  /\ steps true "VV" (state_after run_started) (state_after run_stop_while_acquiring)
  /\ messages (ui (startConversation true "VV" (state_after run_stop_while_acquiring))) =
     messages (ui (state_after run_stop_while_acquiring)).
Proof.
  assert (Hg : hasGreetedRef (refs (state_after run_started)) = true).
  { vm_compute. reflexivity. }
  assert (Hs : steps true "VV" (state_after run_started)
                 (state_after run_stop_while_acquiring)).
  { apply (run_steps true "VV"
      [ (1100, TtsFetched 0 fetch_failed); (1150, MicClick);
        (1300, MicGranted); (1316, Frame 1 quiet); (21300, TimerFire 0);
        (30000, RecorderData 0 100) ]%Z).
    vm_compute. reflexivity. }
  split; [exact Hg|]. split; [exact Hs|].
  destruct (proj1 (proj2 (greeting_only_once true "VV" (state_after run_started)))
              Hg _ Hs) as (_ & _ & _ & Hm & _).
  exact Hm.
Defined.

Lemma leaving_chat_view_witness :
  audible 0 (state_after run_greeting)
  /\ audible 0 (handleNavClick true nav_settings (state_after run_greeting))
  /\ mounted (ui (handleNavClick true nav_settings (state_after run_greeting))) = false.
Proof.
  assert (Ha : audible 0 (state_after run_greeting)).
  { eexists. eexists. split; [vm_compute; reflexivity|]. split; reflexivity. }
  split; [exact Ha|].
  pose proof (leaving_chat_view true (state_after run_greeting)) as H.
  cbv zeta in H. destruct H as (_ & Hm & _ & _ & _ & _ & _ & _ & Hau & _).
  split; [exact (Hau 0 Ha)|exact Hm].
Defined.

Lemma restart_timer_is_unconditional_witness :
  (clock (env (state_after run_answered)) <= 7500)%Z
  /\ microtasks (env (state_after run_answered)) = []
  /\ timers (env (state_after run_answered)) !! 1 = Some (7500%Z, restart_capture)
  /\ (forall s', step true "VV" 7100 MicClick (state_after run_answered) = Some s' ->
        timers (env s') !! 1 = Some (7500%Z, restart_capture))
  /\ exists s', step true "VV" 7500 (TimerFire 1) (state_after run_answered) = Some s'
       /\ isRecordingRef (refs s') = true.
Proof.
  assert (H1 : (clock (env (state_after run_answered)) <= 7500)%Z).
  { vm_compute. discriminate. }
  assert (H2 : microtasks (env (state_after run_answered)) = []).
  { vm_compute. reflexivity. }
  assert (H3 : timers (env (state_after run_answered)) !! 1
               = Some (7500%Z, restart_capture)).
  { vm_compute. reflexivity. }
  do 3 (split; [assumption|]).
  destruct (proj1 (restart_timer_is_unconditional true "VV" (state_after run_answered)
              7500%Z 1 7500%Z H1 H2 ltac:(lia)) H3) as [Hk (s' & Hs & _ & Hrec & _)].
  split.
  - intros s0 Hs0. apply (Hk 7100%Z MicClick s0); [discriminate|exact Hs0].
  - exists s'. split; assumption.
Defined.

Lemma recorded_blob_witness :
  audioChunksRef (refs (record_chunks [100; 0; 250]%Z
                          (startRecording (state_after run_answered)))) = [100; 250]%Z
  /\ (fold_right Z.add 0 [100; 250] = 0 <-> Forall (fun z => z <= 0) [100; 0; 250])%Z.
Proof.
  pose proof (recorded_blob (state_after run_answered) [100; 0; 250]%Z) as H.
  cbv zeta in H. destruct H as (H1 & _ & H3 & _).
  split; [exact H1|]. rewrite H1 in H3. exact H3.
Defined.

Lemma level_meter_follows_monitor_witness :
  analyserRef (refs (state_after run_listening)) <> None
  /\ isRecordingRef (refs (state_after run_listening)) = true
  /\ byte_data loud /\ loud <> []
  /\ wave_follows_level
       (audioLevel (ui (monitorAudio loud (state_after run_listening)))) = true.
Proof.
  assert (H1 : analyserRef (refs (state_after run_listening)) <> None).
  { vm_compute. discriminate. }
  assert (H2 : isRecordingRef (refs (state_after run_listening)) = true).
  { vm_compute. reflexivity. }
  assert (H3 : byte_data loud) by (repeat constructor; lia).
  assert (H4 : loud <> []) by discriminate.
  do 4 (split; [assumption|]).
  pose proof (level_meter_follows_monitor loud (state_after run_listening) H1 H2 H3 H4)
    as H.
  cbv zeta in H. destruct H as (_ & _ & _ & Hw).
  apply Hw. vm_compute. reflexivity.
Defined.

Lemma required_fields_check_witness :
  RegisterView.parent_valid (RegisterView.formData (RegisterView.wizard_after
                                                      RegisterView.run_filled))
  /\ RegisterView.validateStep 1
       (RegisterView.formData (RegisterView.wizard_after RegisterView.run_filled))
     = (true, None).
Proof.
  assert (H : RegisterView.parent_valid
                (RegisterView.formData (RegisterView.wizard_after RegisterView.run_filled))).
  { split.
    - exists 65%Z. split; [|reflexivity]. vm_compute. left.
    - vm_compute. do 3 right. left. }
  split; [exact H|].
  exact (proj2 (proj1 (required_fields_check _)) H).
Defined.

Lemma wizard_never_skips_validation_witness :
  RegisterView.reachable (RegisterView.wizard_after RegisterView.run_filled)
  /\ RegisterView.currentStep (RegisterView.wizard_after RegisterView.run_filled) = 4%Z
  /\ RegisterView.child_valid
       (RegisterView.formData (RegisterView.wizard_after RegisterView.run_filled)).
Proof.
  assert (Hr : RegisterView.reachable (RegisterView.wizard_after RegisterView.run_filled)).
  { apply wizard_after_reachable. vm_compute. discriminate. }
  split; [exact Hr|]. split; [vm_compute; reflexivity|].
  destruct (wizard_never_skips_validation _ Hr) as (_ & _ & Hc & _).
  apply Hc. vm_compute. discriminate.
Defined.

Lemma age_check_never_fails_witness :
  RegisterView.reachable (RegisterView.wizard_after RegisterView.run_filled)
  /\ (2 <= RegisterView.childAge
             (RegisterView.formData (RegisterView.wizard_after RegisterView.run_filled))
      <= 12)%Z.
Proof.
  assert (Hr : RegisterView.reachable (RegisterView.wizard_after RegisterView.run_filled)).
  { apply wizard_after_reachable. vm_compute. discriminate. }
  split; [exact Hr|].
  exact (proj1 (age_check_never_fails _ Hr)).
Defined.

Lemma interests_are_toggled_witness :
  RegisterView.reachable (RegisterView.wizard_after RegisterView.run_filled)
  /\ NoDup (RegisterView.childInterests
              (RegisterView.formData (RegisterView.wizard_after RegisterView.run_filled)))
  /\ RegisterView.childInterests
       (RegisterView.formData
          (RegisterView.toggleInterest "space"
             (RegisterView.wizard_after RegisterView.run_filled))) = ["music"].
Proof.
  assert (Hr : RegisterView.reachable (RegisterView.wizard_after RegisterView.run_filled)).
  { apply wizard_after_reachable. vm_compute. discriminate. }
  split; [exact Hr|]. split; [|vm_compute; reflexivity].
  destruct (proj2 (interests_are_toggled _ "space") Hr) as (Hnd & _).
  exact Hnd.
Defined.

Lemma registration_outcome_witness :
  RegisterView.reachable (RegisterView.wizard_after RegisterView.run_filled)
  /\ exists w', RegisterView.handle RegisterView.Submit
                  (RegisterView.wizard_after RegisterView.run_filled) = Some w'
       /\ RegisterView.isSubmitting w' = true
       /\ RegisterView.handle RegisterView.Submit w' = None.
Proof.
  assert (Hr : RegisterView.reachable (RegisterView.wizard_after RegisterView.run_filled)).
  { apply wizard_after_reachable. vm_compute. discriminate. }
  assert (Hh : RegisterView.handle RegisterView.Submit
                 (RegisterView.wizard_after RegisterView.run_filled) =
               Some (RegisterView.handleSubmit
                       (RegisterView.wizard_after RegisterView.run_filled))).
  { vm_compute. reflexivity. }
  split; [exact Hr|]. eexists. split; [exact Hh|].
  destruct (registration_outcome _ Hr) as (_ & _ & Hs & _).
  destruct (Hs _ Hh) as (_ & H1 & _ & _ & _ & H2).
  split; [exact H1|exact H2].
Defined.
